(** * Subnet inventory: a shallow embedding of [subnet_inventory.py]

    The script keeps a flat file of lines [name cidr] and offers add, delete,
    list, query and conflict checks over it.  This development embeds

    - the Python string methods the script calls ([rsplit], [strip],
      [split], [readlines] with universal newlines),
    - the part of the standard [ipaddress] module it calls: [overlaps],
      and [ip_network(..., strict=False)] on IPv4 text, with the IPv6
      constructor left as a parameter,
    - the regular-expression search of [check_address_format],
    - the functions of the script itself, over an explicit world made of the
      inventory file, standard input and standard output, with Python
      exceptions as error results.

    Text is modelled as [string], one [ascii] per code point, so the model
    covers text whose code points are below 256; on that range [\d] is
    exactly [0-9] and [str.isspace] is the table of [isspace] below. *)

From Stdlib Require Import ZArith List String Ascii Bool Arith Lia.
Import ListNotations.

Local Open Scope string_scope.
Local Open Scope Z_scope.

(** A proof depends on the variables of its section that its statement
    names, and on no other. *)
Set Default Proof Using "Type".

(* ================================================================== *)
(** * Python strings *)
(* ================================================================== *)

Module PyStr.

Definition LF : ascii := "010"%char.
Definition CR : ascii := "013"%char.

(** [str.isspace] on one code point below 256. *)
Definition isspace (c : ascii) : bool :=
  let n := nat_of_ascii c in
  ((9 <=? n) && (n <=? 13) || (28 <=? n) && (n <=? 32) ||
   (n =? 133) || (n =? 160))%nat.

(** Decimal digits [0-9]: what [\d] matches below 256. *)
Definition isdecimal (c : ascii) : bool :=
  let n := nat_of_ascii c in ((48 <=? n) && (n <=? 57))%nat.

(** [str.isdigit] on one code point below 256: the decimal digits and the
    superscripts two, three and one. *)
Definition isdigit_char (c : ascii) : bool :=
  let n := nat_of_ascii c in
  (isdecimal c || (n =? 178) || (n =? 179) || (n =? 185))%nat.

Definition isascii_char (c : ascii) : bool := (nat_of_ascii c <? 128)%nat.

Fixpoint forall_chars (p : ascii -> bool) (s : string) : bool :=
  match s with
  | EmptyString => true
  | String c s' => p c && forall_chars p s'
  end.

(** [s.isascii()]: true on the empty string. *)
Definition isascii (s : string) : bool := forall_chars isascii_char s.

(** [s.isdigit()]: false on the empty string. *)
Definition isdigit (s : string) : bool :=
  match s with
  | EmptyString => false
  | _ => forall_chars isdigit_char s
  end.

(** [int(s)] on a string of ASCII decimal digits. *)
Definition digit_value (c : ascii) : Z := Z.of_nat (nat_of_ascii c) - 48.

Fixpoint int_acc (acc : Z) (s : string) : Z :=
  match s with
  | EmptyString => acc
  | String c s' => int_acc (10 * acc + digit_value c) s'
  end.

Definition int (s : string) : Z := int_acc 0 s.

(** [s.split(sep)] for a one-character separator. *)
Fixpoint split (sep : ascii) (s : string) : list string :=
  match s with
  | EmptyString => [EmptyString]
  | String c s' =>
      if Ascii.eqb c sep then EmptyString :: split sep s'
      else match split sep s' with
           | [] => [String c EmptyString]
           | x :: xs => String c x :: xs
           end
  end.

(** Split at the last occurrence of [sep], if there is one. *)
Fixpoint rpartition (sep : ascii) (s : string) : option (string * string) :=
  match s with
  | EmptyString => None
  | String c s' =>
      match rpartition sep s' with
      | Some (h, t) => Some (String c h, t)
      | None => if Ascii.eqb c sep then Some (EmptyString, s') else None
      end
  end.

(** [s.rsplit(sep, 1)]. *)
Definition rsplit1 (s : string) (sep : ascii) : list string :=
  match rpartition sep s with
  | Some (h, t) => [h; t]
  | None => [s]
  end.

Fixpoint lstrip (s : string) : string :=
  match s with
  | EmptyString => EmptyString
  | String c s' => if isspace c then lstrip s' else s
  end.

Fixpoint rstrip (s : string) : string :=
  match s with
  | EmptyString => EmptyString
  | String c s' =>
      match rstrip s' with
      | EmptyString => if isspace c then EmptyString else String c EmptyString
      | t => String c t
      end
  end.

(** [s.strip()]. *)
Definition strip (s : string) : string := rstrip (lstrip s).

(** Reading in text mode with [newline=None]: ["\r\n"] and a lone ["\r"]
    both come out as ["\n"]. *)
Fixpoint universal_newlines (s : string) : string :=
  match s with
  | EmptyString => EmptyString
  | String c s' =>
      if Ascii.eqb c CR then
        match s' with
        | String c' s'' =>
            if Ascii.eqb c' LF then String LF (universal_newlines s'')
            else String LF (universal_newlines s')
        | EmptyString => String LF EmptyString
        end
      else String c (universal_newlines s')
  end.

(** Cut a text into lines, each keeping its ["\n"]; only the last line can
    lack one. *)
Fixpoint lines_keepends (s : string) : list string :=
  match s with
  | EmptyString => []
  | String c s' =>
      if Ascii.eqb c LF then String c EmptyString :: lines_keepends s'
      else match lines_keepends s' with
           | [] => [String c EmptyString]
           | l :: ls => String c l :: ls
           end
  end.

Fixpoint take (n : nat) (s : string) : string :=
  match n, s with
  | S n', String c s' => String c (take n' s')
  | _, _ => EmptyString
  end.

Fixpoint drop (n : nat) (s : string) : string :=
  match n, s with
  | S n', String _ s' => drop n' s'
  | _, _ => s
  end.

End PyStr.

(* ================================================================== *)
(** * The [ipaddress] module *)
(* ================================================================== *)

Module Ipaddress.

(** [_version] of the two network classes. *)
Inductive IPVersion := IPv4 | IPv6.

Definition version_eqb (v1 v2 : IPVersion) : bool :=
  match v1, v2 with
  | IPv4, IPv4 | IPv6, IPv6 => true
  | _, _ => false
  end.

(** [_max_prefixlen]: [IPV4LENGTH = 32], [IPV6LENGTH = 128]. *)
Definition max_prefixlen (v : IPVersion) : Z :=
  match v with IPv4 => 32 | IPv6 => 128 end.

(** [_ALL_ONES = (2**LENGTH) - 1]. *)
Definition ALL_ONES (v : IPVersion) : Z := 2 ^ max_prefixlen v - 1.

(** An address object: its class and [_ip]. *)
Record Address := { addr_version : IPVersion; _ip : Z }.

(** A network object: its class, [int(network_address)] and [_prefixlen];
    [netmask] is a function of the prefix length. *)
Record Network := {
  version : IPVersion;
  network_address : Z;
  prefixlen : Z
}.

(** [_ip_int_from_prefix]: [cls._ALL_ONES ^ (cls._ALL_ONES >> prefixlen)]. *)
Definition _ip_int_from_prefix (v : IPVersion) (prefixlen : Z) : Z :=
  Z.lxor (ALL_ONES v) (Z.shiftr (ALL_ONES v) prefixlen).

Definition netmask (n : Network) : Z :=
  _ip_int_from_prefix (version n) (prefixlen n).

(** [hostmask]: [int(self.netmask) ^ self._ALL_ONES]. *)
Definition hostmask (n : Network) : Z :=
  Z.lxor (netmask n) (ALL_ONES (version n)).

(** [self.network_address], as an address object. *)
Definition network_address_obj (n : Network) : Address :=
  {| addr_version := version n; _ip := network_address n |}.

(** [broadcast_address]:
    [int(self.network_address) | int(self.hostmask)]. *)
Definition broadcast_address (n : Network) : Address :=
  {| addr_version := version n;
     _ip := Z.lor (network_address n) (hostmask n) |}.

(** [_BaseNetwork.__contains__] on an address object: false across
    versions, otherwise
    [other._ip & self.netmask._ip == self.network_address._ip]. *)
Definition contains (self : Network) (other : Address) : bool :=
  if negb (version_eqb (version self) (addr_version other)) then false
  else Z.land (_ip other) (netmask self) =? network_address self.

(** [_BaseNetwork.overlaps]. *)
Definition overlaps (self other : Network) : bool :=
  contains other (network_address_obj self) ||
  (contains other (broadcast_address self) ||
   (contains self (network_address_obj other) ||
    contains self (broadcast_address other))).


(** ** Parsing IPv4 text

    [None] stands for the [AddressValueError] or [NetmaskValueError] the
    library raises; [ip_network] catches both alike. *)

(** [_BaseV4._parse_octet]. *)
Definition _parse_octet (octet_str : string) : option Z :=
  if String.eqb octet_str "" then None
  else if negb (PyStr.isascii octet_str && PyStr.isdigit octet_str) then None
  else if (3 <? String.length octet_str)%nat then None
  else if negb (String.eqb octet_str "0") &&
          match octet_str with
          | String c _ => Ascii.eqb c "0"
          | EmptyString => false
          end
       then None
  else
    let octet_int := PyStr.int octet_str in
    if 255 <? octet_int then None else Some octet_int.

(** [int.from_bytes(map(cls._parse_octet, octets), 'big')]: the first
    octet that fails to parse aborts the conversion. *)
Fixpoint from_octets (acc : Z) (octets : list string) : option Z :=
  match octets with
  | [] => Some acc
  | o :: rest =>
      match _parse_octet o with
      | Some b => from_octets (256 * acc + b) rest
      | None => None
      end
  end.

(** [_BaseV4._ip_int_from_string]. *)
Definition _ip_int_from_string (ip_str : string) : option Z :=
  if String.eqb ip_str "" then None
  else
    let octets := PyStr.split "." ip_str in
    if negb (List.length octets =? 4)%nat then None
    else from_octets 0 octets.

(** [int.bit_length]. *)
Definition bit_length (z : Z) : Z :=
  if Z.abs z =? 0 then 0 else Z.log2 (Z.abs z) + 1.

(** [_count_righthand_zero_bits]. *)
Definition _count_righthand_zero_bits (number bits : Z) : Z :=
  if number =? 0 then bits
  else Z.min bits (bit_length (Z.land (Z.lnot number) (number - 1))).

(** [_prefix_from_ip_int]; [None] for its [ValueError]. *)
Definition _prefix_from_ip_int (v : IPVersion) (ip_int : Z) : option Z :=
  let trailing_zeroes := _count_righthand_zero_bits ip_int (max_prefixlen v) in
  let prefixlen := max_prefixlen v - trailing_zeroes in
  let leading_ones := Z.shiftr ip_int trailing_zeroes in
  let all_ones := Z.shiftl 1 prefixlen - 1 in
  if negb (leading_ones =? all_ones) then None else Some prefixlen.

(** [_prefix_from_prefix_string]. *)
Definition _prefix_from_prefix_string (v : IPVersion) (prefixlen_str : string)
  : option Z :=
  if negb (PyStr.isascii prefixlen_str && PyStr.isdigit prefixlen_str)
  then None
  else
    let prefixlen := PyStr.int prefixlen_str in
    if negb ((0 <=? prefixlen) && (prefixlen <=? max_prefixlen v)) then None
    else Some prefixlen.

(** [_prefix_from_ip_string], for the IPv4 class: a netmask, or else a
    host mask, in dotted-quad form. *)
Definition _prefix_from_ip_string (ip_str : string) : option Z :=
  match _ip_int_from_string ip_str with
  | None => None
  | Some ip_int =>
      match _prefix_from_ip_int IPv4 ip_int with
      | Some prefixlen => Some prefixlen
      | None => _prefix_from_ip_int IPv4 (Z.lxor ip_int (ALL_ONES IPv4))
      end
  end.

(** [_BaseV4._make_netmask]: the mask is the integer [_max_prefixlen] when
    the text has no slash ([None] here), else the text after the slash.
    Returns the prefix length; the netmask follows from it by
    [_ip_int_from_prefix]. *)
Definition _make_netmask (arg : option string) : option Z :=
  match arg with
  | None =>
      let prefixlen := max_prefixlen IPv4 in
      if negb ((0 <=? prefixlen) && (prefixlen <=? max_prefixlen IPv4))
      then None else Some prefixlen
  | Some arg =>
      match _prefix_from_prefix_string IPv4 arg with
      | Some prefixlen => Some prefixlen
      | None => _prefix_from_ip_string arg
      end
  end.

(** [_split_optional_netmask] followed by [_split_addr_prefix] on text. *)
Definition _split_addr_prefix (address : string)
  : option (string * option string) :=
  let addr := PyStr.split "/" address in
  if (2 <? List.length addr)%nat then None
  else match addr with
       | [a] => Some (a, None)
       | [a; mask] => Some (a, Some mask)
       | _ => None
       end.

(** [IPv4Network(address, strict=False)] on text. *)
Definition IPv4Network (address : string) : option Network :=
  match _split_addr_prefix address with
  | None => None
  | Some (addr, mask) =>
      match _ip_int_from_string addr with
      | None => None
      | Some packed =>
          match _make_netmask mask with
          | None => None
          | Some prefixlen =>
              let netmask := _ip_int_from_prefix IPv4 prefixlen in
              Some {| version := IPv4;
                      network_address :=
                        if negb (Z.land packed netmask =? packed)
                        then Z.land packed netmask else packed;
                      prefixlen := prefixlen |}
          end
      end
  end.

End Ipaddress.

Import Ipaddress.

(** [subnets_conflict(cidr1, cidr2)]: [return cidr1.overlaps(cidr2)]. *)
Definition subnets_conflict (cidr1 cidr2 : Network) : bool :=
  overlaps cidr1 cidr2.

(** First and last address of a network, as integers. *)
Definition first_address (n : Network) : Z := _ip (network_address_obj n).
Definition last_address (n : Network) : Z := _ip (broadcast_address n).

(** What every network object built by the library satisfies: the prefix
    length is within the class's range, the address fits the class's width
    and has no host bits. *)
Definition wf_network (n : Network) : Prop :=
  0 <= prefixlen n <= max_prefixlen (version n) /\
  0 <= network_address n < 2 ^ max_prefixlen (version n) /\
  Z.land (network_address n) (netmask n) = network_address n.

(** Size of the block of a network: [2 ^ (W - prefixlen)]. *)
Definition block (n : Network) : Z :=
  2 ^ (max_prefixlen (version n) - prefixlen n).

(** An address lies in the inclusive range of a network. *)
Definition in_range (n : Network) (a : Address) : Prop :=
  addr_version a = version n /\ first_address n <= _ip a <= last_address n.

(* ================================================================== *)
(** * The [re] module: the fragment used by [check_address_format] *)
(* ================================================================== *)

Module Re.

(** One item of a pattern: [\d{lo,hi}] or a literal character. *)
Inductive item :=
| Digits (lo hi : nat)
| Lit (c : ascii).

Definition pattern := list item.

(** Between [lo] and [hi] decimal digits, then the continuation [k] on
    what is left; every count is tried. *)
Fixpoint match_digits (k : string -> bool) (lo hi : nat) (s : string) : bool :=
  match hi with
  | O => match lo with O => k s | S _ => false end
  | S hi' =>
      match lo with
      | O =>
          match s with
          | String c s' =>
              (PyStr.isdecimal c && match_digits k O hi' s') || k s
          | EmptyString => k s
          end
      | S lo' =>
          match s with
          | String c s' => PyStr.isdecimal c && match_digits k lo' hi' s'
          | EmptyString => false
          end
      end
  end.

(** The pattern matches a prefix of [s] and [k] accepts what is left. *)
Fixpoint match_then (p : pattern) (k : string -> bool) (s : string) : bool :=
  match p with
  | [] => k s
  | Lit c :: p' =>
      match s with
      | String a s' => Ascii.eqb a c && match_then p' k s'
      | EmptyString => false
      end
  | Digits lo hi :: p' => match_digits (match_then p' k) lo hi s
  end.

(** The pattern matches a prefix of [s]. *)
Definition match_here (p : pattern) (s : string) : bool :=
  match_then p (fun _ => true) s.

(** [re.fullmatch(p, s)] as a truth value: the pattern matches all of
    [s]. *)
Definition fullmatch (p : pattern) (s : string) : bool :=
  match_then p (fun rest => String.eqb rest "") s.

(** [re.search(p, s)] as a truth value: the pattern matches at some
    position of [s]. *)
Fixpoint search (p : pattern) (s : string) : bool :=
  match_here p s ||
  match s with
  | String _ s' => search p s'
  | EmptyString => false
  end.

End Re.

(** [cidr_pattern = r"\d{1,3}\.\d{1,3}\.\d{1,3}\.\d{1,3}/\d{1,2}"]. *)
Definition cidr_pattern : Re.pattern :=
  [Re.Digits 1 3; Re.Lit "."; Re.Digits 1 3; Re.Lit ".";
   Re.Digits 1 3; Re.Lit "."; Re.Digits 1 3; Re.Lit "/"; Re.Digits 1 2].

(** [check_address_format(cidr_string)]. *)
Definition check_address_format (cidr_string : string) : bool :=
  if Re.search cidr_pattern cidr_string then true else false.


(* ================================================================== *)
(** * The script *)
(* ================================================================== *)

(** ** Exceptions, results and the world *)

Inductive exn := FileNotFoundError | IndexError | ValueError | EOFError.

Inductive result (A : Type) : Type :=
| Ok (a : A)
| Raise (e : exn).
Arguments Ok {A} a.
Arguments Raise {A} e.

Definition rbind {A B} (r : result A) (k : A -> result B) : result B :=
  match r with
  | Ok a => k a
  | Raise e => Raise e
  end.

(** What the script can see and change: the text of the file at
    [INVENTORY_PATH] ([None] when it does not exist), the lines still to come
    on standard input, without their line ends, and the pieces of text
    written to standard output so far.  The file is held as the text a read
    decodes; a write stores ["\n"] as it is, as on the POSIX systems the
    path is written for. *)
Record World := {
  inventory : option string;
  stdin : list string;
  stdout : list string
}.

Definition M (A : Type) : Type := World -> result A * World.

Definition ret {A} (a : A) : M A := fun w => (Ok a, w).

Definition bind {A B} (m : M A) (k : A -> M B) : M B :=
  fun w => match m w with
           | (Ok a, w') => k a w'
           | (Raise e, w') => (Raise e, w')
           end.

Definition lift {A} (r : result A) : M A := fun w => (r, w).

(** A [try] block, with the exception it ends in made a value. *)
Definition attempt {A} (m : M A) : M (result A) :=
  fun w => let (r, w') := m w in (Ok r, w').

Declare Scope py_scope.
Delimit Scope py_scope with py.
Notation "x <- m ;; k" := (bind m (fun x => k))
  (at level 61, m at next level, right associativity) : py_scope.
Notation "m ;; k" := (bind m (fun _ => k))
  (at level 61, right associativity) : py_scope.
Notation "x <~ r ;; k" := (rbind r (fun x => k))
  (at level 61, r at next level, right associativity) : py_scope.
Local Open Scope py_scope.

(** [l[i]]. *)
Definition index {A} (l : list A) (i : nat) : result A :=
  match nth_error l i with
  | Some x => Ok x
  | None => Raise IndexError
  end.

(** What [print(s)] writes: the text and a line feed. *)
Definition printed (s : string) : string := s ++ String PyStr.LF "".

(** [print(s)]. *)
Definition print (s : string) : M unit :=
  fun w => (Ok tt, {| inventory := inventory w;
                      stdin := stdin w;
                      stdout := (stdout w ++ [printed s])%list |}).

(** [f.readlines()] on a file opened for reading in text mode. *)
Definition readlines (text : string) : list string :=
  PyStr.lines_keepends (PyStr.universal_newlines text).

(** [with open(INVENTORY_PATH, "r") as f: inventory = f.readlines()]. *)
Definition open_readlines : M (list string) :=
  fun w => match inventory w with
           | None => (Raise FileNotFoundError, w)
           | Some text => (Ok (readlines text), w)
           end.

(** [with open(INVENTORY_PATH, "a+") as f: f.write(s)]: the file is created
    when it is missing and the text goes to its end. *)
Definition open_append (s : string) : M unit :=
  fun w => (Ok tt, {| inventory := Some (match inventory w with
                                         | None => s
                                         | Some text => text ++ s
                                         end);
                      stdin := stdin w;
                      stdout := stdout w |}).

(** A file opened with ["r+"]: its characters and the position of the next
    read or write. *)
Record File := { data : string; pos : nat }.

Definition f_readlines (f : File) : list string * File :=
  (readlines (PyStr.drop (pos f) (data f)),
   {| data := data f; pos := String.length (data f) |}).

Definition f_seek (f : File) (offset : nat) : File :=
  {| data := data f; pos := offset |}.

(** Writing overwrites from the position on and extends the file past its
    end. *)
Definition f_write (f : File) (s : string) : File :=
  {| data := PyStr.take (pos f) (data f) ++ s ++
             PyStr.drop (pos f + String.length s) (data f);
     pos := pos f + String.length s |}.

Definition f_truncate (f : File) : File :=
  {| data := PyStr.take (pos f) (data f); pos := pos f |}.

(** A world from its three parts. *)
Definition world (inv : option string) (ins out : list string) : World :=
  {| inventory := inv; stdin := ins; stdout := out |}.

(** [input(prompt)]: writes the prompt, then reads one line; [EOFError] when
    standard input has ended. *)
Definition input (prompt : string) : M string :=
  fun w => match stdin w with
           | [] =>
               (Raise EOFError,
                world (inventory w) [] (stdout w ++ [prompt]))
           | line :: rest =>
               (Ok line, world (inventory w) rest (stdout w ++ [prompt]))
           end.

(** [while True: line = input(prompt); ...], for a loop whose every round
    starts by reading a line and reads nothing else: [body line] returns
    [Some a] where the code breaks out with [a] and [None] where it goes
    round again.  The loop runs down the lines of standard input and ends
    in [EOFError] when they end first. *)
Fixpoint input_loop {A} (prompt : string) (body : string -> M (option A))
    (pending : list string) (inv : option string) (out : list string)
  : result A * World :=
  match pending with
  | [] => (Raise EOFError, world inv [] (out ++ [prompt]))
  | line :: rest =>
      match body line (world inv rest (out ++ [prompt])) with
      | (Raise e, w) => (Raise e, w)
      | (Ok (Some a), w) => (Ok a, w)
      | (Ok None, w) => input_loop prompt body rest (inventory w) (stdout w)
      end
  end.

Definition while_input {A} (prompt : string) (body : string -> M (option A))
  : M A :=
  fun w => input_loop prompt body (stdin w) (inventory w) (stdout w).

(** ** The data *)

(** [INVENTORY_PATH] names the one file of [World]. *)
Definition INVENTORY_PATH : string := "/subnet_inventory/inventory".

Definition reserved_subnets : list string := ["192.168.14.128/25"].

(** [class Subnet]. *)
Record Subnet := { name : string; cidr_string : string }.

Definition SP : ascii := " "%char.

(** The namespace that [setup_parser().parse_args()] returns: one flag per
    option of the mutually exclusive group. *)
Module Args.
Record Namespace := {
  add : bool;
  delete : bool;
  conflict : bool;
  query : bool;
  list : bool
}.
End Args.

(** The string holds no occurrence of [c]. *)
Definition lacks (c : ascii) (s : string) : bool :=
  PyStr.forall_chars (fun a => negb (Ascii.eqb a c)) s.

(** An IPv6 constructor that accepts nothing: enough to run the script on
    text without a colon, which the library's one rejects too. *)
Definition no_IPv6 : string -> option Network := fun _ => None.

Section Script.

(** [IPv6Network(address, strict=False)] of the library, on text; [None]
    for the errors that [ip_network] catches.  Its grammar is not part of
    this development. *)
Variable IPv6Network : string -> option Network.

(** The one fact about that grammar that is used, and only where a proof
    says so: text without a colon is no IPv6 network
    ([_ip_int_from_string] wants at least three colon-separated parts). *)
Hypothesis IPv6Network_colon :
  forall s, lacks ":" s = true -> IPv6Network s = None.

(** [ipaddress.ip_network(address, strict=False)] on text. *)
Definition ip_network (address : string) : result Network :=
  match IPv4Network address with
  | Some n => Ok n
  | None =>
      match IPv6Network address with
      | Some n => Ok n
      | None => Raise ValueError
      end
  end.

(** ** [check_subnet_by_address] *)

Fixpoint check_subnet_by_address_loop (inventory : list string)
    (cidr_string : string) : result bool :=
  match inventory with
  | [] => Ok false
  | inventory_address :: rest =>
      field <~ index (PyStr.rsplit1 inventory_address SP) 1 ;;
      if String.eqb (PyStr.strip field) cidr_string then Ok true
      else check_subnet_by_address_loop rest cidr_string
  end.

Definition check_subnet_by_address (cidr_string : string) : M bool :=
  r <- attempt open_readlines ;;
  match r with
  | Raise FileNotFoundError => ret false
  | Raise e => lift (Raise e)
  | Ok inventory => lift (check_subnet_by_address_loop inventory cidr_string)
  end.

(** ** [check_subnet_by_name] *)

Fixpoint check_subnet_by_name_loop (inventory : list string)
    (name_to_check : string) : result bool :=
  match inventory with
  | [] => Ok false
  | inventory_address :: rest =>
      field <~ index (PyStr.rsplit1 inventory_address SP) 0 ;;
      if String.eqb field name_to_check then Ok true
      else check_subnet_by_name_loop rest name_to_check
  end.

Definition check_subnet_by_name (name_to_check : string) : M bool :=
  r <- attempt open_readlines ;;
  match r with
  | Raise FileNotFoundError => ret false
  | Raise e => lift (Raise e)
  | Ok inventory => lift (check_subnet_by_name_loop inventory name_to_check)
  end.

(** ** [check_inventory_for_conflicts] *)

Fixpoint check_inventory_for_conflicts_loop (inventory : list string)
    (cidr : Network) (conflict_list : list Subnet) : result (list Subnet) :=
  match inventory with
  | [] => Ok conflict_list
  | inventory_address :: rest =>
      field <~ index (PyStr.rsplit1 inventory_address SP) 1 ;;
      let cidr_string_to_compare := PyStr.strip field in
      other <~ ip_network cidr_string_to_compare ;;
      if subnets_conflict cidr other then
        n <~ index (PyStr.rsplit1 inventory_address SP) 0 ;;
        check_inventory_for_conflicts_loop rest cidr
          (conflict_list ++
           [{| name := n; cidr_string := cidr_string_to_compare |}])
      else check_inventory_for_conflicts_loop rest cidr conflict_list
  end.

Definition check_inventory_for_conflicts (cidr : Network)
  : M (list Subnet) :=
  inventory <- open_readlines ;;
  lift (check_inventory_for_conflicts_loop inventory cidr []).

(** ** [names_conflict] *)

Fixpoint names_conflict_loop (inventory : list string)
    (chosen_name : string) : result bool :=
  match inventory with
  | [] => Ok false
  | inventory_address :: rest =>
      field <~ index (PyStr.rsplit1 inventory_address SP) 0 ;;
      if String.eqb chosen_name field then Ok true
      else names_conflict_loop rest chosen_name
  end.

Definition names_conflict (chosen_name : string) : M bool :=
  inventory <- open_readlines ;;
  lift (names_conflict_loop inventory chosen_name).

(** ** [display_inventory] *)

Fixpoint display_inventory_loop (inventory : list string) : M unit :=
  match inventory with
  | [] => ret tt
  | line :: rest =>
      let split_line := PyStr.rsplit1 line SP in
      n <- lift (index split_line 0) ;;
      address <- lift (index split_line 1) ;;
      print (n ++ " - " ++ PyStr.strip address) ;;
      display_inventory_loop rest
  end.

Definition display_inventory : M unit :=
  inventory <- open_readlines ;;
  print "Subnet Name - Subnet Address" ;;
  display_inventory_loop inventory.

(** ** [delete_subnet] *)

Fixpoint delete_subnet_loop (inventory : list string)
    (delete_name : string) (f : File) : result unit * File :=
  match inventory with
  | [] => (Ok tt, f)
  | inventory_address :: rest =>
      match index (PyStr.rsplit1 inventory_address SP) 0 with
      | Raise e => (Raise e, f)
      | Ok inventory_name =>
          if negb (String.eqb inventory_name delete_name)
          then delete_subnet_loop rest delete_name
                 (f_write f inventory_address)
          else delete_subnet_loop rest delete_name f
      end
  end.

(** The body of [with open(INVENTORY_PATH, "r+") as f]; leaving the block
    closes the file with what it holds then. *)
Definition delete_subnet_rewrite (delete_name : string) : M unit :=
  fun w =>
    match inventory w with
    | None => (Raise FileNotFoundError, w)
    | Some text =>
        let f := {| data := text; pos := 0 |} in
        let (inventory, f) := f_readlines f in
        let f := f_seek f 0 in
        let (r, f) := delete_subnet_loop inventory delete_name f in
        let f := match r with Ok _ => f_truncate f | Raise _ => f end in
        (r, {| inventory := Some (data f);
               stdin := stdin w;
               stdout := stdout w |})
    end.

Definition delete_subnet (delete_name : string) : M unit :=
  delete_subnet_rewrite delete_name ;;
  print (delete_name ++ " subnet removed from inventory").

(** ** [add_subnet] *)

(** The loop over [reserved_subnets]; [true] when it printed the refusal
    and returned. *)
Fixpoint add_subnet_reserved_loop (reserved_list : list string)
    (subnet_object : Subnet) : result bool :=
  match reserved_list with
  | [] => Ok false
  | reserved :: rest =>
      cidr1 <~ ip_network (cidr_string subnet_object) ;;
      cidr2 <~ ip_network reserved ;;
      if subnets_conflict cidr1 cidr2 then Ok true
      else add_subnet_reserved_loop rest subnet_object
  end.

Definition verify_prompt : string :=
  "This subnet conflicts with one or more subnets already in the inventory. Are you sure you wish to add it? (Y/n): ".

(** The [while True] loop around [input]: each round writes the prompt and
    reads one line; [true] for ["Y"], [false] for ["n"], and [EOFError]
    when standard input ends first.  Returns the lines left and the
    output. *)
Fixpoint add_subnet_verify_loop (pending : list string) (out : list string)
  : result bool * (list string * list string) :=
  match pending with
  | [] => (Raise EOFError, ([], (out ++ [verify_prompt])%list))
  | verify :: rest =>
      let out := (out ++ [verify_prompt])%list in
      if String.eqb verify "Y" then (Ok true, (rest, out))
      else if String.eqb verify "n" then
        (Ok false,
         (rest,
          (out ++ [printed "Did not add subnet to inventory"])%list))
      else
        add_subnet_verify_loop rest
          (out ++ [printed "Please select Y or n"])%list
  end.

Definition add_subnet_verify : M bool :=
  fun w =>
    let '(r, (ins, out)) := add_subnet_verify_loop (stdin w) (stdout w) in
    (r, {| inventory := inventory w; stdin := ins; stdout := out |}).

(** [to_add = "{name} {address}\n".format(...)]. *)
Definition to_add (subnet_object : Subnet) : string :=
  name subnet_object ++ " " ++ cidr_string subnet_object ++ String PyStr.LF "".

Definition add_subnet (subnet_object : Subnet) : M unit :=
  refused <- lift (add_subnet_reserved_loop reserved_subnets subnet_object) ;;
  if refused : bool then
    print "Subnet is reserved or conflicts with a reserved subnet and cannot be added"
  else
    cidr <- lift (ip_network (cidr_string subnet_object)) ;;
    conflicting_subnets <- check_inventory_for_conflicts cidr ;;
    proceed <- match conflicting_subnets with
               | [] => ret true
               | _ :: _ => add_subnet_verify
               end ;;
    if proceed : bool then
      open_append (to_add subnet_object) ;;
      print ("Subnet added to inventory: " ++ to_add subnet_object)
    else ret tt.


(** ** The command line

    The body of the script from [args = setup_parser().parse_args()] on:
    the chain of [if args.add: ... elif args.query: ...]. *)

(** The body of the first loop of [args.add]: a name that is in use is
    asked again. *)
Definition main_add_name (user_subnet_name : string) : M (option string) :=
  in_use <- names_conflict user_subnet_name ;;
  if negb in_use then ret (Some user_subnet_name)
  else
    print "ERROR: Name already in use.  Please use a different name." ;;
    ret None.

(** The body of the second loop of [args.add]: an address must pass the
    format check and not be in the inventory as a text. *)
Definition main_add_cidr (cidr_addr_string : string) : M (option string) :=
  if check_address_format cidr_addr_string then
    found <- check_subnet_by_address cidr_addr_string ;;
    if negb found then ret (Some cidr_addr_string)
    else print "Subnet already in inventory." ;; ret None
  else
    print "ERROR: Address is not in CIDR format.  Addresses must be in CIDR format, e.g. 10.0.0.0/8" ;;
    ret None.

(** The body of the confirmation loop of [args.delete]. *)
Definition main_delete_confirm (subnet_name confirm : string)
  : M (option unit) :=
  if String.eqb confirm "Y" then
    delete_subnet subnet_name ;; ret (Some tt)
  else if String.eqb confirm "n" then
    print "Subnet not deleted" ;; ret (Some tt)
  else print "Please select Y or n" ;; ret None.

(** [for conflict in conflicts: print(...)]. *)
Fixpoint main_print_conflicts (conflicts : list Subnet) : M unit :=
  match conflicts with
  | [] => ret tt
  | c :: rest =>
      print ("Conflicting subnet: " ++ name c ++ " " ++ cidr_string c) ;;
      main_print_conflicts rest
  end.

Definition main (args : Args.Namespace) : M unit :=
  if Args.add args then
    print "Adding a new subnet" ;;
    user_subnet_name <-
      while_input "Please enter a name for your subnet: " main_add_name ;;
    cidr_addr_string <-
      while_input "Please enter your subnet in CIDR notation: " main_add_cidr ;;
    add_subnet {| name := user_subnet_name; cidr_string := cidr_addr_string |}
  else if Args.query args then
    print "Checking for subnet in inventory" ;;
    cidr_addr_string <-
      input "Please enter the subnet you would like to check in CIDR notation: " ;;
    found <- check_subnet_by_address cidr_addr_string ;;
    if found : bool then print "Subnet exists in inventory"
    else print "Subnet does not exist in inventory"
  else if Args.conflict args then
    print "Checking for subnet conflicts" ;;
    cidr_addr_string <-
      input "Please enter the subnet you would like to check in CIDR notation: " ;;
    if check_address_format cidr_addr_string then
      cidr <- lift (ip_network cidr_addr_string) ;;
      conflicts <- check_inventory_for_conflicts cidr ;;
      match conflicts with
      | [] => print "No conflicting subnets in inventory"
      | _ :: _ =>
          print "The following subnet conflicts were found: " ;;
          main_print_conflicts conflicts
      end
    else
      print "ERROR: Address is not in CIDR format.  Addresses must be in CIDR format, e.g. 10.0.0.0/8"
  else if Args.list args then
    print "Displaying all subnets" ;;
    display_inventory
  else if Args.delete args then
    print "Deleting subnet" ;;
    subnet_name <-
      input "Please enter the name of the subnet you would like to delete: " ;;
    found <- check_subnet_by_name subnet_name ;;
    if found : bool then
      while_input
        ("Are you sure you want to delete the " ++ subnet_name ++
         " subnet? This action cannot be undone. (Y/n): ")
        (main_delete_confirm subnet_name)
    else print "No subnet with that name found in inventory"
  else ret tt.

(* ================================================================== *)
(** * Stores of records *)
(* ================================================================== *)

(** The text a pattern stands for. *)
Definition digit_group (lo hi : nat) (s : string) : bool :=
  PyStr.forall_chars PyStr.isdecimal s &&
  (lo <=? String.length s)%nat && (String.length s <=? hi)%nat.

Fixpoint denote (p : Re.pattern) (m : string) : Prop :=
  match p with
  | [] => m = ""
  | Re.Lit c :: p' => exists m', m = String c m' /\ denote p' m'
  | Re.Digits lo hi :: p' =>
      exists d m', m = d ++ m' /\ digit_group lo hi d = true /\ denote p' m'
  end.

(** The dotted quad of four digit groups. *)
Definition quad (o1 o2 o3 o4 : string) : string :=
  o1 ++ "." ++ o2 ++ "." ++ o3 ++ "." ++ o4.

(** Four dot-separated groups, a slash and a prefix length. *)
Definition cidr_text (o1 o2 o3 o4 p : string) : string :=
  o1 ++ "." ++ o2 ++ "." ++ o3 ++ "." ++ o4 ++ "/" ++ p.

(** The shape of section 4.1: groups of one to three digits and a prefix
    length of one or two digits, and nothing else. *)
Definition cidr_shape (s : string) : Prop :=
  exists o1 o2 o3 o4 p,
    s = cidr_text o1 o2 o3 o4 p /\
    digit_group 1 3 o1 = true /\ digit_group 1 3 o2 = true /\
    digit_group 1 3 o3 = true /\ digit_group 1 3 o4 = true /\
    digit_group 1 2 p = true.

(** Break [forall_chars p (String c s) = true] into its two parts. *)
Ltac chars_cons H Hc Hs :=
  cbn [PyStr.forall_chars] in H; apply andb_true_iff in H;
  destruct H as [Hc Hs].

(** The characters of dotted and slashed decimal text. *)
Definition dotted (c : ascii) : bool := PyStr.isdecimal c || Ascii.eqb c ".".
Definition slashed (c : ascii) : bool := dotted c || Ascii.eqb c "/".

(** A name that stays on one line of the file. *)
Definition single_line (s : string) : bool :=
  PyStr.forall_chars
    (fun c => negb (Ascii.eqb c PyStr.LF) && negb (Ascii.eqb c PyStr.CR)) s.

(** An address text without white space. *)
Definition token (s : string) : bool :=
  PyStr.forall_chars (fun c => negb (PyStr.isspace c)) s.

(** A record that the line format of the file can hold. *)
Definition wf_record (r : Subnet) : bool :=
  single_line (name r) && token (cidr_string r).

Definition wf_store (records : list Subnet) : bool := forallb wf_record records.

(** The lines one after the other, as the file holds them. *)
Definition join (lines : list string) : string :=
  fold_right String.append "" lines.

(** The file that holds the given records, one [to_add] line each. *)
Definition inventory_text (records : list Subnet) : string :=
  join (map to_add records).

(** The world holds the given records: its file is their text, and no file
    stands for no record. *)
Definition stored (w : World) (records : list Subnet) : Prop :=
  match inventory w with
  | Some text => text = inventory_text records
  | None => records = []
  end.

(** A stored record whose network overlaps the candidate. *)
Definition overlapping (cidr : Network) (r : Subnet) : bool :=
  match ip_network (cidr_string r) with
  | Ok other => subnets_conflict cidr other
  | Raise _ => false
  end.

(** The address text of a record is one the library accepts. *)
Definition parses (r : Subnet) : Prop :=
  exists n, ip_network (cidr_string r) = Ok n.

(** An answer that ends a [(Y/n)] loop. *)
Definition is_answer (a : string) : bool :=
  String.eqb a "Y" || String.eqb a "n".

(** A line typed that holds no line break and no colon: an address in it
    is read by the library as IPv4. *)
Definition plain_line (line : string) : bool :=
  single_line line && lacks ":" line.

(** No reserved range overlaps the network. *)
Definition unreserved (cidr : Network) : Prop :=
  Forall (fun reserved =>
            exists other, ip_network reserved = Ok other /\
                          subnets_conflict cidr other = false)
         reserved_subnets.

(** The line gives the name [n]: [n] is all that stands before its last
    space, or the whole line when it has no space. *)
Definition line_names (n line : string) : Prop :=
  (exists t, line = n ++ String SP t /\ lacks SP t = true) \/
  (line = n /\ lacks SP n = true).

(** What [display_inventory] prints for a record. *)
Definition displayed (r : Subnet) : string :=
  printed (name r ++ " - " ++ cidr_string r).

(** A line as [readlines] returns it: ended by its one line feed, or, for
    the last line of a file that does not end in one, not empty and
    without a line feed; never with a carriage return. *)
Definition full_line (l : string) : Prop :=
  exists body, l = body ++ String PyStr.LF "" /\
               lacks PyStr.LF body = true /\ lacks PyStr.CR body = true.

Definition last_line (l : string) : Prop :=
  l <> "" /\ lacks PyStr.LF l = true /\ lacks PyStr.CR l = true.

Fixpoint proper_lines (ls : list string) : Prop :=
  match ls with
  | [] => True
  | l :: rest => (full_line l /\ proper_lines rest) \/ (last_line l /\ rest = [])
  end.

(** The computation leaves the inventory file as it finds it. *)
Definition unchanged {A} (m : M A) : Prop :=
  forall w, inventory (snd (m w)) = inventory w.

(** The computation keeps a property of the inventory file. *)
Definition preserves {A} (P : option string -> Prop) (m : M A) : Prop :=
  forall w, P (inventory w) -> P (inventory (snd (m w))).

(** What [args.conflict] prints for a record. *)
Definition reported (r : Subnet) : string :=
  printed ("Conflicting subnet: " ++ name r ++ " " ++ cidr_string r).

(** A line that [delete_subnet] writes back. *)
Definition kept (delete_name line : string) : bool :=
  match index (PyStr.rsplit1 line SP) 0 with
  | Ok inventory_name => negb (String.eqb inventory_name delete_name)
  | Raise _ => false
  end.

(* ================================================================== *)
(** * Facts about masks *)
(* ================================================================== *)

Section MaskFacts.

Lemma max_prefixlen_pos v : 0 < max_prefixlen v.
Proof. destruct v; simpl; lia. Qed.

Lemma ALL_ONES_ones v : ALL_ONES v = Z.ones (max_prefixlen v).
Proof. unfold ALL_ONES. rewrite Z.ones_equiv. lia. Qed.

Lemma testbit_ones_ltb n i :
  0 <= n -> 0 <= i -> Z.testbit (Z.ones n) i = (i <? n).
Proof.
  intros Hn Hi. destruct (Z.ltb_spec i n).
  - apply Z.ones_spec_low; lia.
  - apply Z.ones_spec_high; lia.
Qed.

(** The netmask of a prefix [p] keeps the bits from [W - p] up to [W]. *)
Lemma netmask_testbit v p i :
  0 <= p <= max_prefixlen v -> 0 <= i ->
  Z.testbit (_ip_int_from_prefix v p) i =
  ((max_prefixlen v - p <=? i) && (i <? max_prefixlen v))%bool.
Proof.
  intros Hp Hi. unfold _ip_int_from_prefix.
  pose proof (max_prefixlen_pos v) as HW.
  rewrite Z.lxor_spec, Z.shiftr_spec by lia.
  rewrite ALL_ONES_ones, !testbit_ones_ltb by lia.
  destruct (Z.ltb_spec i (max_prefixlen v)),
           (Z.ltb_spec (i + p) (max_prefixlen v)),
           (Z.leb_spec (max_prefixlen v - p) i); simpl; try reflexivity; lia.
Qed.

(** Masking an in-width integer rounds it down to a multiple of the block
    size. *)
Lemma land_netmask v p x :
  0 <= p <= max_prefixlen v -> 0 <= x < 2 ^ max_prefixlen v ->
  Z.land x (_ip_int_from_prefix v p) =
  x / 2 ^ (max_prefixlen v - p) * 2 ^ (max_prefixlen v - p).
Proof.
  intros Hp Hx.
  rewrite <- Z.shiftr_div_pow2, <- Z.shiftl_mul_pow2 by lia.
  apply Z.bits_inj'. intros i Hi.
  rewrite Z.land_spec, netmask_testbit by lia.
  destruct (Z.leb_spec (max_prefixlen v - p) i) as [Hle | Hlt]; simpl.
  - rewrite Z.shiftl_spec, Z.shiftr_spec by lia.
    replace (i - (max_prefixlen v - p) + (max_prefixlen v - p)) with i by lia.
    destruct (Z.ltb_spec i (max_prefixlen v)) as [Hlo | Hhi].
    + apply andb_true_r.
    + rewrite andb_false_r. symmetry.
      destruct (Z.eq_dec x 0) as [-> | Hnz]; [apply Z.bits_0 |].
      apply Z.bits_above_log2; [lia |].
      apply Z.lt_le_trans with (m := max_prefixlen v); [| lia].
      apply Z.log2_lt_pow2; lia.
  - rewrite andb_false_r. symmetry. apply Z.shiftl_spec_low. lia.
Qed.

(** The host mask is the low [W - p] ones. *)
Lemma hostmask_ones n :
  0 <= prefixlen n <= max_prefixlen (version n) ->
  hostmask n = Z.ones (max_prefixlen (version n) - prefixlen n).
Proof.
  intros Hp. unfold hostmask, netmask.
  pose proof (max_prefixlen_pos (version n)) as HW.
  apply Z.bits_inj'. intros i Hi.
  rewrite Z.lxor_spec, netmask_testbit by lia.
  rewrite ALL_ONES_ones, !testbit_ones_ltb by lia.
  destruct (Z.ltb_spec i (max_prefixlen (version n))),
           (Z.ltb_spec i (max_prefixlen (version n) - prefixlen n)),
           (Z.leb_spec (max_prefixlen (version n) - prefixlen n) i);
    simpl; try reflexivity; lia.
Qed.

End MaskFacts.

(* ================================================================== *)
(** * Networks as inclusive ranges *)
(* ================================================================== *)

Section Ranges.

Lemma block_pos n :
  0 <= prefixlen n <= max_prefixlen (version n) -> 0 < block n.
Proof. intros H. apply Z.pow_pos_nonneg; lia. Qed.

Lemma wf_first_aligned n :
  wf_network n -> first_address n = first_address n / block n * block n.
Proof.
  intros (Hp & Hx & Hm). unfold first_address; simpl.
  unfold netmask in Hm. rewrite land_netmask in Hm by assumption.
  symmetry. exact Hm.
Qed.

Lemma wf_last n : wf_network n -> last_address n = first_address n + block n - 1.
Proof.
  intros Hwf. pose proof (wf_first_aligned n Hwf) as Hal.
  destruct Hwf as (Hp & Hx & Hm).
  unfold last_address, first_address in *; simpl in *.
  rewrite hostmask_ones by assumption.
  rewrite <- Z.lxor_lor, <- Z.add_nocarry_lxor.
  - rewrite Z.ones_equiv. fold (block n). lia.
  - rewrite Z.land_ones by lia. fold (block n).
    rewrite Hal. apply Z.mod_mul. pose proof (block_pos n Hp). lia.
  - rewrite Z.land_ones by lia. fold (block n).
    rewrite Hal. apply Z.mod_mul. pose proof (block_pos n Hp). lia.
Qed.

Lemma wf_first_bounds n :
  wf_network n -> 0 <= first_address n < 2 ^ max_prefixlen (version n).
Proof. intros (_ & Hx & _). exact Hx. Qed.

(** The last address still fits the width of the class. *)
Lemma wf_last_bounds n :
  wf_network n -> 0 <= last_address n < 2 ^ max_prefixlen (version n).
Proof.
  intros Hwf. rewrite (wf_last n Hwf).
  pose proof (wf_first_aligned n Hwf) as Hal.
  destruct Hwf as (Hp & Hx & _).
  change (network_address n) with (first_address n) in Hx.
  pose proof (block_pos n Hp) as HB.
  assert (HW : 2 ^ max_prefixlen (version n) = 2 ^ prefixlen n * block n).
  { unfold block. rewrite <- Z.pow_add_r by lia. f_equal. lia. }
  assert (0 < 2 ^ prefixlen n) by (apply Z.pow_pos_nonneg; lia).
  set (k := first_address n / block n) in *.
  assert (0 <= k) by (apply Z.div_pos; lia).
  split; [lia |]. rewrite HW, Hal in *.
  assert (k < 2 ^ prefixlen n) by nia. nia.
Qed.

(** Membership test of the library against the inclusive range. *)
Lemma contains_range n a :
  wf_network n -> addr_version a = version n ->
  0 <= _ip a < 2 ^ max_prefixlen (version n) ->
  contains n a = true <-> first_address n <= _ip a <= last_address n.
Proof.
  intros Hwf Hv Ha. rewrite (wf_last n Hwf).
  pose proof (wf_first_aligned n Hwf) as Hal.
  destruct Hwf as (Hp & Hx & Hm).
  pose proof (block_pos n Hp) as HB.
  unfold contains. rewrite Hv.
  replace (version_eqb (version n) (version n)) with true
    by (destruct (version n); reflexivity).
  simpl. unfold netmask. rewrite land_netmask by assumption.
  fold (block n). change (network_address n) with (first_address n).
  rewrite Z.eqb_eq.
  pose proof (Z.div_mod (_ip a) (block n) ltac:(lia)) as Hdm.
  pose proof (Z.mod_pos_bound (_ip a) (block n) HB) as Hmod.
  rewrite (Z.mul_comm (block n)) in Hdm.
  split.
  - intros Heq. lia.
  - intros [Hlo Hhi]. rewrite Hal. f_equal.
    set (k := first_address n / block n) in *.
    set (q := _ip a / block n) in *. nia.
Qed.

Lemma contains_version n a :
  contains n a = true -> addr_version a = version n.
Proof.
  unfold contains. destruct (version n), (addr_version a); simpl;
    intros H; congruence.
Qed.

Lemma overlaps_version a b : overlaps a b = true -> version a = version b.
Proof.
  unfold overlaps. rewrite !orb_true_iff.
  intros [H | [H | [H | H]]]; apply contains_version in H; simpl in H;
    congruence.
Qed.

(** Two aligned blocks: the start of the smaller one cannot lie strictly
    above the start of the larger one while the larger one starts inside
    the smaller one. *)
Lemma aligned_blocks_nested ka kb c B :
  0 < B -> 0 < c -> kb * (B * c) <= ka * B + B - 1 -> kb * (B * c) <= ka * B.
Proof.
  intros HB Hc H.
  replace (kb * (B * c)) with (kb * c * B) in * by ring.
  destruct (Z.le_gt_cases (kb * c) ka) as [Hle | Hgt].
  - apply Z.mul_le_mono_nonneg_r; lia.
  - assert ((ka + 1) * B <= kb * c * B)
      by (apply Z.mul_le_mono_nonneg_r; lia).
    lia.
Qed.

Lemma block_divides a b :
  version a = version b ->
  0 <= prefixlen a <= max_prefixlen (version a) ->
  0 <= prefixlen b <= max_prefixlen (version b) ->
  prefixlen b <= prefixlen a ->
  block b = block a * 2 ^ (prefixlen a - prefixlen b).
Proof.
  intros Hv Ha Hb Hle. unfold block. rewrite Hv in *.
  rewrite <- Z.pow_add_r by lia. f_equal. lia.
Qed.

(** The four membership tests of [overlaps] against the range test. *)
Lemma overlaps_same_version a b :
  wf_network a -> wf_network b -> version a = version b ->
  overlaps a b = true <-> first_address a <= last_address b /\ first_address b <= last_address a.
Proof.
  intros Ha Hb Hv.
  pose proof (wf_first_bounds a Ha) as Hfa.
  pose proof (wf_first_bounds b Hb) as Hfb.
  pose proof (wf_last_bounds a Ha) as Hla.
  pose proof (wf_last_bounds b Hb) as Hlb.
  assert (Caf : contains b (network_address_obj a) = true <->
                first_address b <= first_address a <= last_address b).
  { apply contains_range; simpl; [assumption | congruence |].
    rewrite <- Hv. exact Hfa. }
  assert (Cal : contains b (broadcast_address a) = true <->
                first_address b <= last_address a <= last_address b).
  { apply (contains_range b (broadcast_address a));
      simpl; [assumption | congruence |].
    rewrite <- Hv. exact Hla. }
  assert (Cbf : contains a (network_address_obj b) = true <->
                first_address a <= first_address b <= last_address a).
  { apply contains_range; simpl; [assumption | congruence |].
    rewrite Hv. exact Hfb. }
  assert (Cbl : contains a (broadcast_address b) = true <->
                first_address a <= last_address b <= last_address a).
  { apply (contains_range a (broadcast_address b));
      simpl; [assumption | congruence |].
    rewrite Hv. exact Hlb. }
  pose proof (wf_last a Ha) as Ela. pose proof (wf_last b Hb) as Elb.
  pose proof (wf_first_aligned a Ha) as Ala.
  pose proof (wf_first_aligned b Hb) as Alb.
  destruct Ha as (Hpa & _ & _), Hb as (Hpb & _ & _).
  pose proof (block_pos a Hpa) as HBa. pose proof (block_pos b Hpb) as HBb.
  unfold overlaps. rewrite !orb_true_iff, Caf, Cal, Cbf, Cbl.
  split.
  - intros [H | [H | [H | H]]]; lia.
  - intros [H1 H2].
    destruct (Z.le_gt_cases (prefixlen b) (prefixlen a)) as [Hle | Hgt].
    + (* a is the smaller block: its first address lies in b *)
      left. split; [| assumption].
      pose proof (block_divides a b Hv Hpa Hpb Hle) as Hdiv.
      assert (0 < 2 ^ (prefixlen a - prefixlen b))
        by (apply Z.pow_pos_nonneg; lia).
      rewrite Ala, Alb, Hdiv.
      apply aligned_blocks_nested; try assumption.
      rewrite <- Hdiv, <- Ala, <- Alb. lia.
    + (* b is the smaller block: its first address lies in a *)
      right; right; left. split; [| assumption].
      pose proof (block_divides b a (eq_sym Hv) Hpb Hpa ltac:(lia)) as Hdiv.
      assert (0 < 2 ^ (prefixlen b - prefixlen a))
        by (apply Z.pow_pos_nonneg; lia).
      rewrite Ala, Alb, Hdiv.
      apply aligned_blocks_nested; try assumption.
      rewrite <- Hdiv, <- Ala, <- Alb. lia.
Qed.

Lemma overlaps_sym a b : overlaps a b = overlaps b a.
Proof.
  unfold overlaps.
  destruct (contains b (network_address_obj a)),
           (contains b (broadcast_address a)),
           (contains a (network_address_obj b)),
           (contains a (broadcast_address b)); reflexivity.
Qed.

End Ranges.

(** C1. For well-formed networks, [subnets_conflict a b] is true exactly
    when some address lies in both inclusive ranges
    [[first_address a, last_address a]] and [[first_address b, last_address b]]; for two networks of one
    address family this is the test [first_address a <= last_address b /\ first_address b <= last_address a];
    and the function is symmetric. *)
Theorem subnets_conflict_iff_ranges_intersect (a b : Network) :
  wf_network a -> wf_network b ->
  (subnets_conflict a b = true <->
     exists x : Address, in_range a x /\ in_range b x) /\
  (version a = version b ->
     (subnets_conflict a b = true <->
        first_address a <= last_address b /\ first_address b <= last_address a)) /\
  subnets_conflict a b = subnets_conflict b a.
Proof.
  intros Ha Hb. unfold subnets_conflict.
  split; [| split].
  - split.
    + intros Hov. pose proof (overlaps_version a b Hov) as Hv.
      apply (overlaps_same_version a b Ha Hb Hv) in Hov.
      pose proof (wf_last a Ha). pose proof (wf_last b Hb).
      pose proof (block_pos a (proj1 Ha)). pose proof (block_pos b (proj1 Hb)).
      exists {| addr_version := version a; _ip := Z.max (first_address a) (first_address b) |}.
      unfold in_range; simpl. repeat split; try congruence; lia.
    + intros (x & (Hva & Hxa) & (Hvb & Hxb)).
      apply overlaps_same_version; try assumption; [congruence | lia].
  - intros Hv. apply overlaps_same_version; assumption.
  - apply overlaps_sym.
Qed.

(* ================================================================== *)
(** * Facts about strings *)
(* ================================================================== *)

Section StringFacts.

Lemma append_nil_r (s : string) : s ++ "" = s.
Proof. induction s as [| c s IH]; simpl; [reflexivity | now rewrite IH]. Qed.

Lemma append_assoc (s t u : string) : (s ++ t) ++ u = s ++ (t ++ u).
Proof. induction s as [| c s IH]; simpl; [reflexivity | now rewrite IH]. Qed.

Lemma length_append (s t : string) :
  String.length (s ++ t) = (String.length s + String.length t)%nat.
Proof. induction s as [| c s IH]; simpl; [reflexivity | now rewrite IH]. Qed.

Lemma forall_chars_append p s t :
  PyStr.forall_chars p (s ++ t) =
  PyStr.forall_chars p s && PyStr.forall_chars p t.
Proof.
  induction s as [| c s IH]; simpl; [reflexivity |].
  rewrite IH. apply andb_assoc.
Qed.

Lemma forall_chars_impl (p q : ascii -> bool) s :
  (forall c, p c = true -> q c = true) ->
  PyStr.forall_chars p s = true -> PyStr.forall_chars q s = true.
Proof.
  intros Hpq. induction s as [| c s IH]; [reflexivity |].
  intros H. chars_cons H Hc Hs. cbn [PyStr.forall_chars].
  apply andb_true_iff. auto.
Qed.

Lemma token_lacks c s :
  PyStr.isspace c = true -> token s = true -> lacks c s = true.
Proof.
  intros Hc. apply forall_chars_impl. intros a Ha.
  destruct (Ascii.eqb_spec a c) as [-> | _]; [| reflexivity].
  rewrite Hc in Ha. discriminate.
Qed.

Lemma single_line_lacks s :
  single_line s = true ->
  lacks PyStr.LF s = true /\ lacks PyStr.CR s = true.
Proof.
  intros H. split; revert H; apply forall_chars_impl; intros a;
    rewrite andb_true_iff; intros [Ha1 Ha2]; assumption.
Qed.

Lemma digits_lack c s :
  PyStr.isdecimal c = false ->
  PyStr.forall_chars PyStr.isdecimal s = true -> lacks c s = true.
Proof.
  intros Hc. apply forall_chars_impl. intros a Ha.
  destruct (Ascii.eqb_spec a c) as [-> | _]; [congruence | reflexivity].
Qed.

(** ** [rsplit] *)

Lemma rpartition_lacks sep s :
  lacks sep s = true -> PyStr.rpartition sep s = None.
Proof.
  unfold lacks. induction s as [| c s IH]; [reflexivity |].
  intros H. chars_cons H Hc Hs. apply negb_true_iff in Hc.
  cbn [PyStr.rpartition]. now rewrite (IH Hs), Hc.
Qed.

Lemma rpartition_last sep h t :
  lacks sep t = true ->
  PyStr.rpartition sep (h ++ String sep t) = Some (h, t).
Proof.
  intros Ht. induction h as [| c h IH]; cbn [String.append PyStr.rpartition].
  - rewrite (rpartition_lacks sep t Ht), Ascii.eqb_refl. reflexivity.
  - rewrite IH. reflexivity.
Qed.

Lemma rsplit1_last sep h t :
  lacks sep t = true -> PyStr.rsplit1 (h ++ String sep t) sep = [h; t].
Proof. intros Ht. unfold PyStr.rsplit1. now rewrite rpartition_last. Qed.

(** [rsplit] never returns an empty list: its item [0] exists. *)
Lemma rsplit1_head s sep :
  exists h, index (PyStr.rsplit1 s sep) 0 = Ok h.
Proof.
  unfold PyStr.rsplit1. destruct (PyStr.rpartition sep s) as [[h t] |].
  - exists h. reflexivity.
  - exists s. reflexivity.
Qed.

(** ** [strip] *)

Lemma lstrip_token s t :
  token s = true -> s <> "" -> PyStr.lstrip (s ++ t) = s ++ t.
Proof.
  destruct s as [| c s]; [congruence |]. intros H _.
  unfold token in H. chars_cons H Hc Hs. apply negb_true_iff in Hc.
  cbn [String.append PyStr.lstrip]. now rewrite Hc.
Qed.

Lemma rstrip_token_LF s :
  token s = true -> PyStr.rstrip (s ++ String PyStr.LF "") = s.
Proof.
  unfold token. induction s as [| c s IH]; [reflexivity |].
  intros H. chars_cons H Hc Hs. apply negb_true_iff in Hc.
  cbn [String.append PyStr.rstrip]. rewrite (IH Hs).
  destruct s; [now rewrite Hc | reflexivity].
Qed.

Lemma strip_token_LF s :
  token s = true -> PyStr.strip (s ++ String PyStr.LF "") = s.
Proof.
  intros Hs. unfold PyStr.strip.
  destruct s as [| c s]; [reflexivity |].
  rewrite lstrip_token by (assumption || discriminate).
  now apply rstrip_token_LF.
Qed.

(** ** [split] *)

Lemma split_lacks sep s : lacks sep s = true -> PyStr.split sep s = [s].
Proof.
  unfold lacks. induction s as [| c s IH]; [reflexivity |].
  intros H. chars_cons H Hc Hs. apply negb_true_iff in Hc.
  cbn [PyStr.split]. now rewrite Hc, (IH Hs).
Qed.

Lemma split_first sep s t :
  lacks sep s = true ->
  PyStr.split sep (s ++ String sep t) = s :: PyStr.split sep t.
Proof.
  unfold lacks. induction s as [| c s IH]; cbn [String.append PyStr.split].
  - intros _. now rewrite Ascii.eqb_refl.
  - intros H. chars_cons H Hc Hs. apply negb_true_iff in Hc.
    now rewrite Hc, (IH Hs).
Qed.

(** ** Lines *)

Lemma universal_newlines_lacks s :
  lacks PyStr.CR s = true -> PyStr.universal_newlines s = s.
Proof.
  unfold lacks. induction s as [| c s IH]; [reflexivity |].
  intros H. chars_cons H Hc Hs. apply negb_true_iff in Hc.
  cbn [PyStr.universal_newlines]. rewrite Hc. now rewrite (IH Hs).
Qed.

Lemma lines_keepends_first l rest :
  lacks PyStr.LF l = true ->
  PyStr.lines_keepends (l ++ String PyStr.LF rest) =
  (l ++ String PyStr.LF "") :: PyStr.lines_keepends rest.
Proof.
  unfold lacks.
  induction l as [| c l IH]; cbn [String.append PyStr.lines_keepends].
  - intros _. now rewrite Ascii.eqb_refl.
  - intros H. chars_cons H Hc Hl. apply negb_true_iff in Hc.
    now rewrite Hc, (IH Hl).
Qed.

End StringFacts.

(* ================================================================== *)
(** * Facts about the lines of a store *)
(* ================================================================== *)

Section StoreFacts.

Lemma to_add_fields r :
  to_add r = name r ++ String SP (cidr_string r ++ String PyStr.LF "").
Proof. reflexivity. Qed.

Lemma to_add_line r :
  to_add r =
  (name r ++ String SP (cidr_string r)) ++ String PyStr.LF "".
Proof. rewrite to_add_fields, append_assoc. reflexivity. Qed.

Lemma wf_record_parts r :
  wf_record r = true ->
  single_line (name r) = true /\ token (cidr_string r) = true.
Proof. unfold wf_record. now rewrite andb_true_iff. Qed.

Lemma wf_store_cons r records :
  wf_store (r :: records) = true ->
  wf_record r = true /\ wf_store records = true.
Proof. unfold wf_store. simpl. now rewrite andb_true_iff. Qed.

(** The two fields of a stored line, as [rsplit] cuts it. *)
Lemma rsplit1_to_add r :
  wf_record r = true ->
  PyStr.rsplit1 (to_add r) SP =
  [name r; cidr_string r ++ String PyStr.LF ""].
Proof.
  intros Hr. destruct (wf_record_parts r Hr) as [_ Hc].
  rewrite to_add_fields. apply rsplit1_last.
  unfold lacks. rewrite forall_chars_append.
  apply andb_true_iff. split; [| reflexivity].
  now apply (token_lacks SP).
Qed.

Lemma to_add_lacks_CR r :
  wf_record r = true -> lacks PyStr.CR (to_add r) = true.
Proof.
  intros Hr. destruct (wf_record_parts r Hr) as [Hn Hc].
  apply single_line_lacks in Hn. destruct Hn as [_ Hn].
  apply (token_lacks PyStr.CR) in Hc; [| reflexivity].
  rewrite to_add_fields. unfold lacks in *.
  rewrite forall_chars_append. cbn [PyStr.forall_chars].
  rewrite forall_chars_append, Hn, Hc. reflexivity.
Qed.

Lemma inventory_text_lacks_CR records :
  wf_store records = true -> lacks PyStr.CR (inventory_text records) = true.
Proof.
  induction records as [| r records IH]; [reflexivity |].
  intros H. apply wf_store_cons in H. destruct H as [Hr Hs].
  unfold inventory_text, join. cbn [map fold_right].
  unfold lacks. rewrite forall_chars_append.
  apply andb_true_iff. split.
  - now apply to_add_lacks_CR.
  - now apply IH.
Qed.

Lemma lines_keepends_inventory_text records :
  wf_store records = true ->
  PyStr.lines_keepends (inventory_text records) = map to_add records.
Proof.
  induction records as [| r records IH]; [reflexivity |].
  intros H. apply wf_store_cons in H. destruct H as [Hr Hs].
  destruct (wf_record_parts r Hr) as [Hn Hc].
  apply single_line_lacks in Hn. destruct Hn as [Hn _].
  apply (token_lacks PyStr.LF) in Hc; [| reflexivity].
  unfold inventory_text, join. cbn [map fold_right].
  rewrite (to_add_line r) at 1. rewrite append_assoc.
  cbn [String.append]. rewrite lines_keepends_first.
  - rewrite <- to_add_line. f_equal. now apply IH.
  - unfold lacks in *. rewrite forall_chars_append.
    cbn [PyStr.forall_chars]. now rewrite Hn, Hc.
Qed.

(** Reading a store file gives back its lines, one per record. *)
Lemma readlines_inventory_text records :
  wf_store records = true ->
  readlines (inventory_text records) = map to_add records.
Proof.
  intros H. unfold readlines.
  rewrite universal_newlines_lacks by now apply inventory_text_lacks_CR.
  now apply lines_keepends_inventory_text.
Qed.

(** The name field of a stored line. *)
Lemma name_field r :
  wf_record r = true ->
  index (PyStr.rsplit1 (to_add r) SP) 0 = Ok (name r).
Proof. intros Hr. now rewrite rsplit1_to_add. Qed.

(** The address field of a stored line, stripped. *)
Lemma address_field r :
  wf_record r = true ->
  rbind (index (PyStr.rsplit1 (to_add r) SP) 1)
        (fun field => Ok (PyStr.strip field)) = Ok (cidr_string r).
Proof.
  intros Hr. rewrite rsplit1_to_add by assumption. simpl.
  destruct (wf_record_parts r Hr) as [_ Hc].
  now rewrite strip_token_LF.
Qed.

Lemma inventory_text_app xs ys :
  inventory_text (xs ++ ys) = inventory_text xs ++ inventory_text ys.
Proof.
  unfold inventory_text, join.
  induction xs as [| x xs IH]; [reflexivity |].
  cbn [List.app map fold_right]. now rewrite IH, append_assoc.
Qed.

Lemma inventory_text_snoc records r :
  inventory_text (records ++ [r]) = inventory_text records ++ to_add r.
Proof.
  rewrite inventory_text_app. f_equal.
  unfold inventory_text, join. cbn [map fold_right]. apply append_nil_r.
Qed.

End StoreFacts.

(* ================================================================== *)
(** * Lookups *)
(* ================================================================== *)

Section Lookups.

Lemma check_subnet_by_address_loop_store records c :
  wf_store records = true ->
  check_subnet_by_address_loop (map to_add records) c =
  Ok (existsb (fun r => String.eqb (cidr_string r) c) records).
Proof.
  induction records as [| r records IH]; [reflexivity |].
  intros H. apply wf_store_cons in H. destruct H as [Hr Hs].
  cbn [map check_subnet_by_address_loop existsb].
  rewrite rsplit1_to_add by assumption. cbn [index nth_error rbind].
  destruct (wf_record_parts r Hr) as [_ Hc].
  rewrite strip_token_LF by assumption.
  destruct (String.eqb (cidr_string r) c); [reflexivity |].
  now apply IH.
Qed.

Lemma check_subnet_by_name_loop_store records n :
  wf_store records = true ->
  check_subnet_by_name_loop (map to_add records) n =
  Ok (existsb (fun r => String.eqb (name r) n) records).
Proof.
  induction records as [| r records IH]; [reflexivity |].
  intros H. apply wf_store_cons in H. destruct H as [Hr Hs].
  cbn [map check_subnet_by_name_loop existsb].
  rewrite rsplit1_to_add by assumption. cbn [index nth_error rbind].
  destruct (String.eqb (name r) n); [reflexivity |].
  now apply IH.
Qed.

(** The two loops over names differ in the order of the operands of [==]
    only. *)
Lemma name_loops_agree lines n :
  check_subnet_by_name_loop lines n = names_conflict_loop lines n.
Proof.
  induction lines as [| line lines IH]; [reflexivity |].
  cbn [check_subnet_by_name_loop names_conflict_loop].
  destruct (index (PyStr.rsplit1 line SP) 0) as [field | e]; [| reflexivity].
  cbn [rbind]. rewrite (String.eqb_sym field n).
  destruct (String.eqb n field); [reflexivity | apply IH].
Qed.

Lemma names_conflict_store records n w :
  wf_store records = true ->
  inventory w = Some (inventory_text records) ->
  names_conflict n w =
  (Ok (existsb (fun r => String.eqb (name r) n) records), w).
Proof.
  intros Hwf Hinv. unfold names_conflict, bind, open_readlines, lift.
  rewrite Hinv, readlines_inventory_text by assumption.
  rewrite <- name_loops_agree.
  now rewrite check_subnet_by_name_loop_store.
Qed.

Lemma check_subnet_by_name_store records n w :
  wf_store records = true -> stored w records ->
  check_subnet_by_name n w =
  (Ok (existsb (fun r => String.eqb (name r) n) records), w).
Proof.
  intros Hwf Hst. unfold stored in Hst.
  unfold check_subnet_by_name, bind, attempt, open_readlines, lift, ret.
  destruct (inventory w) as [text |].
  - subst text. rewrite readlines_inventory_text by assumption.
    now rewrite check_subnet_by_name_loop_store.
  - subst records. reflexivity.
Qed.

End Lookups.

(** C6. On a store of well-formed records, [check_subnet_by_address] returns
    true exactly when some stored record's address text, as it was given to
    add, is equal as a string to the text asked for; no file counts as no
    record.  Nothing is parsed, so two texts of one range are different. *)
Theorem check_subnet_by_address_textual
    (records : list Subnet) (cidrText : string) (w : World) :
  wf_store records = true -> stored w records ->
  exists b : bool,
    check_subnet_by_address cidrText w = (Ok b, w) /\
    (b = true <-> exists r, In r records /\ cidr_string r = cidrText).
Proof.
  intros Hwf Hst.
  exists (existsb (fun r => String.eqb (cidr_string r) cidrText) records).
  split.
  - unfold stored in Hst.
    unfold check_subnet_by_address, bind, attempt, open_readlines, lift, ret.
    destruct (inventory w) as [text |].
    + subst text. rewrite readlines_inventory_text by assumption.
      now rewrite check_subnet_by_address_loop_store.
    + subst records. reflexivity.
  - rewrite existsb_exists. split.
    + intros (r & Hin & Heq). exists r. split; [assumption |].
      now apply String.eqb_eq.
    + intros (r & Hin & Heq). exists r. split; [assumption |].
      now apply String.eqb_eq.
Qed.

(** C10. On every world whose inventory file exists, [check_subnet_by_name]
    and [names_conflict] return the same result for every name; without the
    file the first returns false and the second raises
    [FileNotFoundError]. *)
Theorem name_lookups_agree (n : string) (w : World) :
  match inventory w with
  | Some _ => check_subnet_by_name n w = names_conflict n w
  | None =>
      check_subnet_by_name n w = (Ok false, w) /\
      names_conflict n w = (Raise FileNotFoundError, w)
  end.
Proof.
  unfold check_subnet_by_name, names_conflict, bind, attempt, open_readlines,
    lift, ret.
  destruct (inventory w) as [text |].
  - now rewrite name_loops_agree.
  - split; reflexivity.
Qed.

(* ================================================================== *)
(** * Conflict search *)
(* ================================================================== *)

Section Conflicts.

Lemma check_inventory_for_conflicts_loop_store records cidr acc :
  wf_store records = true -> Forall parses records ->
  check_inventory_for_conflicts_loop (map to_add records) cidr acc =
  Ok (acc ++ filter (overlapping cidr) records)%list.
Proof.
  revert acc. induction records as [| r records IH]; intros acc Hwf Hp.
  - cbn. now rewrite app_nil_r.
  - apply wf_store_cons in Hwf. destruct Hwf as [Hr Hs].
    inversion Hp as [| ? ? [other Hother] Hp']; subst.
    destruct (wf_record_parts r Hr) as [_ Hc].
    cbn [map check_inventory_for_conflicts_loop filter].
    rewrite rsplit1_to_add by assumption. cbn [index nth_error rbind].
    rewrite strip_token_LF by assumption.
    unfold overlapping. rewrite Hother. cbn [rbind].
    destruct (subnets_conflict cidr other).
    + rewrite IH by assumption. rewrite <- app_assoc.
      destruct r; reflexivity.
    + now apply IH.
Qed.

End Conflicts.

(** C4. On a store of well-formed records whose addresses all parse,
    [check_inventory_for_conflicts] returns the stored records whose network
    overlaps the candidate, in the order of the store, and so the empty list
    exactly when no stored record overlaps it. *)
Theorem check_inventory_for_conflicts_filter
    (records : list Subnet) (cidr : Network) (w : World) :
  wf_store records = true -> Forall parses records ->
  inventory w = Some (inventory_text records) ->
  check_inventory_for_conflicts cidr w =
    (Ok (filter (overlapping cidr) records), w) /\
  (filter (overlapping cidr) records = [] <->
     forall r, In r records -> overlapping cidr r = false).
Proof.
  intros Hwf Hp Hinv. split.
  - unfold check_inventory_for_conflicts, bind, open_readlines, lift.
    rewrite Hinv, readlines_inventory_text by assumption.
    now rewrite check_inventory_for_conflicts_loop_store.
  - clear. induction records as [| r records IH]; cbn [filter].
    + split; [intros _ r [] | reflexivity].
    + destruct (overlapping cidr r) eqn:Hr.
      * split; [discriminate |].
        intros H. specialize (H r (or_introl eq_refl)). congruence.
      * rewrite IH. split.
        -- intros H r' [<- | Hin]; auto.
        -- intros H r' Hin. apply H. now right.
Qed.

(* ================================================================== *)
(** * Rewriting the file *)
(* ================================================================== *)

Section Rewrite.

Lemma take_length_append a b :
  PyStr.take (String.length a) (a ++ b) = a.
Proof.
  induction a as [| c a IH]; cbn [String.length String.append PyStr.take].
  - destruct b; reflexivity.
  - now rewrite IH.
Qed.

Lemma length_take n s :
  (n <= String.length s)%nat -> String.length (PyStr.take n s) = n.
Proof.
  revert s. induction n as [| n IH]; intros s Hn; [reflexivity |].
  destruct s as [| c s]; cbn [String.length] in Hn; [lia |].
  cbn [PyStr.take String.length]. rewrite IH; lia.
Qed.

Lemma take_0 s : PyStr.take 0 s = "".
Proof. reflexivity. Qed.

Lemma drop_0 s : PyStr.drop 0 s = s.
Proof. reflexivity. Qed.

(** After a write, the text before the position is the text that was before
    it, followed by what was written. *)
Lemma f_write_prefix f s :
  (pos f <= String.length (data f))%nat ->
  PyStr.take (pos (f_write f s)) (data (f_write f s)) =
    PyStr.take (pos f) (data f) ++ s /\
  (pos (f_write f s) <= String.length (data (f_write f s)))%nat.
Proof.
  intros Hpos. unfold f_write. cbn [pos data].
  pose proof (length_take (pos f) (data f) Hpos) as Hlen.
  split.
  - rewrite <- append_assoc.
    rewrite <- Hlen at 1. rewrite <- length_append.
    apply take_length_append.
  - rewrite !length_append, Hlen. lia.
Qed.

Lemma join_app xs ys : join (xs ++ ys) = join xs ++ join ys.
Proof.
  unfold join. induction xs as [| x xs IH]; [reflexivity |].
  cbn [List.app fold_right]. now rewrite IH, append_assoc.
Qed.

(** The loop of [delete_subnet] writes the kept lines, in order, after what
    stands before the position. *)
Lemma delete_subnet_loop_writes lines delete_name f :
  (pos f <= String.length (data f))%nat ->
  exists f',
    delete_subnet_loop lines delete_name f = (Ok tt, f') /\
    PyStr.take (pos f') (data f') =
      PyStr.take (pos f) (data f) ++ join (filter (kept delete_name) lines) /\
    (pos f' <= String.length (data f'))%nat.
Proof.
  revert f. induction lines as [| line lines IH]; intros f Hpos.
  - exists f. cbn. now rewrite append_nil_r.
  - destruct (rsplit1_head line SP) as [h Hh].
    assert (Hk : kept delete_name line = negb (String.eqb h delete_name))
      by (unfold kept; now rewrite Hh).
    cbn [delete_subnet_loop filter]. rewrite Hk, Hh.
    destruct (negb (String.eqb h delete_name)).
    + destruct (f_write_prefix f line Hpos) as [Hpre Hpos'].
      destruct (IH (f_write f line) Hpos') as (f' & Hrun & Htake & Hle).
      exists f'. split; [assumption |]. split; [| assumption].
      rewrite Htake, Hpre, append_assoc. reflexivity.
    + now apply IH.
Qed.

(** [delete_subnet] on any existing file: the file becomes the kept lines of
    what [readlines] returned. *)
Lemma delete_subnet_file delete_name text w :
  inventory w = Some text ->
  delete_subnet delete_name w =
  (Ok tt,
   {| inventory := Some (join (filter (kept delete_name) (readlines text)));
      stdin := stdin w;
      stdout := stdout w ++
                [printed (delete_name ++ " subnet removed from inventory")] |}).
Proof.
  intros Hinv. unfold delete_subnet, bind, delete_subnet_rewrite.
  rewrite Hinv. unfold f_readlines, f_seek. cbn [data pos].
  rewrite drop_0.
  destruct (delete_subnet_loop_writes (readlines text) delete_name
              {| data := text; pos := 0 |} (Nat.le_0_l _))
    as (f' & Hrun & Htake & _).
  rewrite Hrun. cbn [data pos] in Htake. rewrite take_0 in Htake.
  cbn [String.append] in Htake.
  unfold f_truncate. cbn [data]. rewrite Htake. reflexivity.
Qed.

Lemma kept_to_add delete_name r :
  wf_record r = true ->
  kept delete_name (to_add r) = negb (String.eqb (name r) delete_name).
Proof. intros Hr. unfold kept. now rewrite name_field. Qed.

Lemma filter_kept_store delete_name records :
  wf_store records = true ->
  filter (kept delete_name) (map to_add records) =
  map to_add
    (filter (fun r => negb (String.eqb (name r) delete_name)) records).
Proof.
  induction records as [| r records IH]; [reflexivity |].
  intros H. apply wf_store_cons in H. destruct H as [Hr Hs].
  cbn [map filter]. rewrite kept_to_add by assumption.
  destruct (negb (String.eqb (name r) delete_name));
    cbn [map]; now rewrite IH.
Qed.

Lemma filter_other_names delete_name records :
  ~ In delete_name (map name records) ->
  filter (fun r => negb (String.eqb (name r) delete_name)) records = records.
Proof.
  induction records as [| r records IH]; [reflexivity |].
  cbn [map In filter]. intros H.
  destruct (String.eqb_spec (name r) delete_name) as [Heq | Hne].
  - exfalso. apply H. now left.
  - cbn [negb]. f_equal. apply IH. intros Hin. apply H. now right.
Qed.

(** [delete_subnet] on a store of records. *)
Lemma delete_subnet_store delete_name records w :
  wf_store records = true ->
  inventory w = Some (inventory_text records) ->
  delete_subnet delete_name w =
  (Ok tt,
   {| inventory :=
        Some (inventory_text
                (filter (fun r => negb (String.eqb (name r) delete_name))
                        records));
      stdin := stdin w;
      stdout := stdout w ++
                [printed (delete_name ++ " subnet removed from inventory")] |}).
Proof.
  intros Hwf Hinv. rewrite (delete_subnet_file delete_name _ w Hinv).
  rewrite readlines_inventory_text, filter_kept_store by assumption.
  reflexivity.
Qed.

End Rewrite.

(** C5. On a store of well-formed records, [delete_subnet] rewrites the file
    to the records whose name differs from the given one, in their order;
    when no record has that name the records are the same as before and none
    is removed. *)
Theorem delete_subnet_filters_store
    (records : list Subnet) (delete_name : string) (w : World) :
  wf_store records = true ->
  inventory w = Some (inventory_text records) ->
  let remaining :=
    filter (fun r => negb (String.eqb (name r) delete_name)) records in
  delete_subnet delete_name w =
    (Ok tt,
     {| inventory := Some (inventory_text remaining);
        stdin := stdin w;
        stdout := stdout w ++
                  [printed (delete_name ++ " subnet removed from inventory")] |})
  /\ (~ In delete_name (map name records) ->
      remaining = records /\
      List.length remaining = List.length records).
Proof.
  intros Hwf Hinv remaining. split.
  - now apply delete_subnet_store.
  - intros Hno. unfold remaining.
    rewrite filter_other_names by assumption. split; reflexivity.
Qed.

(* ================================================================== *)
(** * Adding *)
(* ================================================================== *)

Section Adding.

(** [add_subnet_verify] reads and writes; the file stays as it is. *)
Lemma add_subnet_verify_inventory w :
  inventory (snd (add_subnet_verify w)) = inventory w.
Proof.
  unfold add_subnet_verify.
  destruct (add_subnet_verify_loop (stdin w) (stdout w)) as [r [ins out]].
  reflexivity.
Qed.

(** What [add_subnet] can do to the file: nothing, or append the line of the
    record; it never creates the file. *)
Lemma add_subnet_inventory r w :
  match inventory w with
  | Some text =>
      inventory (snd (add_subnet r w)) = Some text \/
      inventory (snd (add_subnet r w)) = Some (text ++ to_add r)
  | None => inventory (snd (add_subnet r w)) = None
  end.
Proof.
  assert (H : inventory (snd (add_subnet r w)) = inventory w \/
              exists text, inventory w = Some text /\
                inventory (snd (add_subnet r w)) = Some (text ++ to_add r)).
  { unfold add_subnet, bind, lift.
    destruct (add_subnet_reserved_loop reserved_subnets r) as [[|] | e];
      [left; reflexivity | | left; reflexivity].
    destruct (ip_network (cidr_string r)) as [cidr | e];
      [| left; reflexivity].
    unfold check_inventory_for_conflicts, bind, open_readlines, lift.
    destruct (inventory w) as [text |] eqn:Hinv;
      [| left; cbn; now rewrite Hinv].
    destruct (check_inventory_for_conflicts_loop (readlines text) cidr [])
      as [[| c cs] | e]; [| | left; cbn; now rewrite Hinv].
    - right. exists text. split; [reflexivity |].
      unfold ret, open_append, print. cbn. now rewrite Hinv.
    - pose proof (add_subnet_verify_inventory w) as Hv.
      destruct (add_subnet_verify w) as [[[|] | e] w1]; cbn [snd] in Hv.
      + right. exists text. split; [reflexivity |].
        unfold open_append, print. cbn. now rewrite Hv, Hinv.
      + left. unfold ret. cbn. now rewrite Hv.
      + left. cbn. now rewrite Hv. }
  destruct (inventory w) as [text |].
  - destruct H as [H | (text' & Heq & H)]; [now left |].
    injection Heq as <-. now right.
  - destruct H as [H | (text' & Heq & _)]; [assumption | discriminate].
Qed.

(** With no reserved overlap and no overlap in the store, the record goes to
    the end of the store. *)
Lemma add_subnet_appends records r cidr w :
  wf_store records = true -> Forall parses records ->
  inventory w = Some (inventory_text records) ->
  ip_network (cidr_string r) = Ok cidr ->
  add_subnet_reserved_loop reserved_subnets r = Ok false ->
  filter (overlapping cidr) records = [] ->
  add_subnet r w =
  (Ok tt,
   {| inventory := Some (inventory_text (records ++ [r]));
      stdin := stdin w;
      stdout := stdout w ++
                [printed ("Subnet added to inventory: " ++ to_add r)] |}).
Proof.
  intros Hwf Hp Hinv Hcidr Hres Hnone.
  unfold add_subnet, bind, lift. rewrite Hres, Hcidr.
  unfold check_inventory_for_conflicts, bind, open_readlines, lift.
  rewrite Hinv, readlines_inventory_text by assumption.
  rewrite check_inventory_for_conflicts_loop_store by assumption.
  cbn [List.app]. rewrite Hnone.
  unfold ret, open_append, print. cbn [inventory stdin stdout].
  now rewrite Hinv, inventory_text_snoc.
Qed.

(** Text that [ip_network] rejects: [add_subnet] ends in its [ValueError]
    before it reads or writes anything. *)
Lemma add_subnet_rejected r w :
  ip_network (cidr_string r) = Raise ValueError ->
  add_subnet r w = (Raise ValueError, w).
Proof.
  intros Hnet. unfold add_subnet, bind, lift.
  cbn [reserved_subnets add_subnet_reserved_loop]. now rewrite Hnet.
Qed.

End Adding.

(** C3. A candidate whose network overlaps a reserved range is refused by
    [add_subnet]: it prints the refusal and returns, whatever the file holds
    and whether or not it exists, without reading standard input and without
    touching the file. *)
Theorem add_subnet_reserved_refused (r : Subnet) (cidr : Network) (w : World) :
  ip_network (cidr_string r) = Ok cidr ->
  (exists reserved other,
      In reserved reserved_subnets /\
      ip_network reserved = Ok other /\
      subnets_conflict cidr other = true) ->
  add_subnet r w =
  (Ok tt,
   {| inventory := inventory w;
      stdin := stdin w;
      stdout := stdout w ++
        [printed "Subnet is reserved or conflicts with a reserved subnet and cannot be added"] |}).
Proof.
  intros Hcidr (reserved & other & Hin & Hother & Hconf).
  destruct Hin as [<- | []].
  unfold add_subnet, bind, lift.
  cbn [reserved_subnets add_subnet_reserved_loop].
  rewrite Hcidr. cbn [rbind]. rewrite Hother. cbn [rbind]. rewrite Hconf.
  reflexivity.
Qed.


(** C2. Without the inventory file, [names_conflict],
    [check_inventory_for_conflicts], [delete_subnet], [display_inventory] and
    [add_subnet] raise [FileNotFoundError], where on an empty file they
    return; only [check_subnet_by_address] and [check_subnet_by_name] take
    the missing file for an empty one. *)
Theorem absent_inventory_raises
    (n : string) (cidr : Network) (ins outs : list string) :
  let absent := {| inventory := None; stdin := ins; stdout := outs |} in
  let empty := {| inventory := Some ""; stdin := ins; stdout := outs |} in
  let r := {| name := n; cidr_string := "10.0.0.0/24" |} in
  (names_conflict n absent = (Raise FileNotFoundError, absent) /\
   names_conflict n empty = (Ok false, empty)) /\
  (check_inventory_for_conflicts cidr absent =
     (Raise FileNotFoundError, absent) /\
   check_inventory_for_conflicts cidr empty = (Ok [], empty)) /\
  (fst (delete_subnet n absent) = Raise FileNotFoundError /\
   fst (delete_subnet n empty) = Ok tt) /\
  (fst (display_inventory absent) = Raise FileNotFoundError /\
   fst (display_inventory empty) = Ok tt) /\
  (add_subnet r absent = (Raise FileNotFoundError, absent) /\
   fst (add_subnet r empty) = Ok tt /\
   inventory (snd (add_subnet r empty)) = Some (to_add r)) /\
  (check_subnet_by_address n absent = (Ok false, absent) /\
   check_subnet_by_name n absent = (Ok false, absent)).
Proof.
  intros absent empty r. repeat split; reflexivity.
Qed.

(* ================================================================== *)
(** * The format check *)
(* ================================================================== *)

Section Format.

Lemma digit_group_iff lo hi d :
  digit_group lo hi d = true <->
  PyStr.forall_chars PyStr.isdecimal d = true /\
  (lo <= String.length d <= hi)%nat.
Proof.
  unfold digit_group. rewrite !andb_true_iff, !Nat.leb_le.
  split; [intros [[H1 H2] H3] | intros [H1 [H2 H3]]]; auto.
Qed.

Lemma digit_group_cons lo hi c d :
  digit_group (S lo) (S hi) (String c d) = true <->
  PyStr.isdecimal c = true /\ digit_group lo hi d = true.
Proof.
  rewrite !digit_group_iff. cbn [PyStr.forall_chars String.length].
  rewrite andb_true_iff.
  split; intros [H1 [H2 H3]]; repeat split; try apply H1; try assumption; lia.
Qed.

Lemma digit_group_cons_0 hi c d :
  digit_group 0 (S hi) (String c d) = true <->
  PyStr.isdecimal c = true /\ digit_group 0 hi d = true.
Proof.
  rewrite !digit_group_iff. cbn [PyStr.forall_chars String.length].
  rewrite andb_true_iff.
  split; intros [H1 [H2 H3]]; repeat split; try apply H1; try assumption; lia.
Qed.

Lemma digit_group_empty lo hi :
  digit_group lo hi "" = true <-> lo = 0%nat.
Proof.
  rewrite digit_group_iff. cbn. split; [lia | intros ->; split; [easy | lia]].
Qed.

Lemma digit_group_0 lo d : digit_group lo 0 d = true -> d = "" /\ lo = 0%nat.
Proof.
  rewrite digit_group_iff. intros [_ H].
  destruct d; cbn [String.length] in H; [split; [reflexivity | lia] | lia].
Qed.

(** [\d{lo,hi}] followed by [k]: some group of digits of an allowed length
    is a prefix, and [k] accepts the rest. *)
Lemma match_digits_spec k hi : forall lo s,
  Re.match_digits k lo hi s = true <->
  exists d rest, s = d ++ rest /\ digit_group lo hi d = true /\ k rest = true.
Proof.
  induction hi as [| hi IH]; intros lo s.
  - cbn [Re.match_digits]. destruct lo as [| lo].
    + split.
      * intros Hk. exists "", s. now rewrite digit_group_empty.
      * intros (d & rest & -> & Hd & Hk).
        apply digit_group_0 in Hd. destruct Hd as [-> _]. exact Hk.
    + split; [discriminate |].
      intros (d & rest & _ & Hd & _). apply digit_group_0 in Hd.
      destruct Hd as [_ Hd]. discriminate.
  - cbn [Re.match_digits]. destruct lo as [| lo].
    + destruct s as [| c s].
      * split.
        -- intros Hk. exists "", "". now rewrite digit_group_empty.
        -- intros (d & rest & Heq & _ & Hk).
           destruct d; [| discriminate]. cbn in Heq. now subst rest.
      * rewrite orb_true_iff, andb_true_iff, IH. split.
        -- intros [[Hc (d & rest & -> & Hd & Hk)] | Hk].
           ++ exists (String c d), rest.
              now rewrite digit_group_cons_0.
           ++ exists "", (String c s). now rewrite digit_group_empty.
        -- intros (d & rest & Heq & Hd & Hk).
           destruct d as [| c' d]; cbn in Heq.
           ++ right. now subst rest.
           ++ injection Heq as <- ->. apply digit_group_cons_0 in Hd.
              destruct Hd as [Hc Hd].
              left. split; [assumption |]. now exists d, rest.
    + destruct s as [| c s].
      * split; [discriminate |].
        intros (d & rest & Heq & Hd & _).
        destruct d; [| discriminate].
        apply digit_group_empty in Hd. discriminate.
      * rewrite andb_true_iff, IH. split.
        -- intros [Hc (d & rest & -> & Hd & Hk)].
           exists (String c d), rest. now rewrite digit_group_cons.
        -- intros (d & rest & Heq & Hd & Hk).
           destruct d as [| c' d].
           ++ apply digit_group_empty in Hd. discriminate.
           ++ cbn in Heq. injection Heq as <- ->.
              apply digit_group_cons in Hd.
              destruct Hd as [Hc Hd].
              split; [assumption |]. now exists d, rest.
Qed.

(** The matcher against the text a pattern stands for. *)
Lemma match_then_spec p k : forall s,
  Re.match_then p k s = true <->
  exists m rest, s = m ++ rest /\ denote p m /\ k rest = true.
Proof.
  induction p as [| [lo hi | c] p IH]; intros s; cbn [Re.match_then denote].
  - split.
    + intros Hk. now exists "", s.
    + intros (m & rest & -> & -> & Hk). exact Hk.
  - rewrite match_digits_spec. split.
    + intros (d & rest & -> & Hd & Hm). apply IH in Hm.
      destruct Hm as (m & rest' & -> & Hm & Hk).
      exists (d ++ m), rest'. rewrite append_assoc.
      split; [reflexivity |]. split; [| assumption]. now exists d, m.
    + intros (m & rest & -> & (d & m' & -> & Hd & Hm) & Hk).
      exists d, (m' ++ rest). rewrite append_assoc.
      split; [reflexivity |]. split; [assumption |].
      apply IH. now exists m', rest.
  - destruct s as [| a s].
    + split; [discriminate |].
      intros (m & rest & Heq & (m' & -> & _) & _). discriminate.
    + rewrite andb_true_iff, IH. split.
      * intros [Ha (m & rest & -> & Hm & Hk)].
        apply Ascii.eqb_eq in Ha. subst a.
        exists (String c m), rest. split; [reflexivity |].
        split; [| assumption]. now exists m.
      * intros (m & rest & Heq & (m' & -> & Hm) & Hk).
        cbn in Heq. injection Heq as -> ->.
        split; [apply Ascii.eqb_refl |]. now exists m', rest.
Qed.

Lemma fullmatch_spec p s : Re.fullmatch p s = true <-> denote p s.
Proof.
  unfold Re.fullmatch. rewrite match_then_spec. split.
  - intros (m & rest & -> & Hm & Hk). apply String.eqb_eq in Hk.
    subst rest. now rewrite append_nil_r.
  - intros Hs. exists s, "". now rewrite append_nil_r.
Qed.

Lemma match_here_spec p s :
  Re.match_here p s = true <-> exists m rest, s = m ++ rest /\ denote p m.
Proof.
  unfold Re.match_here. rewrite match_then_spec. split.
  - intros (m & rest & H & Hm & _). now exists m, rest.
  - intros (m & rest & H & Hm). now exists m, rest.
Qed.

(** [re.search] finds the pattern anywhere in the text. *)
Lemma search_spec p s :
  Re.search p s = true <->
  exists pre m post, s = pre ++ m ++ post /\ denote p m.
Proof.
  induction s as [| c s IH]; cbn [Re.search];
    rewrite orb_true_iff, match_here_spec.
  - split.
    + intros [(m & rest & H & Hm) | H]; [| discriminate].
      now exists "", m, rest.
    + intros (pre & m & post & H & Hm). left.
      destruct pre; [| discriminate]. now exists m, post.
  - rewrite IH. split.
    + intros [(m & rest & H & Hm) | (pre & m & post & -> & Hm)].
      * now exists "", m, rest.
      * now exists (String c pre), m, post.
    + intros (pre & m & post & H & Hm).
      destruct pre as [| c' pre]; cbn in H.
      * left. now exists m, post.
      * injection H as <- ->. right. now exists pre, m, post.
Qed.

(** The pattern of the script stands for the shape of section 4.1. *)
Lemma denote_cidr_pattern s : denote cidr_pattern s <-> cidr_shape s.
Proof.
  unfold cidr_pattern, cidr_shape, cidr_text. cbn [denote]. split.
  - intros (o1 & m1 & -> & H1 & m2 & -> &
            o2 & m3 & -> & H2 & m4 & -> &
            o3 & m5 & -> & H3 & m6 & -> &
            o4 & m7 & -> & H4 & m8 & -> &
            p & m9 & -> & H5 & ->).
    exists o1, o2, o3, o4, p. rewrite append_nil_r.
    repeat split; assumption.
  - intros (o1 & o2 & o3 & o4 & p & -> & H1 & H2 & H3 & H4 & H5).
    exists o1; eexists; split; [reflexivity |]; split; [assumption |].
    eexists; split; [reflexivity |].
    exists o2; eexists; split; [reflexivity |]; split; [assumption |].
    eexists; split; [reflexivity |].
    exists o3; eexists; split; [reflexivity |]; split; [assumption |].
    eexists; split; [reflexivity |].
    exists o4; eexists; split; [reflexivity |]; split; [assumption |].
    eexists; split; [reflexivity |].
    exists p, "". now rewrite append_nil_r.
Qed.

(** What [check_address_format] accepts: every text that holds the shape
    somewhere. *)
Lemma check_address_format_search s :
  check_address_format s = true <->
  exists pre m post, s = pre ++ m ++ post /\ cidr_shape m.
Proof.
  unfold check_address_format.
  destruct (Re.search cidr_pattern s) eqn:Hs.
  - apply search_spec in Hs. split; [intros _ | reflexivity].
    destruct Hs as (pre & m & post & H & Hm).
    exists pre, m, post. now rewrite <- denote_cidr_pattern.
  - split; [discriminate |].
    intros (pre & m & post & H & Hm). rewrite <- Hs. apply search_spec.
    exists pre, m, post. now rewrite denote_cidr_pattern.
Qed.

Lemma check_address_format_shape s :
  cidr_shape s -> check_address_format s = true.
Proof.
  intros Hs. apply check_address_format_search.
  exists "", s, "". now rewrite append_nil_r.
Qed.

End Format.

(** C7. [check_address_format] is a search, not a match of the whole text:
    it accepts ["10.0.0.0/240"], which holds the pattern and is not of the
    shape; it rejects ["10.0.0.0"], and accepts ["10.0.0.0/24"]. *)
Theorem check_address_format_unanchored :
  check_address_format "10.0.0.0/240" = true /\
  Re.fullmatch cidr_pattern "10.0.0.0/240" = false /\
  check_address_format "x10.0.0.0/24 y" = true /\
  Re.fullmatch cidr_pattern "x10.0.0.0/24 y" = false /\
  check_address_format "10.0.0.0" = false /\
  check_address_format "10.0.0.0/24" = true.
Proof. repeat split; reflexivity. Qed.

(* ================================================================== *)
(** * Text the library rejects *)
(* ================================================================== *)

Section Rejected.

Lemma parse_octet_bound o z : _parse_octet o = Some z -> PyStr.int o <= 255.
Proof.
  unfold _parse_octet.
  destruct (String.eqb o ""); [discriminate |].
  destruct (negb (PyStr.isascii o && PyStr.isdigit o)); [discriminate |].
  destruct (3 <? String.length o)%nat; [discriminate |].
  destruct (negb (String.eqb o "0") && _); [discriminate |].
  destruct (Z.ltb_spec 255 (PyStr.int o)); [discriminate | intros _; lia].
Qed.

Lemma from_octets_bound o1 o2 o3 o4 acc z :
  from_octets acc [o1; o2; o3; o4] = Some z ->
  PyStr.int o1 <= 255 /\ PyStr.int o2 <= 255 /\
  PyStr.int o3 <= 255 /\ PyStr.int o4 <= 255.
Proof.
  cbn [from_octets].
  destruct (_parse_octet o1) eqn:H1; [| discriminate].
  destruct (_parse_octet o2) eqn:H2; [| discriminate].
  destruct (_parse_octet o3) eqn:H3; [| discriminate].
  destruct (_parse_octet o4) eqn:H4; [| discriminate].
  intros _. repeat split; eapply parse_octet_bound; eassumption.
Qed.

Lemma digit_group_nonempty lo hi d :
  digit_group (S lo) hi d = true -> d <> "".
Proof. intros H ->. apply digit_group_empty in H. discriminate. Qed.

Lemma digit_group_lacks c lo hi d :
  PyStr.isdecimal c = false -> digit_group lo hi d = true ->
  lacks c d = true.
Proof.
  intros Hc Hd. apply digit_group_iff in Hd. now apply digits_lack.
Qed.

Lemma lacks_append c s t :
  lacks c (s ++ t) = lacks c s && lacks c t.
Proof. apply forall_chars_append. Qed.

Lemma lacks_cons c a s :
  lacks c (String a s) = negb (Ascii.eqb a c) && lacks c s.
Proof. reflexivity. Qed.

Lemma cidr_text_quad o1 o2 o3 o4 p :
  cidr_text o1 o2 o3 o4 p = quad o1 o2 o3 o4 ++ String "/" p.
Proof.
  unfold cidr_text, quad. cbn [String.append].
  repeat (rewrite append_assoc; cbn [String.append]). reflexivity.
Qed.

Lemma quad_lacks c o1 o2 o3 o4 :
  PyStr.isdecimal c = false -> c <> "."%char ->
  digit_group 1 3 o1 = true -> digit_group 1 3 o2 = true ->
  digit_group 1 3 o3 = true -> digit_group 1 3 o4 = true ->
  lacks c (quad o1 o2 o3 o4) = true.
Proof.
  intros Hc Hdot H1 H2 H3 H4. unfold quad. cbn [String.append].
  assert (Hd : Ascii.eqb "." c = false) by (apply Ascii.eqb_neq; congruence).
  rewrite !lacks_append, !lacks_cons, !lacks_append, !lacks_cons,
    !lacks_append, !lacks_cons, Hd.
  now rewrite (digit_group_lacks c 1 3 o1), (digit_group_lacks c 1 3 o2),
    (digit_group_lacks c 1 3 o3), (digit_group_lacks c 1 3 o4).
Qed.

Lemma cidr_text_lacks c o1 o2 o3 o4 p :
  PyStr.isdecimal c = false -> c <> "."%char -> c <> "/"%char ->
  digit_group 1 3 o1 = true -> digit_group 1 3 o2 = true ->
  digit_group 1 3 o3 = true -> digit_group 1 3 o4 = true ->
  digit_group 1 2 p = true ->
  lacks c (cidr_text o1 o2 o3 o4 p) = true.
Proof.
  intros Hc Hdot Hsl H1 H2 H3 H4 H5.
  assert (Hd : Ascii.eqb "/" c = false) by (apply Ascii.eqb_neq; congruence).
  rewrite cidr_text_quad, lacks_append, lacks_cons, Hd.
  now rewrite quad_lacks, (digit_group_lacks c 1 2 p).
Qed.

Lemma split_quad o1 o2 o3 o4 :
  digit_group 1 3 o1 = true -> digit_group 1 3 o2 = true ->
  digit_group 1 3 o3 = true -> digit_group 1 3 o4 = true ->
  PyStr.split "." (quad o1 o2 o3 o4) = [o1; o2; o3; o4].
Proof.
  intros H1 H2 H3 H4. unfold quad. cbn [String.append].
  rewrite !split_first, split_lacks;
    now (reflexivity || apply (digit_group_lacks "." 1 3)).
Qed.

Lemma split_cidr_text o1 o2 o3 o4 p :
  digit_group 1 3 o1 = true -> digit_group 1 3 o2 = true ->
  digit_group 1 3 o3 = true -> digit_group 1 3 o4 = true ->
  digit_group 1 2 p = true ->
  _split_addr_prefix (cidr_text o1 o2 o3 o4 p) =
  Some (quad o1 o2 o3 o4, Some p).
Proof.
  intros H1 H2 H3 H4 H5. unfold _split_addr_prefix.
  rewrite cidr_text_quad, split_first, split_lacks.
  - reflexivity.
  - now apply (digit_group_lacks "/" 1 2).
  - apply quad_lacks; (reflexivity || discriminate || assumption).
Qed.

(** A group of one or two digits is no dotted quad. *)
Lemma ip_int_from_digits p :
  digit_group 1 2 p = true -> _ip_int_from_string p = None.
Proof.
  intros Hp. unfold _ip_int_from_string.
  destruct (String.eqb p ""); [reflexivity |].
  rewrite split_lacks by now apply (digit_group_lacks "." 1 2).
  reflexivity.
Qed.

Lemma make_netmask_above p :
  digit_group 1 2 p = true -> 32 < PyStr.int p ->
  _make_netmask (Some p) = None.
Proof.
  intros Hp Hgt. unfold _make_netmask, _prefix_from_prefix_string.
  assert (Hip : _prefix_from_ip_string p = None)
    by (unfold _prefix_from_ip_string; now rewrite ip_int_from_digits).
  destruct (negb (PyStr.isascii p && PyStr.isdigit p)); [exact Hip |].
  cbn [max_prefixlen].
  destruct (Z.leb_spec (PyStr.int p) 32) as [Hle | _]; [lia |].
  rewrite andb_false_r. exact Hip.
Qed.

(** Text of the shape with an octet above 255 or a prefix length above 32
    is not an IPv4 network. *)
Lemma IPv4Network_out_of_range o1 o2 o3 o4 p :
  digit_group 1 3 o1 = true -> digit_group 1 3 o2 = true ->
  digit_group 1 3 o3 = true -> digit_group 1 3 o4 = true ->
  digit_group 1 2 p = true ->
  255 < PyStr.int o1 \/ 255 < PyStr.int o2 \/ 255 < PyStr.int o3 \/
  255 < PyStr.int o4 \/ 32 < PyStr.int p ->
  IPv4Network (cidr_text o1 o2 o3 o4 p) = None.
Proof.
  intros H1 H2 H3 H4 H5 Hout. unfold IPv4Network.
  rewrite split_cidr_text by assumption.
  destruct (_ip_int_from_string (quad o1 o2 o3 o4)) as [packed |] eqn:Hq;
    [| reflexivity].
  unfold _ip_int_from_string in Hq.
  destruct (String.eqb (quad o1 o2 o3 o4) ""); [discriminate |].
  rewrite split_quad in Hq by assumption. cbn [List.length Nat.eqb negb] in Hq.
  apply from_octets_bound in Hq.
  rewrite make_netmask_above; [reflexivity | assumption | lia].
Qed.

End Rejected.

(** C8. Text of the shape whose octet is above 255 or whose prefix length is
    above 32 passes [check_address_format] and is rejected by [ip_network]
    with [ValueError]; [add_subnet] does not handle it: the call ends in
    that exception, raised to the caller, with the file, the input and the
    output as they were. *)
Theorem add_subnet_out_of_range_rejected
    (o1 o2 o3 o4 p n : string) (w : World) :
  digit_group 1 3 o1 = true -> digit_group 1 3 o2 = true ->
  digit_group 1 3 o3 = true -> digit_group 1 3 o4 = true ->
  digit_group 1 2 p = true ->
  255 < PyStr.int o1 \/ 255 < PyStr.int o2 \/ 255 < PyStr.int o3 \/
  255 < PyStr.int o4 \/ 32 < PyStr.int p ->
  let text := cidr_text o1 o2 o3 o4 p in
  check_address_format text = true /\
  ip_network text = Raise ValueError /\
  add_subnet {| name := n; cidr_string := text |} w =
    (Raise ValueError, w).
Proof using IPv6Network_colon.
  intros H1 H2 H3 H4 H5 Hout s.
  assert (Hnet : ip_network s = Raise ValueError).
  { unfold ip_network, s.
    rewrite IPv4Network_out_of_range by assumption.
    rewrite IPv6Network_colon; [reflexivity |].
    apply cidr_text_lacks; (reflexivity || discriminate || assumption). }
  split; [| split].
  - apply check_address_format_shape. unfold cidr_shape.
    exists o1, o2, o3, o4, p. repeat split; assumption.
  - exact Hnet.
  - now apply add_subnet_rejected.
Qed.

(* ================================================================== *)
(** * Parsed IPv4 networks are well formed *)
(* ================================================================== *)

Section Parsed.

Lemma digit_value_bounds c :
  PyStr.isdecimal c = true -> 0 <= PyStr.digit_value c <= 9.
Proof.
  unfold PyStr.isdecimal, PyStr.digit_value.
  rewrite andb_true_iff, !Nat.leb_le. lia.
Qed.

Lemma isascii_isdigit_decimal o :
  PyStr.isascii o && PyStr.isdigit o = true ->
  PyStr.forall_chars PyStr.isdecimal o = true.
Proof.
  rewrite andb_true_iff. intros [Ha Hd].
  unfold PyStr.isascii in Ha. unfold PyStr.isdigit in Hd.
  assert (Hd' : PyStr.forall_chars PyStr.isdigit_char o = true)
    by (destruct o; [reflexivity | exact Hd]).
  clear Hd. induction o as [| c o IH]; [reflexivity |].
  chars_cons Ha Hac Hao. chars_cons Hd' Hdc Hdo.
  cbn [PyStr.forall_chars]. rewrite (IH Hao Hdo), andb_true_r.
  unfold PyStr.isdigit_char in Hdc. unfold PyStr.isascii_char in Hac.
  apply Nat.ltb_lt in Hac.
  rewrite !orb_true_iff, !Nat.eqb_eq in Hdc.
  destruct Hdc as [[[H | H] | H] | H]; [exact H | lia | lia | lia].
Qed.

Lemma int_acc_nonneg s : forall acc,
  PyStr.forall_chars PyStr.isdecimal s = true -> 0 <= acc ->
  0 <= PyStr.int_acc acc s.
Proof.
  induction s as [| c s IH]; intros acc Hs Hacc; [exact Hacc |].
  chars_cons Hs Hc Hs'. cbn [PyStr.int_acc]. apply IH; [assumption |].
  pose proof (digit_value_bounds c Hc). lia.
Qed.

Lemma parse_octet_range o z : _parse_octet o = Some z -> 0 <= z <= 255.
Proof.
  unfold _parse_octet.
  destruct (String.eqb o ""); [discriminate |].
  destruct (PyStr.isascii o && PyStr.isdigit o) eqn:Hd; [| discriminate].
  cbn [negb].
  destruct (3 <? String.length o)%nat; [discriminate |].
  destruct (negb (String.eqb o "0") && _); [discriminate |].
  destruct (Z.ltb_spec 255 (PyStr.int o)); [discriminate |].
  intros [= <-]. split; [| assumption].
  apply int_acc_nonneg; [now apply isascii_isdigit_decimal | lia].
Qed.

Lemma from_octets_range octets : forall acc z,
  from_octets acc octets = Some z -> 0 <= acc ->
  0 <= z < (acc + 1) * 256 ^ Z.of_nat (List.length octets).
Proof.
  induction octets as [| o octets IH]; intros acc z H Hacc.
  - cbn in H. injection H as <-. cbn. lia.
  - cbn [from_octets] in H.
    destruct (_parse_octet o) as [b |] eqn:Hb; [| discriminate].
    apply parse_octet_range in Hb.
    apply IH in H; [| lia].
    cbn [List.length]. rewrite Nat2Z.inj_succ, Z.pow_succ_r by lia.
    assert (0 < 256 ^ Z.of_nat (List.length octets))
      by (apply Z.pow_pos_nonneg; lia).
    nia.
Qed.

Lemma ip_int_from_string_range s z :
  _ip_int_from_string s = Some z -> 0 <= z < 2 ^ 32.
Proof.
  unfold _ip_int_from_string.
  destruct (String.eqb s ""); [discriminate |].
  destruct (List.length (PyStr.split "." s) =? 4)%nat eqn:Hlen;
    [| discriminate].
  cbn [negb]. intros H. apply from_octets_range in H; [| lia].
  apply Nat.eqb_eq in Hlen. rewrite Hlen in H. exact H.
Qed.

Lemma bit_length_nonneg z : 0 <= bit_length z.
Proof.
  unfold bit_length. destruct (Z.abs z =? 0); [lia |].
  pose proof (Z.log2_nonneg (Z.abs z)). lia.
Qed.

Lemma prefix_from_ip_int_range x p :
  _prefix_from_ip_int IPv4 x = Some p -> 0 <= p <= 32.
Proof.
  unfold _prefix_from_ip_int, _count_righthand_zero_bits.
  change (max_prefixlen IPv4) with 32. cbv zeta.
  destruct (negb _); [discriminate |]. intros H.
  assert (Hp : 32 - (if x =? 0 then 32
                     else Z.min 32 (bit_length (Z.land (Z.lnot x) (x - 1))))
               = p) by congruence.
  rewrite <- Hp. clear H Hp.
  pose proof (bit_length_nonneg (Z.land (Z.lnot x) (x - 1))).
  destruct (x =? 0); lia.
Qed.

Lemma make_netmask_range mask p : _make_netmask mask = Some p -> 0 <= p <= 32.
Proof.
  unfold _make_netmask. destruct mask as [arg |].
  - unfold _prefix_from_prefix_string, _prefix_from_ip_string.
    cbn [max_prefixlen].
    assert (Hip : match _ip_int_from_string arg with
                  | Some ip_int =>
                      match _prefix_from_ip_int IPv4 ip_int with
                      | Some prefixlen => Some prefixlen
                      | None =>
                          _prefix_from_ip_int IPv4
                            (Z.lxor ip_int (ALL_ONES IPv4))
                      end
                  | None => None
                  end = Some p -> 0 <= p <= 32).
    { destruct (_ip_int_from_string arg) as [x |]; [| discriminate].
      destruct (_prefix_from_ip_int IPv4 x) as [q |] eqn:Hq.
      - intros [= <-]. now apply prefix_from_ip_int_range in Hq.
      - apply prefix_from_ip_int_range. }
    destruct (negb (PyStr.isascii arg && PyStr.isdigit arg)); [exact Hip |].
    destruct ((0 <=? PyStr.int arg) && (PyStr.int arg <=? 32)) eqn:Hr;
      cbn [negb]; [| exact Hip].
    intros [= <-]. apply andb_true_iff in Hr. lia.
  - cbn. intros [= <-]. lia.
Qed.

(** Every network that [IPv4Network] builds is well formed. *)
Lemma IPv4Network_wf s n : IPv4Network s = Some n -> wf_network n.
Proof.
  unfold IPv4Network.
  destruct (_split_addr_prefix s) as [[addr mask] |]; [| discriminate].
  destruct (_ip_int_from_string addr) as [packed |] eqn:Hpacked;
    [| discriminate].
  destruct (_make_netmask mask) as [p |] eqn:Hp; [| discriminate].
  intros [= <-]. apply ip_int_from_string_range in Hpacked.
  apply make_netmask_range in Hp.
  set (m := _ip_int_from_prefix IPv4 p).
  assert (Hland : (if negb (Z.land packed m =? packed)
                   then Z.land packed m else packed) = Z.land packed m).
  { destruct (Z.eqb_spec (Z.land packed m) packed) as [-> | _]; reflexivity. }
  rewrite Hland. unfold wf_network, netmask.
  cbn [version prefixlen network_address max_prefixlen]. fold m.
  split; [assumption |]. split.
  - unfold m. rewrite land_netmask by (cbn [max_prefixlen]; lia).
    cbn [max_prefixlen].
    assert (0 < 2 ^ (32 - p)) by (apply Z.pow_pos_nonneg; lia).
    pose proof (Z.mul_div_le packed (2 ^ (32 - p)) ltac:(lia)).
    assert (0 <= packed / 2 ^ (32 - p)) by (apply Z.div_pos; lia).
    nia.
  - now rewrite <- Z.land_assoc, Z.land_diag.
Qed.

End Parsed.

(* ================================================================== *)
(** * Parsed IPv4 text is a token *)
(* ================================================================== *)

Section ParsedText.

Lemma split_nonempty sep s : PyStr.split sep s <> [].
Proof.
  destruct s as [| c s]; cbn [PyStr.split]; [discriminate |].
  destruct (Ascii.eqb c sep); [discriminate |].
  destruct (PyStr.split sep s); discriminate.
Qed.

(** When every part between separators is made of [q] characters, the text
    is made of [q] characters and separators. *)
Lemma split_forall_chars (p q : ascii -> bool) sep s :
  (forall c, q c = true -> p c = true) -> p sep = true ->
  Forall (fun part => PyStr.forall_chars q part = true) (PyStr.split sep s) ->
  PyStr.forall_chars p s = true.
Proof.
  intros Hqp Hsep. induction s as [| c s IH]; [reflexivity |].
  cbn [PyStr.split PyStr.forall_chars].
  destruct (Ascii.eqb_spec c sep) as [-> | Hne].
  - intros H. inversion H; subst. rewrite Hsep. now apply IH.
  - destruct (PyStr.split sep s) as [| x xs] eqn:Hsplit.
    + now destruct (split_nonempty sep s).
    + intros H. inversion H as [| ? ? Hx Hxs]; subst.
      chars_cons Hx Hc Hx'. rewrite (Hqp c Hc).
      apply IH. now constructor.
Qed.

Lemma parse_octet_digits o z :
  _parse_octet o = Some z -> PyStr.forall_chars PyStr.isdecimal o = true.
Proof.
  unfold _parse_octet.
  destruct (String.eqb o ""); [discriminate |].
  destruct (PyStr.isascii o && PyStr.isdigit o) eqn:Hd; [| discriminate].
  intros _. now apply isascii_isdigit_decimal.
Qed.

Lemma from_octets_digits octets : forall acc z,
  from_octets acc octets = Some z ->
  Forall (fun o => PyStr.forall_chars PyStr.isdecimal o = true) octets.
Proof.
  induction octets as [| o octets IH]; intros acc z H; [constructor |].
  cbn [from_octets] in H.
  destruct (_parse_octet o) as [b |] eqn:Hb; [| discriminate].
  constructor; [now apply parse_octet_digits in Hb | now apply IH in H].
Qed.

Lemma ip_int_from_string_dotted s z :
  _ip_int_from_string s = Some z -> PyStr.forall_chars dotted s = true.
Proof.
  unfold _ip_int_from_string.
  destruct (String.eqb s ""); [discriminate |].
  destruct (negb _); [discriminate |]. intros H.
  apply from_octets_digits in H.
  apply (split_forall_chars dotted PyStr.isdecimal "." s);
    [| reflexivity | assumption].
  intros c Hc. unfold dotted. now rewrite Hc.
Qed.

Lemma make_netmask_dotted m p :
  _make_netmask (Some m) = Some p -> PyStr.forall_chars dotted m = true.
Proof.
  unfold _make_netmask, _prefix_from_prefix_string, _prefix_from_ip_string.
  assert (Hip : match _ip_int_from_string m with
                | Some ip_int =>
                    match _prefix_from_ip_int IPv4 ip_int with
                    | Some prefixlen => Some prefixlen
                    | None =>
                        _prefix_from_ip_int IPv4 (Z.lxor ip_int (ALL_ONES IPv4))
                    end
                | None => None
                end = Some p -> PyStr.forall_chars dotted m = true).
  { destruct (_ip_int_from_string m) as [x |] eqn:Hx; [| discriminate].
    intros _. now apply ip_int_from_string_dotted in Hx. }
  destruct (PyStr.isascii m && PyStr.isdigit m) eqn:Hd; cbn [negb];
    [| exact Hip].
  destruct (negb _); [exact Hip |]. intros _.
  apply isascii_isdigit_decimal in Hd. revert Hd.
  apply forall_chars_impl. intros c Hc. unfold dotted. now rewrite Hc.
Qed.

(** Text that [IPv4Network] accepts is made of digits, dots and at most one
    slash: it holds no white space. *)
Lemma IPv4Network_token s n : IPv4Network s = Some n -> token s = true.
Proof.
  unfold IPv4Network, _split_addr_prefix.
  destruct (2 <? List.length (PyStr.split "/" s))%nat; [discriminate |].
  destruct (PyStr.split "/" s) as [| a [| m [| ? ?]]] eqn:Hsplit;
    try discriminate.
  - destruct (_ip_int_from_string a) as [packed |] eqn:Ha; [| discriminate].
    intros _. apply ip_int_from_string_dotted in Ha.
    assert (Hs : PyStr.forall_chars slashed s = true).
    { apply (split_forall_chars slashed dotted "/" s); [| reflexivity |].
      - intros c Hc. unfold slashed. now rewrite Hc.
      - rewrite Hsplit. now repeat constructor. }
    revert Hs. apply forall_chars_impl. intros c Hc.
    destruct (PyStr.isspace c) eqn:Hsp; [| reflexivity].
    destruct c as [[] [] [] [] [] [] [] []]; discriminate.
  - destruct (_ip_int_from_string a) as [packed |] eqn:Ha; [| discriminate].
    destruct (_make_netmask (Some m)) as [p |] eqn:Hm; [| discriminate].
    intros _. apply ip_int_from_string_dotted in Ha.
    apply make_netmask_dotted in Hm.
    assert (Hs : PyStr.forall_chars slashed s = true).
    { apply (split_forall_chars slashed dotted "/" s); [| reflexivity |].
      - intros c Hc. unfold slashed. now rewrite Hc.
      - rewrite Hsplit. now repeat constructor. }
    revert Hs. apply forall_chars_impl. intros c Hc.
    destruct (PyStr.isspace c) eqn:Hsp; [| reflexivity].
    destruct c as [[] [] [] [] [] [] [] []]; discriminate.
Qed.

End ParsedText.

(* ================================================================== *)
(** * More on overlapping networks *)
(* ================================================================== *)

Section Nesting.

(** A strictly smaller multiple of the block size leaves room for a whole
    block. *)
Lemma aligned_blocks_room ka m B :
  0 < B -> ka * B < m * B -> ka * B + B <= m * B.
Proof.
  intros HB H.
  assert (ka < m) by (apply Z.mul_lt_mono_pos_r with (p := B); assumption).
  replace (ka * B + B) with ((ka + 1) * B) by ring.
  apply Z.mul_le_mono_nonneg_r; lia.
Qed.

(** Of two overlapping networks, the one with the longer prefix lies
    within the other. *)
Lemma overlaps_within a b :
  wf_network a -> wf_network b -> overlaps a b = true ->
  prefixlen b <= prefixlen a ->
  first_address b <= first_address a /\ last_address a <= last_address b.
Proof.
  intros Ha Hb Hov Hle.
  pose proof (overlaps_version a b Hov) as Hv.
  apply (overlaps_same_version a b Ha Hb Hv) in Hov. destruct Hov as [H1 H2].
  pose proof (wf_last a Ha) as Ela. pose proof (wf_last b Hb) as Elb.
  pose proof (wf_first_aligned a Ha) as Ala.
  pose proof (wf_first_aligned b Hb) as Alb.
  destruct Ha as (Hpa & _ & _), Hb as (Hpb & _ & _).
  pose proof (block_pos a Hpa) as HBa. pose proof (block_pos b Hpb) as HBb.
  pose proof (block_divides a b Hv Hpa Hpb Hle) as Hdiv.
  assert (Hc : 0 < 2 ^ (prefixlen a - prefixlen b))
    by (apply Z.pow_pos_nonneg; lia).
  set (ka := first_address a / block a) in *.
  set (kb := first_address b / block b) in *.
  set (c := 2 ^ (prefixlen a - prefixlen b)) in *.
  assert (Hlow : first_address b <= first_address a).
  { rewrite Ala, Alb, Hdiv. apply aligned_blocks_nested; try assumption.
    rewrite <- Hdiv, <- Ala, <- Alb. lia. }
  split; [exact Hlow |].
  assert (Hroom : ka * block a + block a <= (kb * c + c) * block a).
  { apply aligned_blocks_room; [assumption |].
    replace ((kb * c + c) * block a) with (kb * (block a * c) + block a * c)
      by ring.
    rewrite <- Hdiv, <- Ala, <- Alb. lia. }
  replace ((kb * c + c) * block a) with (kb * (block a * c) + block a * c)
    in Hroom by ring.
  rewrite <- Hdiv, <- Ala, <- Alb in Hroom. lia.
Qed.

End Nesting.

(** X1. Two well-formed networks that conflict are nested: the one with the
    longer prefix lies within the range of the other, so two blocks never
    overlap in part. *)
Theorem subnets_conflict_nested (a b : Network) :
  wf_network a -> wf_network b -> subnets_conflict a b = true ->
  (prefixlen b <= prefixlen a ->
     first_address b <= first_address a /\ last_address a <= last_address b) /\
  (prefixlen a <= prefixlen b ->
     first_address a <= first_address b /\ last_address b <= last_address a).
Proof.
  intros Ha Hb Hov. unfold subnets_conflict in Hov. split; intros Hle.
  - now apply overlaps_within.
  - apply overlaps_within; try assumption. now rewrite overlaps_sym.
Qed.

(** X2. Every well-formed network conflicts with itself. *)
Theorem subnets_conflict_reflexive (a : Network) :
  wf_network a -> subnets_conflict a a = true.
Proof.
  intros Ha. unfold subnets_conflict.
  apply (overlaps_same_version a a Ha Ha eq_refl).
  rewrite (wf_last a Ha). pose proof (block_pos a (proj1 Ha)). lia.
Qed.

(** X3. [check_address_format] accepts exactly the texts that hold the
    shape somewhere: any text before and after it is let through. *)
Theorem check_address_format_accepts (s : string) :
  check_address_format s = true <->
  exists pre m post, s = pre ++ m ++ post /\ cidr_shape m.
Proof. exact (check_address_format_search s). Qed.

(* ================================================================== *)
(** * More on adding *)
(* ================================================================== *)

Section AddingMore.

Lemma add_subnet_reserved_loop_false reserved_list r cidr :
  ip_network (cidr_string r) = Ok cidr ->
  Forall (fun reserved =>
            exists other, ip_network reserved = Ok other /\
                          subnets_conflict cidr other = false)
         reserved_list ->
  add_subnet_reserved_loop reserved_list r = Ok false.
Proof.
  intros Hcidr H. induction H as [| reserved rest (other & Ho & Hc) _ IH];
    [reflexivity |].
  cbn [add_subnet_reserved_loop]. rewrite Hcidr. cbn [rbind].
  rewrite Ho. cbn [rbind]. now rewrite Hc.
Qed.

(** Answers that are neither ["Y"] nor ["n"] are read and asked again. *)
Lemma add_subnet_verify_loop_skip junk tail : forall out,
  Forall (fun a => is_answer a = false) junk ->
  exists out',
    add_subnet_verify_loop (junk ++ tail) out =
    add_subnet_verify_loop tail out'.
Proof.
  induction junk as [| a junk IH]; intros out Hjunk.
  - now exists out.
  - inversion Hjunk as [| ? ? Ha Hrest]; subst.
    unfold is_answer in Ha. apply orb_false_iff in Ha. destruct Ha as [HY Hn].
    cbn [List.app add_subnet_verify_loop]. rewrite HY, Hn.
    now apply IH.
Qed.

Lemma add_subnet_verify_skip junk tail inv out :
  Forall (fun a => is_answer a = false) junk ->
  exists out',
    add_subnet_verify (world inv (junk ++ tail) out) =
    add_subnet_verify (world inv tail out').
Proof.
  intros Hjunk. unfold add_subnet_verify, world. cbn [inventory stdin stdout].
  destruct (add_subnet_verify_loop_skip junk tail out Hjunk) as [out' Hout'].
  exists out'. now rewrite Hout'.
Qed.

(** [add_subnet] up to the question, on a store where something overlaps. *)
Lemma add_subnet_reaches_question records r cidr w :
  wf_store records = true -> Forall parses records ->
  inventory w = Some (inventory_text records) ->
  ip_network (cidr_string r) = Ok cidr -> unreserved cidr ->
  filter (overlapping cidr) records <> [] ->
  add_subnet r w =
  bind add_subnet_verify
       (fun proceed : bool =>
          if proceed
          then bind (open_append (to_add r))
                 (fun _ => print ("Subnet added to inventory: " ++ to_add r))
          else ret tt) w.
Proof.
  intros Hwf Hp Hinv Hcidr Hres Hsome.
  unfold add_subnet. unfold bind at 1, lift at 1.
  rewrite (add_subnet_reserved_loop_false _ r cidr Hcidr Hres).
  unfold bind at 1, lift at 1. rewrite Hcidr.
  unfold bind at 1.
  unfold check_inventory_for_conflicts, bind at 1, open_readlines, lift.
  rewrite Hinv, readlines_inventory_text by assumption.
  rewrite check_inventory_for_conflicts_loop_store by assumption.
  cbn [List.app].
  destruct (filter (overlapping cidr) records); [congruence | reflexivity].
Qed.

Lemma check_subnet_by_address_store records c w :
  wf_store records = true -> stored w records ->
  check_subnet_by_address c w =
  (Ok (existsb (fun r => String.eqb (cidr_string r) c) records), w).
Proof.
  intros Hwf Hst. unfold stored in Hst.
  unfold check_subnet_by_address, bind, attempt, open_readlines, lift, ret.
  destruct (inventory w) as [text |].
  - subst text. rewrite readlines_inventory_text by assumption.
    now rewrite check_subnet_by_address_loop_store.
  - subst records. reflexivity.
Qed.

End AddingMore.

(** X4. Whatever the record and the world, [add_subnet] leaves the file as
    it was or with the line of the record put at its end; it never creates
    a missing file. *)
Theorem add_subnet_only_appends (r : Subnet) (w : World) :
  match inventory w with
  | Some text =>
      inventory (snd (add_subnet r w)) = Some text \/
      inventory (snd (add_subnet r w)) = Some (text ++ to_add r)
  | None => inventory (snd (add_subnet r w)) = None
  end.
Proof. exact (add_subnet_inventory r w). Qed.

(** X5. A record whose network overlaps no reserved range and no stored
    record goes to the end of the store without a question: standard input
    is not read. *)
Theorem add_subnet_free_address
    (records : list Subnet) (r : Subnet) (cidr : Network) (w : World) :
  wf_store records = true -> Forall parses records ->
  inventory w = Some (inventory_text records) ->
  ip_network (cidr_string r) = Ok cidr -> unreserved cidr ->
  (forall x, In x records -> overlapping cidr x = false) ->
  add_subnet r w =
  (Ok tt,
   world (Some (inventory_text (records ++ [r]))) (stdin w)
         (stdout w ++ [printed ("Subnet added to inventory: " ++ to_add r)])).
Proof.
  intros Hwf Hp Hinv Hcidr Hres Hnone.
  apply (add_subnet_appends records r cidr w); try assumption.
  - now apply add_subnet_reserved_loop_false with (cidr := cidr).
  - clear - Hnone. induction records as [| x xs IH]; [reflexivity |].
    cbn [filter]. rewrite (Hnone x (or_introl eq_refl)).
    apply IH. intros y Hy. apply Hnone. now right.
Qed.

(** X6. A record whose network overlaps a stored one, and no reserved
    range, is decided by the first answer that is ["Y"] or ["n"]: the
    answers before it are read and asked again, ["Y"] puts the record at the
    end of the store, ["n"] leaves the store as it was, and the answers after
    it stay unread; when no such answer comes the call ends in [EOFError]
    with the store as it was. *)
Theorem add_subnet_decided_by_answer
    (records : list Subnet) (r : Subnet) (cidr : Network)
    (junk : list string) (w : World) :
  wf_store records = true -> Forall parses records ->
  inventory w = Some (inventory_text records) ->
  ip_network (cidr_string r) = Ok cidr -> unreserved cidr ->
  (exists x, In x records /\ overlapping cidr x = true) ->
  Forall (fun a => is_answer a = false) junk ->
  (forall rest, stdin w = (junk ++ "Y" :: rest)%list ->
     fst (add_subnet r w) = Ok tt /\
     stdin (snd (add_subnet r w)) = rest /\
     inventory (snd (add_subnet r w)) =
       Some (inventory_text (records ++ [r]))) /\
  (forall rest, stdin w = (junk ++ "n" :: rest)%list ->
     fst (add_subnet r w) = Ok tt /\
     stdin (snd (add_subnet r w)) = rest /\
     inventory (snd (add_subnet r w)) = Some (inventory_text records)) /\
  (stdin w = junk ->
     fst (add_subnet r w) = Raise EOFError /\
     stdin (snd (add_subnet r w)) = [] /\
     inventory (snd (add_subnet r w)) = Some (inventory_text records)).
Proof.
  intros Hwf Hp Hinv Hcidr Hres (x & Hx & Hov) Hjunk.
  assert (Hsome : filter (overlapping cidr) records <> []).
  { intros Hnil. assert (Hin : In x (filter (overlapping cidr) records))
      by (apply filter_In; now split).
    rewrite Hnil in Hin. destruct Hin. }
  rewrite (add_subnet_reaches_question records r cidr w
             Hwf Hp Hinv Hcidr Hres Hsome).
  assert (Hw : forall ins, stdin w = ins ->
                 w = world (inventory w) ins (stdout w))
    by (intros ins <-; destruct w; reflexivity).
  split; [| split].
  - intros rest Hin. rewrite (Hw _ Hin). unfold bind.
    destruct (add_subnet_verify_skip junk ("Y" :: rest) (inventory w)
                (stdout w) Hjunk) as [out' ->].
    cbn. now rewrite Hinv, inventory_text_snoc.
  - intros rest Hin. rewrite (Hw _ Hin). unfold bind.
    destruct (add_subnet_verify_skip junk ("n" :: rest) (inventory w)
                (stdout w) Hjunk) as [out' ->].
    cbn. now rewrite Hinv.
  - intros Hin. rewrite (Hw _ Hin). unfold bind.
    rewrite <- (app_nil_r junk).
    destruct (add_subnet_verify_skip junk [] (inventory w)
                (stdout w) Hjunk) as [out' ->].
    cbn. now rewrite Hinv.
Qed.

(** X7. A stored address that [ip_network] rejects stops the search for
    conflicts at its line with [ValueError], and with it every add of a
    record that is not refused as reserved; the file stays as it was. *)
Theorem unparsable_record_blocks
    (before after : list Subnet) (bad r : Subnet) (cidr : Network)
    (w : World) :
  wf_store (before ++ bad :: after) = true -> Forall parses before ->
  ip_network (cidr_string bad) = Raise ValueError ->
  inventory w = Some (inventory_text (before ++ bad :: after)) ->
  check_inventory_for_conflicts cidr w = (Raise ValueError, w) /\
  (ip_network (cidr_string r) = Ok cidr -> unreserved cidr ->
   add_subnet r w = (Raise ValueError, w)).
Proof.
  intros Hwf Hp Hbad Hinv.
  assert (Hloop : forall acc,
             check_inventory_for_conflicts_loop
               (map to_add (before ++ bad :: after)) cidr acc =
             Raise ValueError).
  { clear Hinv. induction before as [| x xs IH]; intros acc.
    - cbn [List.app] in *. apply wf_store_cons in Hwf.
      destruct Hwf as [Hr _].
      destruct (wf_record_parts bad Hr) as [_ Hc].
      cbn [map check_inventory_for_conflicts_loop].
      rewrite rsplit1_to_add by assumption. cbn [index nth_error rbind].
      rewrite strip_token_LF by assumption. now rewrite Hbad.
    - cbn [List.app] in *. apply wf_store_cons in Hwf.
      destruct Hwf as [Hr Hs].
      inversion Hp as [| ? ? [other Hother] Hp']; subst.
      destruct (wf_record_parts x Hr) as [_ Hc].
      cbn [map check_inventory_for_conflicts_loop].
      rewrite rsplit1_to_add by assumption. cbn [index nth_error rbind].
      rewrite strip_token_LF by assumption. rewrite Hother. cbn [rbind].
      destruct (subnets_conflict cidr other); now apply IH. }
  assert (Hcheck : check_inventory_for_conflicts cidr w =
                   (Raise ValueError, w)).
  { unfold check_inventory_for_conflicts, bind, open_readlines, lift.
    rewrite Hinv, readlines_inventory_text by assumption.
    now rewrite Hloop. }
  split; [exact Hcheck |].
  intros Hcidr Hres. unfold add_subnet. unfold bind at 1, lift at 1.
  rewrite (add_subnet_reserved_loop_false _ r cidr Hcidr Hres).
  unfold bind at 1, lift at 1. rewrite Hcidr.
  unfold bind at 1. now rewrite Hcheck.
Qed.

(** X8. When [add_subnet] has changed the file of a store of well-formed
    records, the record is found afterwards: both lookups by name and the
    lookup by address text answer true. *)
Theorem add_subnet_then_found
    (records : list Subnet) (r : Subnet) (w : World) :
  wf_store records = true -> wf_record r = true ->
  inventory w = Some (inventory_text records) ->
  inventory (snd (add_subnet r w)) <> inventory w ->
  let w1 := snd (add_subnet r w) in
  names_conflict (name r) w1 = (Ok true, w1) /\
  check_subnet_by_name (name r) w1 = (Ok true, w1) /\
  check_subnet_by_address (cidr_string r) w1 = (Ok true, w1).
Proof.
  intros Hwf Hr Hinv Hchanged w1.
  pose proof (add_subnet_inventory r w) as Hadd. rewrite Hinv in Hadd.
  fold w1 in Hadd, Hchanged.
  destruct Hadd as [H | H]; [congruence |].
  rewrite <- inventory_text_snoc in H.
  assert (Hwf' : wf_store (records ++ [r]) = true).
  { unfold wf_store in *. rewrite forallb_app, Hwf. cbn. now rewrite Hr. }
  assert (Hst : stored w1 (records ++ [r])) by (unfold stored; now rewrite H).
  split; [| split].
  - rewrite (names_conflict_store _ (name r) w1 Hwf' H).
    rewrite existsb_app. cbn. now rewrite String.eqb_refl, orb_true_r.
  - rewrite (check_subnet_by_name_store _ (name r) w1 Hwf' Hst).
    rewrite existsb_app. cbn. now rewrite String.eqb_refl, orb_true_r.
  - rewrite (check_subnet_by_address_store _ (cidr_string r) w1 Hwf' Hst).
    rewrite existsb_app. cbn. now rewrite String.eqb_refl, orb_true_r.
Qed.

(* ================================================================== *)
(** * Lookups on any file *)
(* ================================================================== *)

Section AnyFile.

Lemma rpartition_None sep s :
  PyStr.rpartition sep s = None -> lacks sep s = true.
Proof.
  unfold lacks. induction s as [| c s IH]; [reflexivity |].
  cbn [PyStr.rpartition PyStr.forall_chars].
  destruct (PyStr.rpartition sep s) as [[h t] |]; [discriminate |].
  destruct (Ascii.eqb c sep); [discriminate |].
  intros _. now rewrite IH.
Qed.

Lemma rpartition_Some sep s : forall h t,
  PyStr.rpartition sep s = Some (h, t) ->
  s = h ++ String sep t /\ lacks sep t = true.
Proof.
  induction s as [| c s IH]; intros h t; [discriminate |].
  cbn [PyStr.rpartition].
  destruct (PyStr.rpartition sep s) as [[h' t'] |] eqn:Hs.
  - intros [= <- <-]. destruct (IH h' t' eq_refl) as [-> Ht].
    split; [reflexivity | assumption].
  - destruct (Ascii.eqb_spec c sep) as [-> | _]; [| discriminate].
    intros [= <- <-]. split; [reflexivity |]. now apply rpartition_None.
Qed.

Lemma lacks_separator sep h t : lacks sep (h ++ String sep t) = false.
Proof.
  unfold lacks. rewrite forall_chars_append. cbn [PyStr.forall_chars].
  rewrite Ascii.eqb_refl. cbn [negb andb]. apply andb_false_r.
Qed.

(** Item [0] of [rsplit] is [n] exactly when the line gives the name [n]. *)
Lemma index_0_line_names n line :
  index (PyStr.rsplit1 line SP) 0 = Ok n <-> line_names n line.
Proof.
  unfold PyStr.rsplit1, line_names.
  destruct (PyStr.rpartition SP line) as [[h t] |] eqn:Hp; cbn.
  - apply rpartition_Some in Hp. destruct Hp as [-> Ht]. split.
    + intros [= ->]. left. now exists t.
    + intros [(t' & Heq & Ht') | [Heq Hn]].
      * assert (Hsame : PyStr.rpartition SP (h ++ String SP t) =
                        PyStr.rpartition SP (n ++ String SP t'))
          by now rewrite Heq.
        rewrite !rpartition_last in Hsame by assumption. congruence.
      * exfalso. rewrite <- Heq, lacks_separator in Hn. discriminate.
  - apply rpartition_None in Hp. split.
    + intros [= ->]. now right.
    + intros [(t' & Heq & Ht') | [Heq Hn]]; [| now subst].
      exfalso. rewrite Heq, lacks_separator in Hp. discriminate.
Qed.

Lemma names_conflict_loop_any lines n :
  exists b,
    names_conflict_loop lines n = Ok b /\
    (b = true <-> exists line, In line lines /\ line_names n line).
Proof.
  induction lines as [| line lines (b & Hrun & Hb)].
  - exists false. split; [reflexivity |].
    split; [discriminate | intros (l & [] & _)].
  - cbn [names_conflict_loop].
    destruct (rsplit1_head line SP) as [h Hh]. rewrite Hh. cbn [rbind].
    destruct (String.eqb_spec n h) as [<- | Hne].
    + exists true. split; [reflexivity |]. split; [| reflexivity].
      intros _. exists line. split; [now left |].
      now apply index_0_line_names.
    + exists b. split; [assumption |]. rewrite Hb. split.
      * intros (l & Hin & Hl). exists l. split; [now right | assumption].
      * intros (l & [<- | Hin] & Hl); [| now exists l].
        apply index_0_line_names in Hl. congruence.
Qed.

Lemma check_subnet_by_address_loop_app records rest c :
  wf_store records = true ->
  check_subnet_by_address_loop (map to_add records ++ rest) c =
  if existsb (fun r => String.eqb (cidr_string r) c) records then Ok true
  else check_subnet_by_address_loop rest c.
Proof.
  induction records as [| r records IH]; [reflexivity |].
  intros H. apply wf_store_cons in H. destruct H as [Hr Hs].
  cbn [map List.app check_subnet_by_address_loop existsb].
  rewrite rsplit1_to_add by assumption. cbn [index nth_error rbind].
  destruct (wf_record_parts r Hr) as [_ Hc].
  rewrite strip_token_LF by assumption.
  destruct (String.eqb (cidr_string r) c); [reflexivity |].
  now apply IH.
Qed.

Lemma display_inventory_loop_store records : forall w,
  wf_store records = true ->
  display_inventory_loop (map to_add records) w =
  (Ok tt,
   world (inventory w) (stdin w) (stdout w ++ map displayed records)).
Proof.
  induction records as [| r records IH]; intros w Hwf.
  - cbn. rewrite app_nil_r. destruct w; reflexivity.
  - apply wf_store_cons in Hwf. destruct Hwf as [Hr Hs].
    destruct (wf_record_parts r Hr) as [_ Hc].
    cbn [map display_inventory_loop].
    rewrite rsplit1_to_add by assumption.
    unfold bind, lift. cbn [index nth_error].
    rewrite strip_token_LF by assumption.
    unfold print at 1. rewrite IH by assumption.
    cbn [inventory stdin stdout]. rewrite <- app_assoc. reflexivity.
Qed.

End AnyFile.

(** X9. On every existing file, whatever its lines, the two lookups by
    name return without an error and leave the world as it was, and they
    answer true exactly when some line gives the name: the name is what
    stands before the last space of a line, or the whole line, line end
    included, when the line has no space. *)
Theorem name_lookups_any_file (n text : string) (w : World) :
  inventory w = Some text ->
  exists b : bool,
    names_conflict n w = (Ok b, w) /\
    check_subnet_by_name n w = (Ok b, w) /\
    (b = true <->
       exists line, In line (readlines text) /\ line_names n line).
Proof.
  intros Hinv.
  destruct (names_conflict_loop_any (readlines text) n) as (b & Hrun & Hb).
  exists b. split; [| split; [| exact Hb]].
  - unfold names_conflict, bind, open_readlines, lift.
    now rewrite Hinv, Hrun.
  - unfold check_subnet_by_name, bind, attempt, open_readlines, lift.
    now rewrite Hinv, name_loops_agree, Hrun.
Qed.

(** X10. A line without a space, such as an empty line, makes
    [check_subnet_by_address] raise [IndexError] when no line before it
    holds the address asked for; when one does, the answer is true and the
    line is never reached. *)
Theorem check_subnet_by_address_spaceless_line
    (records : list Subnet) (bad : string) (after : list string)
    (c text : string) (w : World) :
  inventory w = Some text ->
  readlines text = (map to_add records ++ bad :: after)%list ->
  wf_store records = true -> lacks SP bad = true ->
  check_subnet_by_address c w =
  (if existsb (fun r => String.eqb (cidr_string r) c) records
   then Ok true else Raise IndexError, w).
Proof.
  intros Hinv Hlines Hwf Hbad.
  unfold check_subnet_by_address, bind, attempt, open_readlines, lift, ret.
  rewrite Hinv, Hlines, check_subnet_by_address_loop_app by assumption.
  destruct (existsb _ records); [reflexivity |].
  cbn [check_subnet_by_address_loop]. unfold PyStr.rsplit1.
  now rewrite (rpartition_lacks SP bad Hbad).
Qed.

(** X11. On a store of well-formed records, [display_inventory] prints the
    heading and then one line [name - address] for each record, in the
    order of the store, and leaves the file and standard input as they
    were. *)
Theorem display_inventory_prints (records : list Subnet) (w : World) :
  wf_store records = true ->
  inventory w = Some (inventory_text records) ->
  display_inventory w =
  (Ok tt,
   world (inventory w) (stdin w)
         (stdout w ++
          printed "Subnet Name - Subnet Address" :: map displayed records)).
Proof.
  intros Hwf Hinv. unfold display_inventory, bind, open_readlines.
  rewrite Hinv, readlines_inventory_text by assumption.
  unfold print at 1. rewrite display_inventory_loop_store by assumption.
  cbn [inventory stdin stdout]. rewrite Hinv, <- app_assoc. reflexivity.
Qed.

(* ================================================================== *)
(** * Deleting from any file *)
(* ================================================================== *)

Section DeleteAnyFile.

Lemma universal_newlines_cons c s :
  PyStr.universal_newlines (String c s) =
  if Ascii.eqb c PyStr.CR then
    match s with
    | String c' s'' =>
        if Ascii.eqb c' PyStr.LF
        then String PyStr.LF (PyStr.universal_newlines s'')
        else String PyStr.LF (PyStr.universal_newlines s)
    | EmptyString => String PyStr.LF EmptyString
    end
  else String c (PyStr.universal_newlines s).
Proof. destruct s; reflexivity. Qed.

(** Universal newlines leave no carriage return. *)
Lemma universal_newlines_no_CR_aux s :
  lacks PyStr.CR (PyStr.universal_newlines s) = true /\
  forall c, lacks PyStr.CR (PyStr.universal_newlines (String c s)) = true.
Proof.
  induction s as [| c' s [IH1 IH2]].
  - split; [reflexivity |]. intros c. rewrite universal_newlines_cons.
    destruct (Ascii.eqb c PyStr.CR) eqn:Hc; [reflexivity |].
    unfold lacks. cbn [PyStr.forall_chars PyStr.universal_newlines].
    now rewrite Hc.
  - split; [apply IH2 |]. intros c. rewrite universal_newlines_cons.
    destruct (Ascii.eqb c PyStr.CR) eqn:Hc.
    + destruct (Ascii.eqb c' PyStr.LF) eqn:Hc'.
      * unfold lacks in *. cbn [PyStr.forall_chars]. now rewrite IH1.
      * unfold lacks in *. cbn [PyStr.forall_chars]. now rewrite (IH2 c').
    + unfold lacks in *. cbn [PyStr.forall_chars].
      now rewrite Hc, (IH2 c').
Qed.

Lemma universal_newlines_no_CR s :
  lacks PyStr.CR (PyStr.universal_newlines s) = true.
Proof. apply universal_newlines_no_CR_aux. Qed.

Lemma full_line_cons c l :
  Ascii.eqb c PyStr.LF = false -> Ascii.eqb c PyStr.CR = false ->
  full_line l -> full_line (String c l).
Proof.
  intros HLF HCR (body & -> & H1 & H2). exists (String c body).
  split; [reflexivity |]. unfold lacks in *. cbn [PyStr.forall_chars].
  now rewrite HLF, HCR, H1, H2.
Qed.

Lemma last_line_cons c l :
  Ascii.eqb c PyStr.LF = false -> Ascii.eqb c PyStr.CR = false ->
  l = "" \/ last_line l -> last_line (String c l).
Proof.
  intros HLF HCR H. unfold last_line, lacks in *.
  cbn [PyStr.forall_chars]. rewrite HLF, HCR.
  split; [discriminate |].
  destruct H as [-> | (_ & H1 & H2)]; [split; reflexivity |].
  now rewrite H1, H2.
Qed.

Lemma lines_keepends_proper s :
  lacks PyStr.CR s = true -> proper_lines (PyStr.lines_keepends s).
Proof.
  unfold lacks. induction s as [| c s IH]; [intros _; exact I |].
  intros H. chars_cons H Hc Hs. apply negb_true_iff in Hc.
  specialize (IH Hs). cbn [PyStr.lines_keepends].
  destruct (Ascii.eqb c PyStr.LF) eqn:HLF.
  - cbn [proper_lines]. left. split; [| assumption].
    apply Ascii.eqb_eq in HLF. subst c. now exists "".
  - destruct (PyStr.lines_keepends s) as [| l ls].
    + cbn [proper_lines]. right. split; [| reflexivity].
      apply last_line_cons; auto.
    + cbn [proper_lines] in *. destruct IH as [[Hl Hls] | [Hl ->]].
      * left. split; [| assumption]. now apply full_line_cons.
      * right. split; [| reflexivity]. apply last_line_cons; auto.
Qed.

Lemma readlines_proper text : proper_lines (readlines text).
Proof. apply lines_keepends_proper, universal_newlines_no_CR. Qed.

Lemma proper_lines_filter (p : string -> bool) ls :
  proper_lines ls -> proper_lines (filter p ls).
Proof.
  induction ls as [| l ls IH]; [intros _; exact I |].
  cbn [proper_lines filter]. intros [[Hl Hls] | [Hl ->]].
  - destruct (p l); [| now apply IH].
    cbn [proper_lines]. left. split; [assumption | now apply IH].
  - cbn [filter]. destruct (p l); [| exact I].
    cbn [proper_lines]. now right.
Qed.

Lemma lines_keepends_last_line l :
  last_line l -> PyStr.lines_keepends l = [l].
Proof.
  intros (Hne & HLF & _). unfold lacks in HLF.
  induction l as [| c l IH]; [congruence |].
  chars_cons HLF Hc Hl. apply negb_true_iff in Hc.
  cbn [PyStr.lines_keepends]. rewrite Hc.
  destruct l as [| c' l']; [reflexivity |].
  rewrite IH; [reflexivity | discriminate | assumption].
Qed.

Lemma join_proper_lacks_CR ls :
  proper_lines ls -> lacks PyStr.CR (join ls) = true.
Proof.
  induction ls as [| l ls IH]; [reflexivity |].
  cbn [proper_lines]. unfold join. cbn [fold_right]. fold (join ls).
  unfold lacks. rewrite forall_chars_append.
  intros [[(body & -> & _ & HCR) Hls] | [(_ & _ & HCR) ->]].
  - rewrite forall_chars_append. fold (lacks PyStr.CR body).
    rewrite HCR. cbn [PyStr.forall_chars andb]. now apply IH.
  - fold (lacks PyStr.CR l). now rewrite HCR.
Qed.

Lemma lines_keepends_join ls :
  proper_lines ls -> PyStr.lines_keepends (join ls) = ls.
Proof.
  induction ls as [| l ls IH]; [reflexivity |].
  cbn [proper_lines]. unfold join. cbn [fold_right]. fold (join ls).
  intros [[(body & -> & HLF & _) Hls] | [Hl ->]].
  - rewrite append_assoc. cbn [String.append].
    rewrite lines_keepends_first by assumption. f_equal. now apply IH.
  - cbn [join fold_right]. rewrite append_nil_r.
    now apply lines_keepends_last_line.
Qed.

(** Reading back what was written from proper lines gives the lines. *)
Lemma readlines_join ls : proper_lines ls -> readlines (join ls) = ls.
Proof.
  intros H. unfold readlines.
  rewrite universal_newlines_lacks by now apply join_proper_lacks_CR.
  now apply lines_keepends_join.
Qed.

Lemma filter_twice {A} (p : A -> bool) l :
  filter p (filter p l) = filter p l.
Proof.
  induction l as [| x l IH]; [reflexivity |]. cbn [filter].
  destruct (p x) eqn:Hx; [| exact IH]. cbn [filter]. now rewrite Hx, IH.
Qed.

Lemma filter_swap {A} (p q : A -> bool) l :
  filter p (filter q l) = filter q (filter p l).
Proof.
  induction l as [| x l IH]; [reflexivity |]. cbn [filter].
  destruct (p x) eqn:Hp, (q x) eqn:Hq; cbn [filter];
    rewrite ?Hp, ?Hq, IH; reflexivity.
Qed.

Lemma names_conflict_loop_kept lines n :
  names_conflict_loop (filter (kept n) lines) n = Ok false.
Proof.
  induction lines as [| line lines IH]; [reflexivity |].
  cbn [filter]. destruct (kept n line) eqn:Hk; [| exact IH].
  cbn [names_conflict_loop]. unfold kept in Hk.
  destruct (index (PyStr.rsplit1 line SP) 0) as [h | e]; [| discriminate].
  cbn [rbind]. apply negb_true_iff in Hk.
  rewrite String.eqb_sym, Hk. exact IH.
Qed.

(** The file that [delete_subnet] leaves, whether or not there was one. *)
Lemma delete_subnet_inventory n w :
  inventory (snd (delete_subnet n w)) =
  match inventory w with
  | Some text => Some (join (filter (kept n) (readlines text)))
  | None => None
  end.
Proof.
  destruct (inventory w) as [text |] eqn:Hinv.
  - now rewrite (delete_subnet_file n text w Hinv).
  - unfold delete_subnet, bind, delete_subnet_rewrite. now rewrite Hinv.
Qed.

End DeleteAnyFile.

(** X12. On every existing file, whatever its lines, [delete_subnet]
    returns normally and leaves a file whose lines, read again, are the
    lines read before that are written back, in their order and unchanged.
    A line is left out exactly when it gives the name: the name is all that
    stands before its last space, or, for a line without a space, the whole
    line, line end included; so a line without a space is written back
    unless it is the name as a whole. *)
Theorem delete_subnet_any_file (n text : string) (w : World) :
  inventory w = Some text ->
  fst (delete_subnet n w) = Ok tt /\
  (exists text',
     inventory (snd (delete_subnet n w)) = Some text' /\
     readlines text' = filter (kept n) (readlines text)) /\
  (forall line, kept n line = false <-> line_names n line) /\
  (forall line, lacks SP line = true ->
                kept n line = negb (String.eqb line n)).
Proof.
  intros Hinv. rewrite (delete_subnet_file n text w Hinv). cbn [fst snd].
  split; [reflexivity |]. split; [| split].
  - eexists. split; [reflexivity |].
    apply readlines_join, proper_lines_filter, readlines_proper.
  - intros line. rewrite <- index_0_line_names. unfold kept.
    destruct (rsplit1_head line SP) as [h ->]. rewrite negb_false_iff.
    split.
    + intros H. apply String.eqb_eq in H. now subst.
    + intros [= ->]. apply String.eqb_refl.
  - intros line Hline. unfold kept, PyStr.rsplit1.
    now rewrite (rpartition_lacks SP line Hline).
Qed.

(** X13. After [delete_subnet] on an existing file, neither lookup by name
    finds the deleted name, whatever the file held. *)
Theorem delete_subnet_then_absent (n text : string) (w : World) :
  inventory w = Some text ->
  let w1 := snd (delete_subnet n w) in
  names_conflict n w1 = (Ok false, w1) /\
  check_subnet_by_name n w1 = (Ok false, w1).
Proof.
  intros Hinv w1.
  assert (H1 : inventory w1 =
               Some (join (filter (kept n) (readlines text))))
    by (unfold w1; now rewrite delete_subnet_inventory, Hinv).
  assert (Hlines : readlines (join (filter (kept n) (readlines text))) =
                   filter (kept n) (readlines text))
    by apply readlines_join, proper_lines_filter, readlines_proper.
  split.
  - unfold names_conflict, bind, open_readlines, lift.
    now rewrite H1, Hlines, names_conflict_loop_kept.
  - unfold check_subnet_by_name, bind, attempt, open_readlines, lift.
    now rewrite H1, Hlines, name_loops_agree, names_conflict_loop_kept.
Qed.

(** X14. Deleting a name twice leaves the file that deleting it once
    leaves, and two deletions leave the same file in either order; this
    holds for every world, with or without a file. *)
Theorem delete_subnet_idempotent_commutes (a b : string) (w : World) :
  inventory (snd (delete_subnet a (snd (delete_subnet a w)))) =
    inventory (snd (delete_subnet a w)) /\
  inventory (snd (delete_subnet a (snd (delete_subnet b w)))) =
    inventory (snd (delete_subnet b (snd (delete_subnet a w)))).
Proof.
  rewrite !delete_subnet_inventory.
  destruct (inventory w) as [text |]; [| split; reflexivity].
  rewrite !readlines_join
    by apply proper_lines_filter, readlines_proper.
  now rewrite filter_twice, (filter_swap (kept a) (kept b)).
Qed.

(* ================================================================== *)
(** * The command line *)
(* ================================================================== *)

Lemma unchanged_ret {A} (a : A) : unchanged (ret a).
Proof. intros w. reflexivity. Qed.

Lemma unchanged_lift {A} (r : result A) : unchanged (lift r).
Proof. intros w. reflexivity. Qed.

Lemma unchanged_print s : unchanged (print s).
Proof. intros w. reflexivity. Qed.

Lemma unchanged_input prompt : unchanged (input prompt).
Proof. intros w. unfold input. now destruct (stdin w). Qed.

Lemma unchanged_open_readlines : unchanged open_readlines.
Proof.
  intros w. unfold open_readlines.
  destruct (inventory w) eqn:E; cbn [snd]; now rewrite ?E.
Qed.

Lemma unchanged_bind {A B} (m : M A) (k : A -> M B) :
  unchanged m -> (forall a, unchanged (k a)) -> unchanged (bind m k).
Proof.
  intros Hm Hk w. unfold bind. specialize (Hm w).
  destruct (m w) as [[a | e] w1]; cbn [snd] in *; [| assumption].
  now rewrite Hk.
Qed.

Lemma unchanged_attempt {A} (m : M A) : unchanged m -> unchanged (attempt m).
Proof.
  intros Hm w. unfold attempt. specialize (Hm w).
  now destruct (m w) as [r w1].
Qed.

(** One step of a proof that a computation built from the operations of
    the world leaves the file as it was. *)
Ltac unchanged_step :=
  first
    [ apply unchanged_ret | apply unchanged_lift | apply unchanged_print
    | apply unchanged_input | apply unchanged_open_readlines
    | apply unchanged_attempt
    | apply unchanged_bind; [| intros ?]
    | match goal with
      | |- unchanged (if ?b then _ else _) => destruct b
      | |- unchanged (match ?x with _ => _ end) => destruct x
      end ].

Lemma unchanged_preserves {A} P (m : M A) : unchanged m -> preserves P m.
Proof. intros Hm w Hw. now rewrite Hm. Qed.

Lemma preserves_bind {A B} P (m : M A) (k : A -> M B) :
  preserves P m -> (forall a, preserves P (k a)) -> preserves P (bind m k).
Proof.
  intros Hm Hk w Hw. unfold bind. specialize (Hm w Hw).
  destruct (m w) as [[a | e] w1]; cbn [snd] in *; [| assumption].
  now apply Hk.
Qed.

(** A loop around [input] keeps what every round keeps. *)
Lemma input_loop_preserves {A} P prompt (body : string -> M (option A)) :
  (forall line, preserves P (body line)) ->
  forall pending inv out,
    P inv -> P (inventory (snd (input_loop prompt body pending inv out))).
Proof.
  intros Hbody. induction pending as [| line rest IH]; intros inv out Hinv;
    [exact Hinv |].
  cbn [input_loop].
  pose proof (Hbody line (world inv rest (out ++ [prompt])) Hinv) as Hb.
  destruct (body line _) as [[[a |] | e] w1]; cbn [snd] in *;
    [assumption | | assumption].
  exact (IH _ _ Hb).
Qed.

Lemma while_input_preserves {A} P prompt (body : string -> M (option A)) :
  (forall line, preserves P (body line)) ->
  preserves P (while_input prompt body).
Proof.
  intros Hbody w Hw. unfold while_input.
  exact (input_loop_preserves P prompt body Hbody _ _ _ Hw).
Qed.

Lemma unchanged_names_conflict n : unchanged (names_conflict n).
Proof. unfold names_conflict. repeat unchanged_step. Qed.

Lemma unchanged_check_subnet_by_name n : unchanged (check_subnet_by_name n).
Proof. unfold check_subnet_by_name. repeat unchanged_step. Qed.

Lemma unchanged_check_subnet_by_address c :
  unchanged (check_subnet_by_address c).
Proof. unfold check_subnet_by_address. repeat unchanged_step. Qed.

Lemma unchanged_check_inventory_for_conflicts cidr :
  unchanged (check_inventory_for_conflicts cidr).
Proof. unfold check_inventory_for_conflicts. repeat unchanged_step. Qed.

Lemma unchanged_display_inventory_loop lines :
  unchanged (display_inventory_loop lines).
Proof.
  induction lines as [| line lines IH]; cbn [display_inventory_loop];
    repeat unchanged_step. exact IH.
Qed.

Lemma unchanged_display_inventory : unchanged display_inventory.
Proof.
  unfold display_inventory. repeat unchanged_step.
  apply unchanged_display_inventory_loop.
Qed.

Lemma unchanged_main_print_conflicts conflicts :
  unchanged (main_print_conflicts conflicts).
Proof.
  induction conflicts as [| c conflicts IH]; cbn [main_print_conflicts];
    repeat unchanged_step. exact IH.
Qed.

Lemma unchanged_main_add_name n : unchanged (main_add_name n).
Proof.
  unfold main_add_name. apply unchanged_bind;
    [apply unchanged_names_conflict | intros b].
  destruct (negb b); repeat unchanged_step.
Qed.

Lemma unchanged_main_add_cidr c : unchanged (main_add_cidr c).
Proof.
  unfold main_add_cidr. destruct (check_address_format c);
    [| repeat unchanged_step].
  apply unchanged_bind; [apply unchanged_check_subnet_by_address | intros b].
  destruct (negb b); repeat unchanged_step.
Qed.

Lemma preserves_None_add_subnet r :
  preserves (fun inv => inv = None) (add_subnet r).
Proof.
  intros w Hw. pose proof (add_subnet_inventory r w) as H.
  now rewrite Hw in H.
Qed.

Lemma preserves_None_delete_subnet n :
  preserves (fun inv => inv = None) (delete_subnet n).
Proof. intros w Hw. now rewrite delete_subnet_inventory, Hw. Qed.

Lemma preserves_None_main_delete_confirm n a :
  preserves (fun inv => inv = None) (main_delete_confirm n a).
Proof.
  unfold main_delete_confirm. destruct (String.eqb a "Y").
  - apply preserves_bind; [apply preserves_None_delete_subnet |].
    intros _. apply unchanged_preserves, unchanged_ret.
  - apply unchanged_preserves. repeat unchanged_step.
Qed.

Lemma existsb_false_not_In {A} (f : A -> string) x l :
  existsb (fun r => String.eqb (f r) x) l = false -> ~ In x (map f l).
Proof.
  induction l as [| r l IH]; [intros _ [] |].
  cbn [existsb map In]. rewrite orb_false_iff. intros [Hr Hl] [Heq | Hin].
  - rewrite Heq, String.eqb_refl in Hr. discriminate.
  - now apply IH.
Qed.

Lemma not_In_existsb_false {A} (f : A -> string) x l :
  ~ In x (map f l) -> existsb (fun r => String.eqb (f r) x) l = false.
Proof.
  induction l as [| r l IH]; [reflexivity |].
  cbn [existsb map In]. intros H. apply orb_false_iff. split.
  - apply String.eqb_neq. intros Heq. apply H. now left.
  - apply IH. intros Hin. apply H. now right.
Qed.

(** A loop around [input] whose rounds keep the file and the lines that
    wait: what it returns was accepted by a round, and the lines left are
    lines that waited. *)
Lemma input_loop_accepts {A} (P : string -> Prop) (Q : A -> Prop) text prompt
    (body : string -> M (option A)) :
  (forall line w, P line -> Forall P (stdin w) -> inventory w = Some text ->
     inventory (snd (body line w)) = Some text /\
     Forall P (stdin (snd (body line w))) /\
     forall a, fst (body line w) = Ok (Some a) -> Q a) ->
  forall pending out, Forall P pending ->
    inventory (snd (input_loop prompt body pending (Some text) out)) =
      Some text /\
    Forall P (stdin (snd (input_loop prompt body pending (Some text) out))) /\
    forall a, fst (input_loop prompt body pending (Some text) out) = Ok a ->
              Q a.
Proof.
  intros Hbody. induction pending as [| line rest IH]; intros out Hp.
  - cbn. split; [reflexivity |]. split; [constructor | discriminate].
  - inversion Hp as [| ? ? Hline Hrest]; subst. cbn [input_loop].
    destruct (Hbody line (world (Some text) rest (out ++ [prompt]))
                Hline Hrest eq_refl) as (Hinv & Hin & HQ).
    destruct (body line _) as [[[a |] | e] w1]; cbn [fst snd] in *.
    + split; [assumption |]. split; [assumption |].
      intros a' [= <-]. now apply HQ.
    + rewrite Hinv. now apply IH.
    + split; [assumption |]. split; [assumption | discriminate].
Qed.

Lemma main_add_name_accepts records line w :
  wf_store records = true ->
  inventory w = Some (inventory_text records) ->
  inventory (snd (main_add_name line w)) = Some (inventory_text records) /\
  stdin (snd (main_add_name line w)) = stdin w /\
  forall a, fst (main_add_name line w) = Ok (Some a) ->
            a = line /\ ~ In a (map name records).
Proof.
  intros Hwf Hinv. unfold main_add_name, bind.
  rewrite (names_conflict_store records line w Hwf Hinv).
  destruct (existsb _ records) eqn:He; cbn.
  - split; [assumption |]. split; [reflexivity | discriminate].
  - split; [assumption |]. split; [reflexivity |].
    intros a [= <-]. split; [reflexivity |].
    now apply existsb_false_not_In in He.
Qed.

Lemma main_add_cidr_accepts records line w :
  wf_store records = true ->
  inventory w = Some (inventory_text records) ->
  inventory (snd (main_add_cidr line w)) = Some (inventory_text records) /\
  stdin (snd (main_add_cidr line w)) = stdin w /\
  forall a, fst (main_add_cidr line w) = Ok (Some a) ->
            a = line /\ ~ In a (map cidr_string records).
Proof.
  intros Hwf Hinv. unfold main_add_cidr.
  destruct (check_address_format line);
    [| cbn; split; [assumption |]; split; [reflexivity | discriminate]].
  unfold bind.
  rewrite (check_subnet_by_address_store records line w Hwf)
    by (unfold stored; now rewrite Hinv).
  destruct (existsb _ records) eqn:He; cbn.
  - split; [assumption |]. split; [reflexivity | discriminate].
  - split; [assumption |]. split; [reflexivity |].
    intros a [= <-]. split; [reflexivity |].
    now apply existsb_false_not_In in He.
Qed.

(** When [add_subnet] has put the line of the record into the file, the
    library had accepted its address text. *)
Lemma add_subnet_appends_parsed r w text :
  inventory w = Some text ->
  inventory (snd (add_subnet r w)) = Some text \/
  (inventory (snd (add_subnet r w)) = Some (text ++ to_add r) /\ parses r).
Proof.
  intros Hinv. destruct (ip_network (cidr_string r)) as [cidr | e] eqn:Hnet.
  - pose proof (add_subnet_inventory r w) as H. rewrite Hinv in H.
    destruct H as [H | H]; [now left | right].
    split; [assumption | now exists cidr].
  - left. unfold add_subnet, bind, lift.
    cbn [reserved_subnets add_subnet_reserved_loop]. now rewrite Hnet.
Qed.

(** Text without a colon that the library accepts holds no white space. *)
Lemma parses_plain_token r :
  lacks ":" (cidr_string r) = true -> parses r -> token (cidr_string r) = true.
Proof using IPv6Network_colon.
  intros Hplain [n Hn]. unfold ip_network in Hn.
  destruct (IPv4Network (cidr_string r)) as [n4 |] eqn:H4.
  - now apply IPv4Network_token with (n := n4).
  - rewrite (IPv6Network_colon _ Hplain) in Hn. discriminate.
Qed.

(** Answers that are neither ["Y"] nor ["n"] are read and asked again. *)
Lemma main_delete_confirm_skip n prompt junk tail inv : forall out,
  Forall (fun a => is_answer a = false) junk ->
  exists out',
    input_loop prompt (main_delete_confirm n) (junk ++ tail) inv out =
    input_loop prompt (main_delete_confirm n) tail inv out'.
Proof.
  induction junk as [| a junk IH]; intros out Hjunk.
  - now exists out.
  - inversion Hjunk as [| ? ? Ha Hrest]; subst.
    unfold is_answer in Ha. apply orb_false_iff in Ha. destruct Ha as [HY Hn].
    cbn [List.app input_loop]. unfold main_delete_confirm at 1.
    rewrite HY, Hn. cbn. now apply IH.
Qed.

Lemma main_print_conflicts_out conflicts : forall w,
  main_print_conflicts conflicts w =
  (Ok tt, world (inventory w) (stdin w) (stdout w ++ map reported conflicts)).
Proof.
  induction conflicts as [| c conflicts IH]; intros w.
  - cbn. rewrite app_nil_r. destruct w; reflexivity.
  - cbn [main_print_conflicts map]. unfold bind, print at 1.
    rewrite IH. cbn [inventory stdin stdout]. now rewrite <- app_assoc.
Qed.

Lemma NoDup_map_snoc {A} (f : A -> string) l r :
  ~ In (f r) (map f l) -> NoDup (map f l) -> NoDup (map f (l ++ [r])).
Proof.
  intros Hfresh Hnd. rewrite map_app. cbn [map].
  induction (map f l) as [| x xs IH]; cbn [List.app].
  - constructor; [intros [] | constructor].
  - inversion Hnd; subst. constructor.
    + rewrite in_app_iff. intros [Hin | [Heq | []]]; [contradiction |].
      apply Hfresh. now left.
    + apply IH; [| assumption]. intros Hin. apply Hfresh. now right.
Qed.

(** The read-only functions of the script, for [unchanged_step]. *)
Ltac unchanged_calls :=
  repeat first
    [ apply unchanged_check_subnet_by_address
    | apply unchanged_check_subnet_by_name
    | apply unchanged_check_inventory_for_conflicts
    | apply unchanged_main_print_conflicts
    | apply unchanged_display_inventory
    | unchanged_step ].

(** X15. Whatever the option and the answers typed, the script never
    creates the inventory file: started without it, it ends without it. *)
Theorem main_never_creates_inventory (args : Args.Namespace) (w : World) :
  inventory w = None -> inventory (snd (main args w)) = None.
Proof.
  revert w. change (preserves (fun inv => inv = None) (main args)).
  unfold main.
  destruct (Args.add args).
  { apply preserves_bind; [apply unchanged_preserves, unchanged_print |].
    intros _. apply preserves_bind.
    { apply while_input_preserves. intros line.
      apply unchanged_preserves, unchanged_main_add_name. }
    intros n. apply preserves_bind.
    { apply while_input_preserves. intros line.
      apply unchanged_preserves, unchanged_main_add_cidr. }
    intros c. apply preserves_None_add_subnet. }
  destruct (Args.query args);
    [apply unchanged_preserves; unchanged_calls |].
  destruct (Args.conflict args);
    [apply unchanged_preserves; unchanged_calls |].
  destruct (Args.list args);
    [apply unchanged_preserves; unchanged_calls |].
  destruct (Args.delete args); [| apply unchanged_preserves, unchanged_ret].
  apply preserves_bind; [apply unchanged_preserves, unchanged_print |].
  intros _. apply preserves_bind;
    [apply unchanged_preserves, unchanged_input |].
  intros n. apply preserves_bind;
    [apply unchanged_preserves, unchanged_check_subnet_by_name |].
  intros [|]; [| apply unchanged_preserves, unchanged_print].
  apply while_input_preserves. intros a.
  apply preserves_None_main_delete_confirm.
Qed.

(** X16. Run with an option other than add and delete, the script leaves
    the inventory file as it was, whatever the file holds and whatever is
    typed, also when it ends in an error. *)
Theorem main_read_only (args : Args.Namespace) (w : World) :
  Args.add args = false -> Args.delete args = false ->
  inventory (snd (main args w)) = inventory w.
Proof.
  intros Hadd Hdel. revert w. change (unchanged (main args)).
  unfold main. rewrite Hadd, Hdel.
  destruct (Args.query args); [unchanged_calls |].
  destruct (Args.conflict args); [unchanged_calls |].
  destruct (Args.list args); unchanged_calls.
Qed.

(** X17. Run with the add option on a store of well-formed records, with
    lines typed that hold no line break and no colon, the script leaves a
    store of well-formed records: the store as it was, or with one record
    more at its end, and that record has a name and an address text that no
    stored record has.  Names and address texts that were unique stay
    unique, whatever is typed, and the next run starts from such a store
    again. *)
Theorem main_add_keeps_unique
    (args : Args.Namespace) (records : list Subnet) (w : World) :
  Args.add args = true ->
  wf_store records = true ->
  inventory w = Some (inventory_text records) ->
  Forall (fun line => plain_line line = true) (stdin w) ->
  exists records',
    inventory (snd (main args w)) = Some (inventory_text records') /\
    wf_store records' = true /\
    (records' = records \/
     exists r, records' = (records ++ [r])%list /\
               ~ In (name r) (map name records) /\
               ~ In (cidr_string r) (map cidr_string records)) /\
    (NoDup (map name records) -> NoDup (map name records')) /\
    (NoDup (map cidr_string records) -> NoDup (map cidr_string records')).
Proof using IPv6Network_colon.
  intros Hadd Hwf Hinv Htyped.
  assert (Hsame : forall w', inventory w' = Some (inventory_text records) ->
            exists records',
              inventory w' = Some (inventory_text records') /\
              wf_store records' = true /\
              (records' = records \/
               exists r, records' = (records ++ [r])%list /\
                         ~ In (name r) (map name records) /\
                         ~ In (cidr_string r) (map cidr_string records)) /\
              (NoDup (map name records) -> NoDup (map name records')) /\
              (NoDup (map cidr_string records) ->
               NoDup (map cidr_string records'))).
  { intros w' Hw'. exists records. repeat split; auto. }
  unfold main. rewrite Hadd. unfold bind at 1, print at 1.
  unfold bind at 1, while_input at 1. cbn [inventory stdin stdout].
  rewrite Hinv.
  destruct (input_loop_accepts
              (fun line => plain_line line = true)
              (fun a => plain_line a = true /\ ~ In a (map name records))
              (inventory_text records)
              "Please enter a name for your subnet: " main_add_name)
    with (pending := stdin w)
         (out := (stdout w ++ [printed "Adding a new subnet"])%list)
    as (Hinv1 & Htyped1 & Hname); [| exact Htyped |].
  { intros line w0 Hline Hrest Hw0.
    destruct (main_add_name_accepts records line w0 Hwf Hw0)
      as (Hi & Hs & Ha).
    split; [exact Hi |]. split; [now rewrite Hs |].
    intros a Hok. destruct (Ha a Hok) as [-> Hfresh]. now split. }
  destruct (input_loop _ main_add_name _ _ _) as [[n | e] w1];
    cbn [fst snd] in *; [| now apply Hsame].
  destruct (Hname n eq_refl) as [Hn Hnfresh].
  unfold bind at 1, while_input at 1. rewrite Hinv1.
  destruct (input_loop_accepts
              (fun line => plain_line line = true)
              (fun a => plain_line a = true /\
                        ~ In a (map cidr_string records))
              (inventory_text records)
              "Please enter your subnet in CIDR notation: " main_add_cidr)
    with (pending := stdin w1) (out := stdout w1)
    as (Hinv2 & _ & Hcidr); [| exact Htyped1 |].
  { intros line w0 Hline Hrest Hw0.
    destruct (main_add_cidr_accepts records line w0 Hwf Hw0)
      as (Hi & Hs & Ha).
    split; [exact Hi |]. split; [now rewrite Hs |].
    intros a Hok. destruct (Ha a Hok) as [-> Hfresh]. now split. }
  destruct (input_loop _ main_add_cidr _ _ _) as [[c | e] w2];
    cbn [fst snd] in *; [| now apply Hsame].
  destruct (Hcidr c eq_refl) as [Hc Hcfresh].
  destruct (add_subnet_appends_parsed {| name := n; cidr_string := c |} w2
              (inventory_text records) Hinv2) as [H | [H Hparsed]];
    [now apply Hsame |].
  unfold plain_line in Hn, Hc.
  apply andb_true_iff in Hn. destruct Hn as [Hnline _].
  apply andb_true_iff in Hc. destruct Hc as [_ Hccolon].
  exists (records ++ [{| name := n; cidr_string := c |}])%list.
  split; [now rewrite H, inventory_text_snoc |]. split; [| split; [| split]].
  - unfold wf_store in *. rewrite forallb_app, Hwf.
    cbn [forallb andb]. unfold wf_record. cbn [name cidr_string].
    pose proof (parses_plain_token {| name := n; cidr_string := c |}
                  Hccolon Hparsed) as Htoken.
    cbn [cidr_string] in Htoken. now rewrite Hnline, Htoken.
  - right. now exists {| name := n; cidr_string := c |}.
  - now apply NoDup_map_snoc.
  - now apply NoDup_map_snoc.
Qed.

(** ** What each option does *)

Lemma main_delete_run args records n rest w :
  Args.add args = false -> Args.query args = false ->
  Args.conflict args = false -> Args.list args = false ->
  Args.delete args = true ->
  wf_store records = true -> stored w records -> stdin w = n :: rest ->
  main args w =
  (if existsb (fun r => String.eqb (name r) n) records
   then while_input
          ("Are you sure you want to delete the " ++ n ++
           " subnet? This action cannot be undone. (Y/n): ")
          (main_delete_confirm n)
   else print "No subnet with that name found in inventory")
    (world (inventory w) rest
       (stdout w ++
        [printed "Deleting subnet";
         "Please enter the name of the subnet you would like to delete: "])).
Proof.
  intros Ha Hq Hc Hl Hd Hwf Hst Hin. unfold main. rewrite Ha, Hq, Hc, Hl, Hd.
  unfold bind at 1, print at 1. unfold bind at 1, input at 1.
  cbn [inventory stdin stdout]. rewrite Hin. unfold bind at 1.
  rewrite (check_subnet_by_name_store records n _ Hwf) by exact Hst.
  now rewrite <- !app_assoc.
Qed.

Lemma main_delete_confirm_ends n prompt records rest out :
  wf_store records = true ->
  let run a :=
    input_loop prompt (main_delete_confirm n) a
      (Some (inventory_text records)) out in
  (fst (run ("Y" :: rest)) = Ok tt /\ stdin (snd (run ("Y" :: rest))) = rest /\
   inventory (snd (run ("Y" :: rest))) =
     Some (inventory_text
             (filter (fun r => negb (String.eqb (name r) n)) records))) /\
  (fst (run ("n" :: rest)) = Ok tt /\ stdin (snd (run ("n" :: rest))) = rest /\
   inventory (snd (run ("n" :: rest))) = Some (inventory_text records)) /\
  (fst (run []) = Raise EOFError /\ stdin (snd (run [])) = [] /\
   inventory (snd (run [])) = Some (inventory_text records)).
Proof.
  intros Hwf run. unfold run. split; [| split].
  - cbn [input_loop]. unfold main_delete_confirm. rewrite String.eqb_refl.
    unfold bind.
    rewrite (delete_subnet_store n records
               (world (Some (inventory_text records)) rest (out ++ [prompt]))
               Hwf eq_refl).
    cbn. repeat split.
  - cbn. repeat split.
  - cbn. repeat split.
Qed.

(** X18. The delete option on a store of well-formed records: a name that
    no record has gives the message and leaves the file as it was; a name
    that a record has is decided by the first answer that is ["Y"] or
    ["n"], the answers before it being asked again: ["Y"] leaves the
    records of other names, ["n"] leaves the file as it was, and so does
    the end of the input, which is an [EOFError]. *)
Theorem main_delete_outcomes
    (args : Args.Namespace) (records : list Subnet) (n : string)
    (junk : list string) (w : World) :
  Args.add args = false -> Args.query args = false ->
  Args.conflict args = false -> Args.list args = false ->
  Args.delete args = true ->
  wf_store records = true -> stored w records ->
  Forall (fun a => is_answer a = false) junk ->
  (forall rest, stdin w = n :: rest -> ~ In n (map name records) ->
     main args w =
     (Ok tt,
      world (inventory w) rest
        (stdout w ++
         [printed "Deleting subnet";
          "Please enter the name of the subnet you would like to delete: ";
          printed "No subnet with that name found in inventory"]))) /\
  (In n (map name records) ->
     (forall rest, stdin w = (n :: junk ++ "Y" :: rest)%list ->
        fst (main args w) = Ok tt /\
        stdin (snd (main args w)) = rest /\
        inventory (snd (main args w)) =
          Some (inventory_text
                  (filter (fun r => negb (String.eqb (name r) n)) records))) /\
     (forall rest, stdin w = (n :: junk ++ "n" :: rest)%list ->
        fst (main args w) = Ok tt /\
        stdin (snd (main args w)) = rest /\
        inventory (snd (main args w)) = Some (inventory_text records)) /\
     (stdin w = n :: junk ->
        fst (main args w) = Raise EOFError /\
        stdin (snd (main args w)) = [] /\
        inventory (snd (main args w)) = Some (inventory_text records))).
Proof.
  intros Ha Hq Hc Hl Hd Hwf Hst Hjunk. split.
  - intros rest Hin Hfresh.
    rewrite (main_delete_run args records n rest w
               Ha Hq Hc Hl Hd Hwf Hst Hin).
    rewrite (not_In_existsb_false name n records Hfresh).
    unfold print, world. cbn [inventory stdin stdout].
    now rewrite <- !app_assoc.
  - intros Hn.
    assert (He : existsb (fun r => String.eqb (name r) n) records = true).
    { destruct (existsb _ records) eqn:E; [reflexivity |].
      now apply existsb_false_not_In in E. }
    assert (Hinv : inventory w = Some (inventory_text records)).
    { unfold stored in Hst. destruct (inventory w); [now subst |].
      subst records. destruct Hn. }
    assert (Hrun : forall tail, stdin w = (n :: junk ++ tail)%list ->
              exists prompt out,
                main args w =
                input_loop prompt (main_delete_confirm n) tail
                  (Some (inventory_text records)) out).
    { intros tail Hin.
      rewrite (main_delete_run args records n (junk ++ tail) w
                 Ha Hq Hc Hl Hd Hwf Hst Hin), He.
      unfold while_input, world. cbn [inventory stdin stdout].
      destruct (main_delete_confirm_skip n
                  ("Are you sure you want to delete the " ++ n ++
                   " subnet? This action cannot be undone. (Y/n): ")
                  junk tail (inventory w)
                  (stdout w ++
                   [printed "Deleting subnet";
                    "Please enter the name of the subnet you would like to delete: "])
                  Hjunk) as [out' Hskip].
      eexists _, out'. now rewrite Hskip, Hinv. }
    split; [| split].
    + intros rest Hin. destruct (Hrun _ Hin) as (prompt & out & ->).
      apply (main_delete_confirm_ends n prompt records rest out Hwf).
    + intros rest Hin. destruct (Hrun _ Hin) as (prompt & out & ->).
      apply (main_delete_confirm_ends n prompt records rest out Hwf).
    + intros Hin. rewrite <- (app_nil_r junk) in Hin.
      destruct (Hrun _ Hin) as (prompt & out & ->).
      apply (main_delete_confirm_ends n prompt records [] out Hwf).
Qed.

(** X19. The conflict option, for a text that passes the format check and
    that the library accepts, on a store of well-formed records whose
    addresses parse: it prints one line for each stored record whose network
    overlaps the given one, in the order of the store, under a heading, or
    the message that there is none; the file stays as it was. *)
Theorem main_conflict_reports
    (args : Args.Namespace) (records : list Subnet) (c : string)
    (cidr : Network) (rest : list string) (w : World) :
  Args.add args = false -> Args.query args = false ->
  Args.conflict args = true ->
  wf_store records = true -> Forall parses records ->
  inventory w = Some (inventory_text records) ->
  stdin w = c :: rest ->
  check_address_format c = true -> ip_network c = Ok cidr ->
  main args w =
  (Ok tt,
   world (inventory w) rest
     (stdout w ++
      [printed "Checking for subnet conflicts";
       "Please enter the subnet you would like to check in CIDR notation: "] ++
      match filter (overlapping cidr) records with
      | [] => [printed "No conflicting subnets in inventory"]
      | conflicts =>
          printed "The following subnet conflicts were found: " ::
          map reported conflicts
      end)).
Proof.
  intros Ha Hq Hc Hwf Hp Hinv Hin Hfmt Hcidr.
  unfold main. rewrite Ha, Hq, Hc.
  unfold bind at 1, print at 1. unfold bind at 1, input at 1.
  cbn [inventory stdin stdout]. rewrite Hin, Hfmt.
  unfold bind at 1, lift at 1. rewrite Hcidr.
  unfold bind at 1.
  unfold check_inventory_for_conflicts, bind at 1, open_readlines, lift.
  cbn [inventory stdin stdout world].
  rewrite Hinv, readlines_inventory_text by assumption.
  rewrite check_inventory_for_conflicts_loop_store by assumption.
  cbn [List.app].
  destruct (filter (overlapping cidr) records) as [| x xs].
  - unfold print, world. cbn [inventory stdin stdout].
    now rewrite <- !app_assoc.
  - unfold bind, print at 1. rewrite main_print_conflicts_out.
    unfold world. cbn [inventory stdin stdout].
    now rewrite <- !app_assoc.
Qed.

(** X20. The conflict option on other text: a text that fails the format
    check gives the error message without the file being opened, so also
    where there is none; a text that passes the check and that the library
    rejects ends the script in [ValueError]. *)
Theorem main_conflict_bad_text
    (args : Args.Namespace) (c : string) (rest : list string) (w : World) :
  Args.add args = false -> Args.query args = false ->
  Args.conflict args = true ->
  stdin w = c :: rest ->
  let asked :=
    (stdout w ++
     [printed "Checking for subnet conflicts";
      "Please enter the subnet you would like to check in CIDR notation: "])%list
  in
  (check_address_format c = false ->
   main args w =
   (Ok tt,
    world (inventory w) rest
      (asked ++
       [printed "ERROR: Address is not in CIDR format.  Addresses must be in CIDR format, e.g. 10.0.0.0/8"]))) /\
  (check_address_format c = true -> ip_network c = Raise ValueError ->
   main args w = (Raise ValueError, world (inventory w) rest asked)).
Proof.
  intros Ha Hq Hc Hin asked. unfold asked. split.
  - intros Hfmt. unfold main. rewrite Ha, Hq, Hc.
    unfold bind at 1, print at 1. unfold bind at 1, input at 1.
    cbn [inventory stdin stdout]. rewrite Hin, Hfmt.
    unfold print, world. cbn [inventory stdin stdout].
    now rewrite <- !app_assoc.
  - intros Hfmt Hbad. unfold main. rewrite Ha, Hq, Hc.
    unfold bind at 1, print at 1. unfold bind at 1, input at 1.
    cbn [inventory stdin stdout]. rewrite Hin, Hfmt.
    unfold bind at 1, lift at 1. rewrite Hbad.
    unfold world. cbn [inventory stdin stdout].
    now rewrite <- !app_assoc.
Qed.

(** X21. The query option answers by the text alone, without a format
    check: on a store of well-formed records, or with no file, it says that
    the subnet exists exactly when a record has the line typed as its
    address text, and leaves the file as it was. *)
Theorem main_query_answers
    (args : Args.Namespace) (records : list Subnet) (c : string)
    (rest : list string) (w : World) :
  Args.add args = false -> Args.query args = true ->
  wf_store records = true -> stored w records ->
  stdin w = c :: rest ->
  main args w =
  (Ok tt,
   world (inventory w) rest
     (stdout w ++
      [printed "Checking for subnet in inventory";
       "Please enter the subnet you would like to check in CIDR notation: ";
       printed (if existsb (fun r => String.eqb (cidr_string r) c) records
                then "Subnet exists in inventory"
                else "Subnet does not exist in inventory")])).
Proof.
  intros Ha Hq Hwf Hst Hin. unfold main. rewrite Ha, Hq.
  unfold bind at 1, print at 1. unfold bind at 1, input at 1.
  cbn [inventory stdin stdout]. rewrite Hin. unfold bind at 1.
  rewrite (check_subnet_by_address_store records c _ Hwf) by exact Hst.
  destruct (existsb _ records); unfold print, world;
    cbn [inventory stdin stdout]; now rewrite <- !app_assoc.
Qed.

(** X22. Without the inventory file the add option cannot add: the first
    name typed ends the script in [FileNotFoundError], before an address is
    asked for, and with nothing typed it ends in [EOFError]. *)
Theorem main_add_needs_inventory (args : Args.Namespace) (w : World) :
  Args.add args = true -> inventory w = None ->
  main args w =
  (match stdin w with
   | [] => Raise EOFError
   | _ :: _ => Raise FileNotFoundError
   end,
   world None (tl (stdin w))
     (stdout w ++
      [printed "Adding a new subnet"; "Please enter a name for your subnet: "])).
Proof.
  intros Ha Hinv. unfold main. rewrite Ha.
  unfold bind at 1, print at 1. unfold bind at 1, while_input at 1.
  cbn [inventory stdin stdout]. rewrite Hinv.
  destruct (stdin w) as [| n rest]; cbn [input_loop tl].
  - now rewrite <- !app_assoc.
  - unfold main_add_name, bind at 1, names_conflict, bind at 1, open_readlines.
    cbn [inventory stdin stdout world]. now rewrite <- !app_assoc.
Qed.

End Script.

(* ================================================================== *)
(** * Concrete runs *)
(* ================================================================== *)

(** [10.0.0.0/24] and [10.0.0.128/25] overlap; both are well formed. *)
Lemma subnets_conflict_iff_ranges_intersect_witness :
  let a := {| version := IPv4; network_address := 167772160; prefixlen := 24 |} in
  let b := {| version := IPv4; network_address := 167772288; prefixlen := 25 |} in
  wf_network a /\ wf_network b /\
  ((subnets_conflict a b = true <->
      exists x : Address, in_range a x /\ in_range b x) /\
   (version a = version b ->
      (subnets_conflict a b = true <->
         first_address a <= last_address b /\
         first_address b <= last_address a)) /\
   subnets_conflict a b = subnets_conflict b a).
Proof.
  intros a b.
  assert (Ha : wf_network a)
    by (unfold wf_network; cbn; repeat split; (lia || reflexivity)).
  assert (Hb : wf_network b)
    by (unfold wf_network; cbn; repeat split; (lia || reflexivity)).
  split; [exact Ha |]. split; [exact Hb |].
  exact (subnets_conflict_iff_ranges_intersect a b Ha Hb).
Defined.

(** [192.168.14.200/32] lies in the reserved range: refused, even with no
    inventory file. *)
Lemma add_subnet_reserved_refused_witness :
  let r := {| name := "C"; cidr_string := "192.168.14.200/32" |} in
  let cidr := {| version := IPv4; network_address := 3232239304; prefixlen := 32 |} in
  let w := {| inventory := None; stdin := ["Y"]; stdout := [] |} in
  ip_network no_IPv6 (cidr_string r) = Ok cidr /\
  add_subnet no_IPv6 r w =
  (Ok tt,
   {| inventory := None;
      stdin := ["Y"];
      stdout :=
        [printed "Subnet is reserved or conflicts with a reserved subnet and cannot be added"] |}).
Proof.
  intros r cidr w. split; [reflexivity |].
  apply (add_subnet_reserved_refused no_IPv6 r cidr w); [reflexivity |].
  exists "192.168.14.128/25",
    {| version := IPv4; network_address := 3232239232; prefixlen := 25 |}.
  repeat split. left. reflexivity.
Defined.

(** The store [A 10.0.0.0/24], [B 10.0.0.128/25] and the candidate
    [10.0.0.0/25]: only [A] overlaps it. *)
Lemma check_inventory_for_conflicts_filter_witness :
  let A := {| name := "A"; cidr_string := "10.0.0.0/24" |} in
  let B := {| name := "B"; cidr_string := "10.0.0.128/25" |} in
  let cidr := {| version := IPv4; network_address := 167772160; prefixlen := 25 |} in
  let w := {| inventory := Some (inventory_text [A; B]); stdin := []; stdout := [] |} in
  wf_store [A; B] = true /\
  ip_network no_IPv6 "10.0.0.0/25" = Ok cidr /\
  check_inventory_for_conflicts no_IPv6 cidr w = (Ok [A], w).
Proof.
  intros A B cidr w. split; [reflexivity |]. split; [reflexivity |].
  refine (proj1 (check_inventory_for_conflicts_filter no_IPv6 [A; B] cidr w
                   eq_refl _ eq_refl)).
  repeat constructor; eexists; reflexivity.
Defined.

(** Deleting [A] from the store [A], [B], [A]. *)
Lemma delete_subnet_filters_store_witness :
  let A := {| name := "A"; cidr_string := "10.0.0.0/24" |} in
  let B := {| name := "B"; cidr_string := "10.0.0.128/25" |} in
  let A' := {| name := "A"; cidr_string := "10.9.0.0/16" |} in
  let w := {| inventory := Some (inventory_text [A; B; A']); stdin := []; stdout := [] |} in
  wf_store [A; B; A'] = true /\
  delete_subnet "A" w =
  (Ok tt,
   {| inventory := Some (inventory_text [B]);
      stdin := [];
      stdout := [printed "A subnet removed from inventory"] |}).
Proof.
  intros A B A' w. split; [reflexivity |].
  exact (proj1 (delete_subnet_filters_store [A; B; A'] "A" w eq_refl eq_refl)).
Defined.

(** [10.0.0.1/24] is not found in a store that holds [10.0.0.0/24], though
    both texts parse to one network. *)
Lemma check_subnet_by_address_textual_witness :
  let A := {| name := "A"; cidr_string := "10.0.0.0/24" |} in
  let w := {| inventory := Some (inventory_text [A]); stdin := []; stdout := [] |} in
  wf_store [A] = true /\ stored w [A] /\
  IPv4Network "10.0.0.1/24" = IPv4Network "10.0.0.0/24" /\
  check_subnet_by_address "10.0.0.1/24" w = (Ok false, w) /\
  exists b : bool,
    check_subnet_by_address "10.0.0.0/24" w = (Ok b, w) /\
    (b = true <-> exists r, In r [A] /\ cidr_string r = "10.0.0.0/24").
Proof.
  intros A w. split; [reflexivity |]. split; [reflexivity |].
  split; [reflexivity |]. split; [reflexivity |].
  exact (check_subnet_by_address_textual [A] "10.0.0.0/24" w eq_refl eq_refl).
Defined.

(** ["999.0.0.0/24"]: of the shape, and rejected. *)
Lemma add_subnet_out_of_range_rejected_witness :
  let w := {| inventory := Some ""; stdin := []; stdout := [] |} in
  (forall s, lacks ":" s = true -> no_IPv6 s = None) /\
  check_address_format "999.0.0.0/24" = true /\
  ip_network no_IPv6 "999.0.0.0/24" = Raise ValueError /\
  add_subnet no_IPv6 {| name := "A"; cidr_string := "999.0.0.0/24" |} w =
    (Raise ValueError, w).
Proof.
  intros w. split; [reflexivity |].
  apply (add_subnet_out_of_range_rejected no_IPv6 (fun s _ => eq_refl)
           "999" "0" "0" "0" "24" "A" w);
    try reflexivity.
  left. reflexivity.
Defined.


(** Host bits are masked: [10.0.0.5/24] is the network [10.0.0.0/24]. *)
Example IPv4Network_masks_host_bits :
  IPv4Network "10.0.0.5/24" = IPv4Network "10.0.0.0/24" /\
  IPv4Network "10.0.0.0/24" =
    Some {| version := IPv4; network_address := 167772160; prefixlen := 24 |}.
Proof. split; reflexivity. Qed.

(** Text without a prefix length fails the format check, though the library
    reads it as a [/32]. *)
Example no_prefix_length :
  check_address_format "10.0.0.0" = false /\
  IPv4Network "10.0.0.0" =
    Some {| version := IPv4; network_address := 167772160; prefixlen := 32 |}.
Proof. split; reflexivity. Qed.

(** A netmask after the slash passes the format check by its first two
    digits, and the library accepts it. *)
Example netmask_after_slash :
  check_address_format "10.0.0.0/255.255.255.0" = true /\
  IPv4Network "10.0.0.0/255.255.255.0" = IPv4Network "10.0.0.0/24".
Proof. split; reflexivity. Qed.

(** After one add of a name, both lookups of that name answer true. *)
Example name_exists_after_add :
  let A := {| name := "A"; cidr_string := "10.0.0.0/24" |} in
  let w := {| inventory := Some EmptyString; stdin := []; stdout := [] |} in
  let w1 := snd (add_subnet no_IPv6 A w) in
  names_conflict "A" w1 = (Ok true, w1) /\
  check_subnet_by_name "A" w1 = (Ok true, w1) /\
  check_subnet_by_address "10.0.0.0/24" w1 = (Ok true, w1).
Proof. repeat split; reflexivity. Qed.

(** A record that overlaps a stored one is added on ["Y"] and left out on
    ["n"]; other answers are asked again. *)
Example add_subnet_asks :
  let A := {| name := "A"; cidr_string := "10.0.0.0/24" |} in
  let B := {| name := "B"; cidr_string := "10.0.0.128/25" |} in
  let yes := {| inventory := Some (inventory_text [A]);
                stdin := ["maybe"; "Y"]; stdout := [] |} in
  let no := {| inventory := Some (inventory_text [A]);
               stdin := ["n"; "Y"]; stdout := [] |} in
  let eof := {| inventory := Some (inventory_text [A]);
                stdin := []; stdout := [] |} in
  inventory (snd (add_subnet no_IPv6 B yes)) = Some (inventory_text [A; B]) /\
  stdin (snd (add_subnet no_IPv6 B yes)) = [] /\
  inventory (snd (add_subnet no_IPv6 B no)) = Some (inventory_text [A]) /\
  stdin (snd (add_subnet no_IPv6 B no)) = ["Y"] /\
  fst (add_subnet no_IPv6 B eof) = Raise EOFError /\
  inventory (snd (add_subnet no_IPv6 B eof)) = Some (inventory_text [A]).
Proof. repeat split; reflexivity. Qed.

(* ================================================================== *)
(** * Concrete runs of the further facts *)
(* ================================================================== *)

(** [10.0.0.128/25] lies within [10.0.0.0/24]. *)
Lemma subnets_conflict_nested_witness :
  let a := {| version := IPv4; network_address := 167772288; prefixlen := 25 |} in
  let b := {| version := IPv4; network_address := 167772160; prefixlen := 24 |} in
  wf_network a /\ wf_network b /\ subnets_conflict a b = true /\
  first_address b <= first_address a /\ last_address a <= last_address b.
Proof.
  intros a b.
  assert (Ha : wf_network a)
    by (unfold wf_network; cbn; repeat split; (lia || reflexivity)).
  assert (Hb : wf_network b)
    by (unfold wf_network; cbn; repeat split; (lia || reflexivity)).
  split; [exact Ha |]. split; [exact Hb |]. split; [reflexivity |].
  apply (proj1 (subnets_conflict_nested a b Ha Hb eq_refl)). cbn. lia.
Defined.

(** [192.168.14.128/25] conflicts with itself. *)
Lemma subnets_conflict_reflexive_witness :
  let a := {| version := IPv4; network_address := 3232239232; prefixlen := 25 |} in
  wf_network a /\ subnets_conflict a a = true.
Proof.
  intros a.
  assert (Ha : wf_network a)
    by (unfold wf_network; cbn; repeat split; (lia || reflexivity)).
  split; [exact Ha |]. exact (subnets_conflict_reflexive a Ha).
Defined.

(** [B 10.1.0.0/16] beside [A 10.0.0.0/24]: added, and the answer waiting
    on standard input is not read. *)
Lemma add_subnet_free_address_witness :
  let A := {| name := "A"; cidr_string := "10.0.0.0/24" |} in
  let B := {| name := "B"; cidr_string := "10.1.0.0/16" |} in
  let cidr := {| version := IPv4; network_address := 167837696; prefixlen := 16 |} in
  let w := world (Some (inventory_text [A])) ["n"] [] in
  wf_store [A] = true /\
  ip_network no_IPv6 (cidr_string B) = Ok cidr /\
  add_subnet no_IPv6 B w =
  (Ok tt,
   world (Some (inventory_text [A; B])) ["n"]
     [printed ("Subnet added to inventory: " ++ to_add B)]).
Proof.
  intros A B cidr w. split; [reflexivity |]. split; [reflexivity |].
  apply (add_subnet_free_address no_IPv6 [A] B cidr w);
    try reflexivity.
  - constructor; [eexists; reflexivity | constructor].
  - constructor; [eexists; split; reflexivity | constructor].
  - intros x [<- | []]. reflexivity.
Defined.

(** [B 10.0.0.128/25] overlaps [A 10.0.0.0/24]: the answer [maybe] is asked
    again, [Y] adds the record, and the [n] after it stays unread. *)
Lemma add_subnet_decided_by_answer_witness :
  let A := {| name := "A"; cidr_string := "10.0.0.0/24" |} in
  let B := {| name := "B"; cidr_string := "10.0.0.128/25" |} in
  let cidr := {| version := IPv4; network_address := 167772288; prefixlen := 25 |} in
  let w := world (Some (inventory_text [A])) ["maybe"; "Y"; "n"] [] in
  wf_store [A] = true /\
  ip_network no_IPv6 (cidr_string B) = Ok cidr /\
  overlapping no_IPv6 cidr A = true /\
  fst (add_subnet no_IPv6 B w) = Ok tt /\
  stdin (snd (add_subnet no_IPv6 B w)) = ["n"] /\
  inventory (snd (add_subnet no_IPv6 B w)) = Some (inventory_text [A; B]).
Proof.
  intros A B cidr w. split; [reflexivity |]. split; [reflexivity |].
  split; [reflexivity |].
  refine (proj1 (add_subnet_decided_by_answer no_IPv6 [A] B cidr ["maybe"] w
                   eq_refl _ eq_refl eq_refl _ _ _) ["n"] eq_refl).
  - constructor; [eexists; reflexivity | constructor].
  - constructor; [eexists; split; reflexivity | constructor].
  - exists A. split; [left |]; reflexivity.
  - constructor; [reflexivity | constructor].
Defined.

(** A stored [10.0.0.0/240], which the format check lets through and the
    library rejects, stops every later add. *)
Lemma unparsable_record_blocks_witness :
  let bad := {| name := "X"; cidr_string := "10.0.0.0/240" |} in
  let A := {| name := "A"; cidr_string := "10.0.0.0/24" |} in
  let B := {| name := "B"; cidr_string := "10.1.0.0/16" |} in
  let cidr := {| version := IPv4; network_address := 167837696; prefixlen := 16 |} in
  let w := world (Some (inventory_text [bad; A])) [] [] in
  wf_store [bad; A] = true /\
  check_address_format (cidr_string bad) = true /\
  ip_network no_IPv6 (cidr_string bad) = Raise ValueError /\
  check_inventory_for_conflicts no_IPv6 cidr w = (Raise ValueError, w) /\
  add_subnet no_IPv6 B w = (Raise ValueError, w).
Proof.
  intros bad A B cidr w. split; [reflexivity |]. split; [reflexivity |].
  split; [reflexivity |].
  destruct (unparsable_record_blocks no_IPv6 [] [A] bad B cidr w
              eq_refl (Forall_nil _) eq_refl eq_refl) as [Hcheck Hadd].
  split; [exact Hcheck |]. apply Hadd; [reflexivity |].
  constructor; [eexists; split; reflexivity | constructor].
Defined.

(** After [B] went into the store [A], it is found by name and by address
    text. *)
Lemma add_subnet_then_found_witness :
  let A := {| name := "A"; cidr_string := "10.0.0.0/24" |} in
  let B := {| name := "B"; cidr_string := "10.1.0.0/16" |} in
  let w := world (Some (inventory_text [A])) [] [] in
  let w1 := snd (add_subnet no_IPv6 B w) in
  wf_store [A] = true /\ wf_record B = true /\
  inventory w1 = Some (inventory_text [A; B]) /\
  names_conflict "B" w1 = (Ok true, w1) /\
  check_subnet_by_name "B" w1 = (Ok true, w1) /\
  check_subnet_by_address "10.1.0.0/16" w1 = (Ok true, w1).
Proof.
  intros A B w w1. split; [reflexivity |]. split; [reflexivity |].
  split; [reflexivity |].
  refine (add_subnet_then_found no_IPv6 [A] B w eq_refl eq_refl eq_refl _).
  intros H. vm_compute in H. discriminate H.
Defined.

(** A file whose second line has no space: the whole line, line end
    included, is its name. *)
Lemma name_lookups_any_file_witness :
  let text := "A 10.0.0.0/24" ++ String PyStr.LF ("B" ++ String PyStr.LF "") in
  let w := world (Some text) [] [] in
  exists b : bool,
    names_conflict "A" w = (Ok b, w) /\
    check_subnet_by_name "A" w = (Ok b, w) /\
    (b = true <->
       exists line, In line (readlines text) /\ line_names "A" line).
Proof.
  intros text w. exact (name_lookups_any_file "A" text w eq_refl).
Defined.

(** An empty line after the record [A]: a text that [A] does not hold ends
    the lookup in [IndexError]. *)
Lemma check_subnet_by_address_spaceless_line_witness :
  let A := {| name := "A"; cidr_string := "10.0.0.0/24" |} in
  let text := inventory_text [A] ++ String PyStr.LF "" in
  let w := world (Some text) [] [] in
  readlines text = [to_add A; String PyStr.LF ""] /\
  check_subnet_by_address "10.9.0.0/16" w = (Raise IndexError, w) /\
  check_subnet_by_address "10.0.0.0/24" w = (Ok true, w).
Proof.
  intros A text w. split; [reflexivity |]. split.
  - exact (check_subnet_by_address_spaceless_line [A] (String PyStr.LF "") []
             "10.9.0.0/16" text w eq_refl eq_refl eq_refl eq_refl).
  - reflexivity.
Defined.

(** The listing of the store [A], [B]. *)
Lemma display_inventory_prints_witness :
  let A := {| name := "A"; cidr_string := "10.0.0.0/24" |} in
  let B := {| name := "B"; cidr_string := "10.0.0.128/25" |} in
  let w := world (Some (inventory_text [A; B])) [] [] in
  wf_store [A; B] = true /\
  display_inventory w =
  (Ok tt,
   world (inventory w) []
     [printed "Subnet Name - Subnet Address";
      printed "A - 10.0.0.0/24"; printed "B - 10.0.0.128/25"]).
Proof.
  intros A B w. split; [reflexivity |].
  exact (display_inventory_prints [A; B] w eq_refl eq_refl).
Defined.

(** Deleting [A] from a file with a line that has no space and a last line
    without a line end: the line [junk] is written back. *)
Lemma delete_subnet_any_file_witness :
  let text :=
    "A 10.0.0.0/24" ++ String PyStr.LF ("junk" ++ String PyStr.LF "B 10.1.0.0/16") in
  let w := world (Some text) [] [] in
  inventory (snd (delete_subnet "A" w)) =
    Some ("junk" ++ String PyStr.LF "B 10.1.0.0/16") /\
  kept "A" ("junk" ++ String PyStr.LF "") = true /\
  fst (delete_subnet "A" w) = Ok tt /\
  exists text',
    inventory (snd (delete_subnet "A" w)) = Some text' /\
    readlines text' = filter (kept "A") (readlines text).
Proof.
  intros text w. split; [reflexivity |]. split; [reflexivity |].
  destruct (delete_subnet_any_file "A" text w eq_refl) as (Hok & Hlines & _).
  split; [exact Hok | exact Hlines].
Defined.

(** After [A] is deleted from a file that names it twice, no lookup finds
    it. *)
Lemma delete_subnet_then_absent_witness :
  let text :=
    "A 10.0.0.0/24" ++ String PyStr.LF ("A 10.1.0.0/16" ++ String PyStr.LF "") in
  let w := world (Some text) [] [] in
  let w1 := snd (delete_subnet "A" w) in
  names_conflict "A" w = (Ok true, w) /\
  names_conflict "A" w1 = (Ok false, w1) /\
  check_subnet_by_name "A" w1 = (Ok false, w1).
Proof.
  intros text w w1. split; [reflexivity |].
  exact (delete_subnet_then_absent "A" text w eq_refl).
Defined.

(** The add option without the file, with a name typed. *)
Lemma main_never_creates_inventory_witness :
  let args := {| Args.add := true; Args.delete := false;
                 Args.conflict := false; Args.query := false;
                 Args.list := false |} in
  let w := world None ["A"; "10.0.0.0/24"] [] in
  inventory (snd (main no_IPv6 args w)) = None.
Proof.
  intros args w. exact (main_never_creates_inventory no_IPv6 args w eq_refl).
Defined.

(** The list option on a file with a line that has no space: the listing
    ends in [IndexError] and the file is as it was. *)
Lemma main_read_only_witness :
  let args := {| Args.add := false; Args.delete := false;
                 Args.conflict := false; Args.query := false;
                 Args.list := true |} in
  let w := world (Some ("junk" ++ String PyStr.LF "")) [] [] in
  fst (main no_IPv6 args w) = Raise IndexError /\
  inventory (snd (main no_IPv6 args w)) = inventory w.
Proof.
  intros args w. split; [reflexivity |].
  exact (main_read_only no_IPv6 args w eq_refl eq_refl).
Defined.

(** The add option on the store [A]: the name [A] and the address text of
    [A] are asked again, and [B 10.1.0.0/16] is added. *)
Lemma main_add_keeps_unique_witness :
  let args := {| Args.add := true; Args.delete := false;
                 Args.conflict := false; Args.query := false;
                 Args.list := false |} in
  let A := {| name := "A"; cidr_string := "10.0.0.0/24" |} in
  let B := {| name := "B"; cidr_string := "10.1.0.0/16" |} in
  let w := world (Some (inventory_text [A]))
                 ["A"; "B"; "10.0.0.0/24"; "10.1.0.0/16"] [] in
  (forall s, lacks ":" s = true -> no_IPv6 s = None) /\
  forallb plain_line (stdin w) = true /\
  inventory (snd (main no_IPv6 args w)) = Some (inventory_text [A; B]) /\
  exists records',
    inventory (snd (main no_IPv6 args w)) = Some (inventory_text records') /\
    wf_store records' = true /\
    (records' = [A] \/
     exists r, records' = ([A] ++ [r])%list /\
               ~ In (name r) (map name [A]) /\
               ~ In (cidr_string r) (map cidr_string [A])) /\
    (NoDup (map name [A]) -> NoDup (map name records')) /\
    (NoDup (map cidr_string [A]) -> NoDup (map cidr_string records')).
Proof.
  intros args A B w. split; [reflexivity |]. split; [reflexivity |].
  split; [reflexivity |].
  refine (main_add_keeps_unique no_IPv6 (fun s _ => eq_refl) args [A] w
            eq_refl eq_refl eq_refl _).
  repeat constructor.
Defined.

(** The delete option on the store [A], [B]: [A] is deleted after the
    answer [maybe] was asked again. *)
Lemma main_delete_outcomes_witness :
  let args := {| Args.add := false; Args.delete := true;
                 Args.conflict := false; Args.query := false;
                 Args.list := false |} in
  let A := {| name := "A"; cidr_string := "10.0.0.0/24" |} in
  let B := {| name := "B"; cidr_string := "10.1.0.0/16" |} in
  let w := world (Some (inventory_text [A; B])) ["A"; "maybe"; "Y"] [] in
  wf_store [A; B] = true /\
  fst (main no_IPv6 args w) = Ok tt /\
  stdin (snd (main no_IPv6 args w)) = [] /\
  inventory (snd (main no_IPv6 args w)) = Some (inventory_text [B]).
Proof.
  intros args A B w. split; [reflexivity |].
  refine (proj1 (proj2 (main_delete_outcomes no_IPv6 args [A; B] "A" ["maybe"] w
                          eq_refl eq_refl eq_refl eq_refl eq_refl
                          eq_refl eq_refl _) _) [] eq_refl).
  - constructor; [reflexivity | constructor].
  - left. reflexivity.
Defined.

(** The conflict option for [10.0.0.0/25] on the store [A 10.0.0.0/24],
    [B 10.0.0.128/25]: [A] alone is reported. *)
Lemma main_conflict_reports_witness :
  let args := {| Args.add := false; Args.delete := false;
                 Args.conflict := true; Args.query := false;
                 Args.list := false |} in
  let A := {| name := "A"; cidr_string := "10.0.0.0/24" |} in
  let B := {| name := "B"; cidr_string := "10.0.0.128/25" |} in
  let cidr := {| version := IPv4; network_address := 167772160; prefixlen := 25 |} in
  let w := world (Some (inventory_text [A; B])) ["10.0.0.0/25"] [] in
  wf_store [A; B] = true /\
  ip_network no_IPv6 "10.0.0.0/25" = Ok cidr /\
  main no_IPv6 args w =
  (Ok tt,
   world (inventory w) []
     [printed "Checking for subnet conflicts";
      "Please enter the subnet you would like to check in CIDR notation: ";
      printed "The following subnet conflicts were found: ";
      printed "Conflicting subnet: A 10.0.0.0/24"]).
Proof.
  intros args A B cidr w. split; [reflexivity |]. split; [reflexivity |].
  refine (main_conflict_reports no_IPv6 args [A; B] "10.0.0.0/25" cidr [] w
            eq_refl eq_refl eq_refl eq_refl _ eq_refl eq_refl eq_refl
            eq_refl).
  repeat constructor; eexists; reflexivity.
Defined.

(** The conflict option for [10.0.0.0/240]: through the format check and
    into [ValueError]. *)
Lemma main_conflict_bad_text_witness :
  let args := {| Args.add := false; Args.delete := false;
                 Args.conflict := true; Args.query := false;
                 Args.list := false |} in
  let w := world (Some "") ["10.0.0.0/240"] [] in
  check_address_format "10.0.0.0/240" = true /\
  ip_network no_IPv6 "10.0.0.0/240" = Raise ValueError /\
  main no_IPv6 args w =
  (Raise ValueError,
   world (inventory w) []
     [printed "Checking for subnet conflicts";
      "Please enter the subnet you would like to check in CIDR notation: "]).
Proof.
  intros args w. split; [reflexivity |]. split; [reflexivity |].
  exact (proj2 (main_conflict_bad_text no_IPv6 args "10.0.0.0/240" [] w
                  eq_refl eq_refl eq_refl eq_refl) eq_refl eq_refl).
Defined.

(** The query option for [10.0.0.1/24] on a store that holds
    [10.0.0.0/24]: not found. *)
Lemma main_query_answers_witness :
  let args := {| Args.add := false; Args.delete := false;
                 Args.conflict := false; Args.query := true;
                 Args.list := false |} in
  let A := {| name := "A"; cidr_string := "10.0.0.0/24" |} in
  let w := world (Some (inventory_text [A])) ["10.0.0.1/24"] [] in
  wf_store [A] = true /\
  main no_IPv6 args w =
  (Ok tt,
   world (inventory w) []
     [printed "Checking for subnet in inventory";
      "Please enter the subnet you would like to check in CIDR notation: ";
      printed "Subnet does not exist in inventory"]).
Proof.
  intros args A w. split; [reflexivity |].
  exact (main_query_answers no_IPv6 args [A] "10.0.0.1/24" [] w
           eq_refl eq_refl eq_refl eq_refl eq_refl).
Defined.

(** The add option without the file: the name [A] is read and the script
    ends. *)
Lemma main_add_needs_inventory_witness :
  let args := {| Args.add := true; Args.delete := false;
                 Args.conflict := false; Args.query := false;
                 Args.list := false |} in
  let w := world None ["A"; "10.0.0.0/24"] [] in
  main no_IPv6 args w =
  (Raise FileNotFoundError,
   world None ["10.0.0.0/24"]
     [printed "Adding a new subnet"; "Please enter a name for your subnet: "]).
Proof.
  intros args w. exact (main_add_needs_inventory no_IPv6 args w eq_refl eq_refl).
Defined.
